(** * capnograph-ui: the breath pipeline of [MainUI]

    A shallow embedding of the computational core of [capnograph-ui.py]:
    the slots [dataUpdate], [veVco2], [co2Max], [volBreath] and [resetAvg]
    of class [MainUI], together with the instance attributes they read and
    write.

    Numbers.  Python floats are embedded as exact rationals [Q]; rounding of
    IEEE doubles is not part of that model.  Equalities between computed
    numbers are therefore stated with [==] ([Qeq]), and where a theorem
    gives a computed number it names, wherever it can, the operations of
    the code in their order, so that it reads the same on doubles; what
    holds in exact arithmetic only is said to do so.  [Binary64] has [veVco2] on binary64 numbers,
    for the values the slot computes at given readings.  [datetime]
    values are embedded as an integer count of microseconds (the
    resolution of [datetime]), and [timedelta.total_seconds()] as that
    count over 10^6.

    Effects.  Every slot runs in the single GUI thread and mutates [self];
    it is embedded as a function in the state-and-exception monad [M].
    [datetime.now()] is an input of the slot that reads it.  A label is
    embedded by the number that is formatted into its text, the save file
    by the list of breath rows appended to it. *)

From Stdlib Require Import List ZArith QArith Qfield Lia Lqa Bool.
From Stdlib Require String.
From Stdlib Require PrimFloat Uint63.
Import ListNotations.
Import String.StringSyntax.

Delimit Scope string_scope with string.

Local Open Scope Q_scope.

(** ** Python runtime *)

Module Py.

Inductive Exn : Type :=
| ZeroDivisionError
| IndexError.

Inductive Result (A : Type) : Type :=
| Ok (a : A)
| Raise (e : Exn).

Arguments Ok {A} a.
Arguments Raise {A} e.

(** [x / y] on floats. *)
Definition truediv (x y : Q) : Result Q :=
  if Qeq_bool y 0 then Raise ZeroDivisionError else Ok (x / y).

(** [x > y] and [x >= y] on floats. *)
Definition gt (x y : Q) : bool := negb (Qle_bool x y).
Definition ge (x y : Q) : bool := Qle_bool y x.
Definition lt (x y : Q) : bool := negb (Qle_bool y x).

(** The builtin [sum]: a left fold of [+] that starts at [0]. *)
Definition sum (l : list Q) : Q := fold_left Qplus l 0.

(** [len(l)] as a number. *)
Definition len {A} (l : list A) : Q := inject_Z (Z.of_nat (length l)).

(** [d[-k]] for [k >= 1]: counted from the right end. *)
Definition index_neg {A} (d : list A) (k : nat) : Result A :=
  match nth_error (rev d) (Nat.pred k) with
  | Some a => Ok a
  | None => Raise IndexError
  end.

(** [collections.deque(..., maxlen)]: the items in order, left to right.
    [append] adds on the right and discards from the left what exceeds
    [maxlen]. *)
Definition deque_append {A} (maxlen : nat) (d : list A) (x : A) : list A :=
  let d' := d ++ [x] in
  skipn (length d' - maxlen) d'.

(** [(a - b).total_seconds()] for two [datetime]s given in microseconds. *)
Definition total_seconds (a b : Z) : Q := Qmake (a - b) 1000000.

End Py.

Import Py.

(** ** The instance attributes of [MainUI] used by the pipeline

    The plot deques ([flowX], [flowY], [coX], [coY], [integX], [integY],
    [veVco2X], [veVco2Y]) are written by [dataUpdate] and read by the plot
    only; [maxCo2ValLast], [coFlag], [startVolTime] and [stopVolTime] are
    never read.  They are left out, and so are the rows of raw readings in
    the save file. *)

(** The row [[None,None,None,None,volNow,volume,None,None,None,None]] that
    [volBreath] appends to the save file when a breath closes. *)
Inductive Row : Type :=
| VolRow (volNow : Z) (volume : Q).

Definition row_volume (r : Row) : Q :=
  match r with VolRow _ v => v end.

Record MainUI : Type := mkMainUI {
  floTrig : Q;
  coTrig : Q;
  integratedCo : Q;
  integratedCoPts : Z;
  integratedCoTime : list Z;   (* deque, maxlen 5 *)
  veVco2Val : list Q;          (* deque, maxlen 500 *)
  maxCo2Val : Q;
  volBreathsQ : list Q;        (* deque, maxlen 100 *)
  curVol : list Q;             (* deque, maxlen 500 *)
  volFlag : bool;
  tabAvg_label_veVc : Q;
  tabAvg_label_percPk : Q;
  tabAvg_label_vol : Q;
  tabCur_label_vol : Q;
  saveLog : list Row           (* breath rows of the save file, oldest first *)
}.

Definition set_floTrig (v : Q) (s : MainUI) : MainUI :=
  mkMainUI v (coTrig s) (integratedCo s) (integratedCoPts s)
    (integratedCoTime s) (veVco2Val s) (maxCo2Val s) (volBreathsQ s)
    (curVol s) (volFlag s) (tabAvg_label_veVc s) (tabAvg_label_percPk s)
    (tabAvg_label_vol s) (tabCur_label_vol s) (saveLog s).

Definition set_coTrig (v : Q) (s : MainUI) : MainUI :=
  mkMainUI (floTrig s) v (integratedCo s) (integratedCoPts s)
    (integratedCoTime s) (veVco2Val s) (maxCo2Val s) (volBreathsQ s)
    (curVol s) (volFlag s) (tabAvg_label_veVc s) (tabAvg_label_percPk s)
    (tabAvg_label_vol s) (tabCur_label_vol s) (saveLog s).

Definition set_integratedCo (v : Q) (s : MainUI) : MainUI :=
  mkMainUI (floTrig s) (coTrig s) v (integratedCoPts s) (integratedCoTime s)
    (veVco2Val s) (maxCo2Val s) (volBreathsQ s) (curVol s) (volFlag s)
    (tabAvg_label_veVc s) (tabAvg_label_percPk s) (tabAvg_label_vol s)
    (tabCur_label_vol s) (saveLog s).

Definition set_integratedCoPts (v : Z) (s : MainUI) : MainUI :=
  mkMainUI (floTrig s) (coTrig s) (integratedCo s) v (integratedCoTime s)
    (veVco2Val s) (maxCo2Val s) (volBreathsQ s) (curVol s) (volFlag s)
    (tabAvg_label_veVc s) (tabAvg_label_percPk s) (tabAvg_label_vol s)
    (tabCur_label_vol s) (saveLog s).

Definition set_integratedCoTime (v : list Z) (s : MainUI) : MainUI :=
  mkMainUI (floTrig s) (coTrig s) (integratedCo s) (integratedCoPts s) v
    (veVco2Val s) (maxCo2Val s) (volBreathsQ s) (curVol s) (volFlag s)
    (tabAvg_label_veVc s) (tabAvg_label_percPk s) (tabAvg_label_vol s)
    (tabCur_label_vol s) (saveLog s).

Definition set_veVco2Val (v : list Q) (s : MainUI) : MainUI :=
  mkMainUI (floTrig s) (coTrig s) (integratedCo s) (integratedCoPts s)
    (integratedCoTime s) v (maxCo2Val s) (volBreathsQ s) (curVol s)
    (volFlag s) (tabAvg_label_veVc s) (tabAvg_label_percPk s)
    (tabAvg_label_vol s) (tabCur_label_vol s) (saveLog s).

Definition set_maxCo2Val (v : Q) (s : MainUI) : MainUI :=
  mkMainUI (floTrig s) (coTrig s) (integratedCo s) (integratedCoPts s)
    (integratedCoTime s) (veVco2Val s) v (volBreathsQ s) (curVol s)
    (volFlag s) (tabAvg_label_veVc s) (tabAvg_label_percPk s)
    (tabAvg_label_vol s) (tabCur_label_vol s) (saveLog s).

Definition set_volBreathsQ (v : list Q) (s : MainUI) : MainUI :=
  mkMainUI (floTrig s) (coTrig s) (integratedCo s) (integratedCoPts s)
    (integratedCoTime s) (veVco2Val s) (maxCo2Val s) v (curVol s)
    (volFlag s) (tabAvg_label_veVc s) (tabAvg_label_percPk s)
    (tabAvg_label_vol s) (tabCur_label_vol s) (saveLog s).

Definition set_curVol (v : list Q) (s : MainUI) : MainUI :=
  mkMainUI (floTrig s) (coTrig s) (integratedCo s) (integratedCoPts s)
    (integratedCoTime s) (veVco2Val s) (maxCo2Val s) (volBreathsQ s) v
    (volFlag s) (tabAvg_label_veVc s) (tabAvg_label_percPk s)
    (tabAvg_label_vol s) (tabCur_label_vol s) (saveLog s).

Definition set_volFlag (v : bool) (s : MainUI) : MainUI :=
  mkMainUI (floTrig s) (coTrig s) (integratedCo s) (integratedCoPts s)
    (integratedCoTime s) (veVco2Val s) (maxCo2Val s) (volBreathsQ s)
    (curVol s) v (tabAvg_label_veVc s) (tabAvg_label_percPk s)
    (tabAvg_label_vol s) (tabCur_label_vol s) (saveLog s).

Definition set_tabAvg_label_veVc (v : Q) (s : MainUI) : MainUI :=
  mkMainUI (floTrig s) (coTrig s) (integratedCo s) (integratedCoPts s)
    (integratedCoTime s) (veVco2Val s) (maxCo2Val s) (volBreathsQ s)
    (curVol s) (volFlag s) v (tabAvg_label_percPk s) (tabAvg_label_vol s)
    (tabCur_label_vol s) (saveLog s).

Definition set_tabAvg_label_percPk (v : Q) (s : MainUI) : MainUI :=
  mkMainUI (floTrig s) (coTrig s) (integratedCo s) (integratedCoPts s)
    (integratedCoTime s) (veVco2Val s) (maxCo2Val s) (volBreathsQ s)
    (curVol s) (volFlag s) (tabAvg_label_veVc s) v (tabAvg_label_vol s)
    (tabCur_label_vol s) (saveLog s).

Definition set_tabAvg_label_vol (v : Q) (s : MainUI) : MainUI :=
  mkMainUI (floTrig s) (coTrig s) (integratedCo s) (integratedCoPts s)
    (integratedCoTime s) (veVco2Val s) (maxCo2Val s) (volBreathsQ s)
    (curVol s) (volFlag s) (tabAvg_label_veVc s) (tabAvg_label_percPk s) v
    (tabCur_label_vol s) (saveLog s).

Definition set_tabCur_label_vol (v : Q) (s : MainUI) : MainUI :=
  mkMainUI (floTrig s) (coTrig s) (integratedCo s) (integratedCoPts s)
    (integratedCoTime s) (veVco2Val s) (maxCo2Val s) (volBreathsQ s)
    (curVol s) (volFlag s) (tabAvg_label_veVc s) (tabAvg_label_percPk s)
    (tabAvg_label_vol s) v (saveLog s).

Definition set_saveLog (v : list Row) (s : MainUI) : MainUI :=
  mkMainUI (floTrig s) (coTrig s) (integratedCo s) (integratedCoPts s)
    (integratedCoTime s) (veVco2Val s) (maxCo2Val s) (volBreathsQ s)
    (curVol s) (volFlag s) (tabAvg_label_veVc s) (tabAvg_label_percPk s)
    (tabAvg_label_vol s) (tabCur_label_vol s) v.

(** [MainUI.__init__]; [now] is the [datetime.now()] it reads. *)
Definition init (now : Z) : MainUI := {|
  floTrig := 10;
  coTrig := 20000;
  integratedCo := 0;
  integratedCoPts := 0;
  integratedCoTime := [now; now];
  veVco2Val := [0];
  maxCo2Val := 0;
  volBreathsQ := [];
  curVol := [0];
  volFlag := false;
  tabAvg_label_veVc := 0;
  tabAvg_label_percPk := 0;
  tabAvg_label_vol := 0;
  tabCur_label_vol := 0;
  saveLog := []
|}.

(** ** Slots as state-and-exception computations

    A raised exception leaves the attribute writes made before it in
    place, so the state is returned in both cases. *)

Definition M (A : Type) : Type := MainUI -> MainUI * Result A.

Definition ret {A} (a : A) : M A := fun s => (s, Ok a).

Definition bind {A B} (c : M A) (k : A -> M B) : M B :=
  fun s =>
    match c s with
    | (s', Ok a) => k a s'
    | (s', Raise e) => (s', Raise e)
    end.

(** Evaluate an expression over [self]. *)
Definition eval {A} (f : MainUI -> Result A) : M A := fun s => (s, f s).

Definition read {A} (f : MainUI -> A) : M A := eval (fun s => Ok (f s)).

Definition write (f : MainUI -> MainUI) : M unit := fun s => (f s, Ok tt).

Notation "x <- c ;; k" := (bind c (fun x => k))
  (at level 61, c at next level, right associativity).
Notation "c ;; k" := (bind c (fun _ => k))
  (at level 61, right associativity).

(** The expression [1/(self.integratedCo/(self.integratedCoPts*.05))]. *)
Definition ve_over_vco2 (s : MainUI) : Result Q :=
  match truediv (integratedCo s) (inject_Z (integratedCoPts s) * (5 # 100)) with
  | Ok q => truediv 1 q
  | Raise e => Raise e
  end.

(** [veVco2(self, n)].  [now] is its [datetime.now()]. *)
Definition veVco2 (now : Z) (n : Q) : M unit :=
  trig <- read coTrig ;;
  if gt n trig then
    write (fun s => set_integratedCoTime
                      (deque_append 5 (integratedCoTime s) now) s) ;;
    t1 <- eval (fun s => index_neg (integratedCoTime s) 1) ;;
    t2 <- eval (fun s => index_neg (integratedCoTime s) 2) ;;
    (if gt (total_seconds t1 t2) (6 # 100) || lt (total_seconds t1 t2) (4 # 100)
     then
       write (fun s => set_integratedCo
                         (integratedCo s + (n / 1000000) * (5 # 100)) s)
     else
       write (fun s => set_integratedCo
                         (integratedCo s
                          + (n / 1000000) * total_seconds t1 t2) s)) ;;
    write (fun s => set_integratedCoPts (integratedCoPts s + 1) s) ;;
    r <- eval ve_over_vco2 ;;
    write (fun s => set_veVco2Val (deque_append 500 (veVco2Val s) r) s) ;;
    r' <- eval ve_over_vco2 ;;
    write (set_tabAvg_label_veVc r')
  else
    write (fun s => set_veVco2Val (deque_append 500 (veVco2Val s) 0) s).

(** [co2Max(self, n)]: the body is [pass]; the statements that follow it
    in the source are the text of a string literal. *)
Definition co2Max (n : Q) : M unit := ret tt.

(** [volBreath(self, n)].  [now] is its [datetime.now()]. *)
Definition volBreath (now : Z) (n : Q) : M unit :=
  let volNow := now in
  flag <- read volFlag ;;
  (if negb flag then
     trig <- read floTrig ;;
     if ge n trig then
       write (fun s => set_curVol
                         (deque_append 500 (curVol s) (n * (5 / 6000))) s) ;;
       write (set_volFlag true)
     else ret tt
   else ret tt) ;;
  flag <- read volFlag ;;
  if flag then
    trig <- read floTrig ;;
    if ge n trig then
      write (fun s => set_curVol
                        (deque_append 500 (curVol s) (n * (5 / 6000))) s)
    else
      write (fun s => set_volBreathsQ
                        (deque_append 100 (volBreathsQ s) (sum (curVol s))) s) ;;
      v <- eval (fun s => index_neg (volBreathsQ s) 1) ;;
      write (set_tabCur_label_vol v) ;;
      w <- eval (fun s => index_neg (volBreathsQ s) 1) ;;
      write (fun s => set_saveLog (saveLog s ++ [VolRow volNow w]) s) ;;
      write (set_curVol []) ;;
      avg <- eval (fun s => truediv (sum (volBreathsQ s))
                              (len (volBreathsQ s))) ;;
      write (set_tabAvg_label_vol avg) ;;
      write (set_volFlag false)
  else ret tt.

(** [resetAvg(self)].  Nothing in its [try] body can raise. *)
Definition resetAvg : M unit :=
  write (set_integratedCo 0) ;;
  write (set_integratedCoPts 0) ;;
  write (set_tabAvg_label_veVc 0) ;;
  write (set_maxCo2Val 0) ;;
  peak <- read maxCo2Val ;;
  write (set_tabAvg_label_percPk peak) ;;
  write (set_volBreathsQ []) ;;
  write (set_tabAvg_label_vol 0) ;;
  write (set_volFlag false).

(** [dataUpdate(self, index, n)], without the plot and the raw-reading
    rows: the save file is taken to be writable, so that the [open] and
    [writerow] before each dispatch return.  [now] is the clock reading
    of the slot it dispatches to. *)
Definition dataUpdate (index : Z) (now : Z) (n : Q) : M unit :=
  (if (index =? 0)%Z then volBreath now n else ret tt) ;;
  if (index =? 1)%Z then
    veVco2 now n ;;
    co2Max n
  else ret tt.

(** [setIntegPts(self)] and [setCoIntegPts(self)], for a text in the line
    edit that [float] converts to [newVal]; any other text changes
    nothing. *)
Definition setIntegPts (newVal : Q) : M unit := write (set_floTrig newVal).

Definition setCoIntegPts (newVal : Q) : M unit := write (set_coTrig newVal).

(** ** Runs

    What the GUI thread is handed, in arrival order: a reading from one of
    the two sensor workers, or a press of the reset button. *)
Inductive Event : Type :=
| Reading (index : Z) (now : Z) (n : Q)
| ResetPressed.

Definition handle (e : Event) : M unit :=
  match e with
  | Reading index now n => dataUpdate index now n
  | ResetPressed => resetAvg
  end.

(** An exception that leaves a slot is not caught anywhere in the program:
    the run ends there. *)
Fixpoint run (es : list Event) : M unit :=
  match es with
  | [] => ret tt
  | e :: es' => handle e ;; run es'
  end.

Definition flow (r : Z * Q) : Event := Reading 0 (fst r) (snd r).
Definition co2 (r : Z * Q) : Event := Reading 1 (fst r) (snd r).

(** The state a computation ends in. *)
Definition after {A} (c : M A) (s : MainUI) : MainUI := fst (c s).

(** The computation ended without an exception. *)
Definition returns {A} (c : M A) (s : MainUI) : Prop :=
  exists a, snd (c s) = Ok a.

(** ** Vocabulary of the statements *)

(** The last [k] items of a list. *)
Definition lastn {A} (k : nat) (l : list A) : list A :=
  skipn (length l - k) l.

(** The volume one flow reading adds to the open breath. *)
Definition contribution (n : Q) : Q := n * (5 / 6000).

(** The arithmetic mean of a non-empty list. *)
Definition mean (l : list Q) : Q := sum l / len l.

(** The volumes of the breaths closed on the way from [s] to [s']. *)
Definition breaths_since (s s' : MainUI) : list Q :=
  map row_volume (skipn (length (saveLog s)) (saveLog s')).

(** [d[-1]] where the deque is known to hold something. *)
Definition newest {A} (d : list A) : option A :=
  match index_neg d 1 with
  | Ok a => Some a
  | Raise _ => None
  end.

(** The event is a sensor reading, not a press of the reset button. *)
Definition is_reading (e : Event) : bool :=
  match e with
  | Reading _ _ _ => true
  | ResetPressed => false
  end.

(** [N] clock readings 0.05 s apart, the first being [t]. *)
Fixpoint uniform_times (t : Z) (N : nat) : list Z :=
  match N with
  | O => []
  | S N' => t :: uniform_times (t + 50000) N'
  end.

(** [N] CO2 readings of the same value [V], 0.05 s apart from [t] on. *)
Definition constant_co2 (t : Z) (V : Q) (N : nat) : list Event :=
  map (fun t' => co2 (t', V)) (uniform_times t N).

(** From [s] to [s'] the rows [R] were written, and the history of breath
    volumes and the label of their average followed them. *)
Definition tracks (s s' : MainUI) (R : list Row) : Prop :=
  saveLog s' = saveLog s ++ R
  /\ match R with
     | [] =>
         volBreathsQ s' = volBreathsQ s
         /\ tabAvg_label_vol s' = tabAvg_label_vol s
     | _ :: _ =>
         volBreathsQ s' = lastn 100 (volBreathsQ s ++ map row_volume R)
         /\ tabAvg_label_vol s' = mean (volBreathsQ s')
     end.

(** ** The whole session

    Besides readings and resets, the GUI thread runs the two [Update]
    buttons of the trigger levels. *)
Inductive Action : Type :=
| Handle (e : Event)
| IntegUpdate (newVal : Q)        (* [setIntegPts] with a convertible text *)
| CoIntegUpdate (newVal : Q).     (* [setCoIntegPts] with a convertible text *)

Definition perform (a : Action) : M unit :=
  match a with
  | Handle e => handle e
  | IntegUpdate newVal => setIntegPts newVal
  | CoIntegUpdate newVal => setCoIntegPts newVal
  end.

Fixpoint session (acts : list Action) : M unit :=
  match acts with
  | [] => ret tt
  | a :: acts' => perform a ;; session acts'
  end.

(** The action does not set a negative CO2 trigger. *)
Definition keeps_trigger_nonnegative (a : Action) : bool :=
  match a with
  | CoIntegUpdate newVal => Qle_bool 0 newVal
  | _ => true
  end.

(** The action does not set a CO2 trigger below 1 ppm. *)
Definition keeps_trigger_at_least_1ppm (a : Action) : bool :=
  match a with
  | CoIntegUpdate newVal => Qle_bool 1 newVal
  | _ => true
  end.

(** The event is a CO2 reading that [veVco2] integrates under trigger
    [trig]. *)
Definition integrated (trig : Q) (e : Event) : bool :=
  match e with
  | Reading index _ n => (index =? 1)%Z && gt n trig
  | ResetPressed => false
  end.

Definition is_flow (e : Event) : bool :=
  match e with
  | Reading index _ _ => (index =? 0)%Z
  | ResetPressed => false
  end.

Definition is_co2 (e : Event) : bool :=
  match e with
  | Reading index _ _ => (index =? 1)%Z
  | ResetPressed => false
  end.

(** The attributes [volBreath] reads or writes, and those [veVco2] reads
    or writes. *)
Definition breath_part (s : MainUI) :=
  (floTrig s, volFlag s, curVol s, volBreathsQ s,
   tabAvg_label_vol s, tabCur_label_vol s, saveLog s).

Definition co2_part (s : MainUI) :=
  (coTrig s, integratedCo s, integratedCoPts s, integratedCoTime s,
   veVco2Val s, tabAvg_label_veVc s).

(** Each reading comes 0.05 s after the one before it ([t0] before the
    first), or at a distance outside the band from 0.04 s to 0.06 s. *)
Fixpoint nominal_spacing (t0 : Z) (rs : list (Z * Q)) : bool :=
  match rs with
  | [] => true
  | (t, _) :: rs' =>
      ((t - t0 =? 50000) || (t - t0 <? 40000) || (60000 <? t - t0))%Z
      && nominal_spacing t rs'
  end.

(** What the deques of a window can hold: [integratedCoTime] starts with
    two items and [veVco2Val] with one, and no deque outgrows its
    [maxlen]; the point count starts at 0 and is only incremented. *)
Definition well_formed (s : MainUI) : Prop :=
  (2 <= length (integratedCoTime s) <= 5)%nat
  /\ (1 <= length (veVco2Val s) <= 500)%nat
  /\ (length (curVol s) <= 500)%nat
  /\ (length (volBreathsQ s) <= 100)%nat
  /\ (0 <= integratedCoPts s)%Z.

(** The CO2 side of a window whose trigger has never been negative. *)
Definition co2_nonnegative (s : MainUI) : Prop :=
  well_formed s
  /\ 0 <= coTrig s
  /\ 0 <= integratedCo s
  /\ 0 <= tabAvg_label_veVc s.

Definition row_time (r : Row) : Z :=
  match r with VolRow t _ => t end.

(** The clock times of the flow readings that fall below the trigger
    right after a reading at or above it; [above] tells whether the
    reading before the first one was at or above the trigger. *)
Fixpoint closing_times (trig : Q) (above : bool) (rs : list (Z * Q))
  : list Z :=
  match rs with
  | [] => []
  | (t, n) :: rs' =>
      (if above && lt n trig then [t] else [])
        ++ closing_times trig (ge n trig) rs'
  end.

(** Two rows with the same clock time and equal volumes. *)
Definition row_equiv (r r' : Row) : Prop :=
  row_time r = row_time r' /\ row_volume r == row_volume r'.

Definition all_zero (l : list Q) : Prop := Forall (fun c => c == 0) l.

(** Two windows whose breath sides will behave alike: same trigger, same
    open flag, buffers that hold the same contributions after some zeros,
    equal histories and averages. *)
Definition same_breaths (s1 s2 : MainUI) : Prop :=
  floTrig s1 == floTrig s2
  /\ volFlag s1 = volFlag s2
  /\ (exists z1 z2 l,
        all_zero z1 /\ all_zero z2
        /\ curVol s1 = lastn 500 (z1 ++ l)
        /\ curVol s2 = lastn 500 (z2 ++ l))
  /\ Forall2 Qeq (volBreathsQ s1) (volBreathsQ s2)
  /\ tabAvg_label_vol s1 == tabAvg_label_vol s2.

(** ** The sensor workers

    Each worker thread runs a loop; one pass of the loop is a cycle.  What
    the device and the operating system answer in a cycle is the input of
    that cycle; what the worker sends and the [newData] signals it emits
    are its output.  A cycle that lets an exception escape ends the
    thread: its outcome is [None]. *)

(** The value a consumer sees when a missing reading is replaced by the
    one before it; [v0] is the value before the first reading. *)
Fixpoint hold_last {V : Type} (v0 : V) (rs : list (option V)) : list V :=
  match rs with
  | [] => []
  | Some v :: rs' => v :: hold_last v rs'
  | None :: rs' => v0 :: hold_last v0 rs'
  end.

Module FlowSensorWorker.

Section Run.

(** What [float] makes of a text: a value, or [None] for [ValueError]. *)
Variable V : Type.
Variable float : String.string -> option V.
Variable zero : V.

(** An item of the class attribute [oldData]: the [0.0] it is created
    with, or a matched text. *)
Inductive Item : Type :=
| Float0
| Str (text : String.string).

Definition float_of_item (i : Item) : option V :=
  match i with
  | Float0 => Some zero
  | Str text => float text
  end.

(** One cycle of the device loop: whether [sendall] returns (consulted
    when a request is due), and what [re.findall] finds in the received
    text ([None] when [recv] or the decoding raises). *)
Record Cycle : Type := mkCycle {
  sendall_ok : bool;
  recv : option (list String.string)
}.

Inductive Signal : Type :=
| Sendall                 (* the request for a batch of readings *)
| NewData (v : V).        (* [newData.emit(0, v)] *)

(** The [except] branch of the cycle. *)
Definition handler (count : Z) (old : list Item)
  : list Signal * option (Z * list Item) :=
  match index_neg old 1 with
  | Ok item =>
      match float_of_item item with
      | Some v => ([NewData v], Some (count, old))
      | None => ([], None)
      end
  | Raise _ => ([], None)
  end.

(** One pass of [while(self.enableChk == True)]; the state is the local
    [count] and the deque [oldData] (maxlen 5). *)
Definition cycle (c : Cycle) (st : Z * list Item)
  : list Signal * option (Z * list Item) :=
  let '(count, old) := st in
  if (count <? 1)%Z && negb (sendall_ok c) then ([], None)
  else
    let sent := if (count <? 1)%Z then [Sendall] else [] in
    let count := if (count <? 1)%Z then 250%Z else count in
    let '(out, r) :=
      match recv c with
      | Some (tok :: _) =>
          let old := deque_append 5 old (Str tok) in
          match float tok with
          | Some v => ([NewData v], Some ((count - 1)%Z, old))
          | None => handler count old
          end
      | _ => handler count old
      end in
    (sent ++ out, r).

Fixpoint cycles (cs : list Cycle) (st : Z * list Item)
  : list Signal * option (Z * list Item) :=
  match cs with
  | [] => ([], Some st)
  | c :: cs' =>
      match cycle c st with
      | (out, Some st') =>
          let '(out', r) := cycles cs' st' in (out ++ out', r)
      | (out, None) => (out, None)
      end
  end.

(** [run(self)] with the device enabled: [count] starts at 0; [old] is
    what the class attribute holds when the thread starts. *)
Definition run (cs : list Cycle) (old : list Item)
  : list Signal * option (Z * list Item) :=
  cycles cs (0%Z, old).

(** The reading a cycle delivers: the value of the first matched text. *)
Definition reading (c : Cycle) : option V :=
  match recv c with
  | Some (tok :: _) => float tok
  | _ => None
  end.

(** The first matched text, if there is one, is a text [float] accepts. *)
Definition convertible (c : Cycle) : bool :=
  match recv c with
  | Some (tok :: _) => match float tok with Some _ => true | None => false end
  | _ => true
  end.

Definition delivered (c : Cycle) : bool :=
  match reading c with Some _ => true | None => false end.

Definition requests (out : list Signal) : Z :=
  Z.of_nat (length (filter (fun x => match x with Sendall => true | _ => false end) out)).

Fixpoint values (out : list Signal) : list V :=
  match out with
  | [] => []
  | Sendall :: out' => values out'
  | NewData v :: out' => v :: values out'
  end.

End Run.

End FlowSensorWorker.

Module CoSensorWorker.

Section Run.

(** What [int] makes of a text, and whether [newData.emit(1, v)] accepts
    the integer [v] for its [float] argument. *)
Variable int : String.string -> option Z.
Variable emits : Z -> bool.

(** One cycle of the device loop: the digit runs [re.findall] finds in
    the decoded line ([None] when [readline] or [decode] raises), and
    whether [reset_input_buffer] returns, in the [try] block and in the
    [except] block. *)
Record Cycle : Type := mkCycle {
  readline : option (list String.string);
  reset_ok : bool;
  reset_again_ok : bool
}.

(** The [except] branch; [emitted] is what the [try] block had emitted.
    The deque [oldData] holds integers, its initial [0.0] being 0. *)
Definition handler (c : Cycle) (old : list Z) (emitted : list Z)
  : list Z * option (list Z) :=
  let again :=
    match index_neg old 1 with
    | Ok w => if emits w then [w] else []
    | Raise _ => []
    end in
  (emitted ++ again, if reset_again_ok c then Some old else None).

(** One pass of [while(self.enableChk == True)]: the values emitted, and
    the deque [oldData] (maxlen 5) afterwards. *)
Definition cycle (c : Cycle) (old : list Z) : list Z * option (list Z) :=
  match readline c with
  | Some (_ :: tok :: _) =>
      match int tok with
      | Some k =>
          let newItem := (k * 10)%Z in
          if emits newItem then
            let old' := deque_append 5 old newItem in
            if reset_ok c then ([newItem], Some old')
            else handler c old' [newItem]
          else handler c old []
      | None => handler c old []
      end
  | _ => handler c old []
  end.

Fixpoint run (cs : list Cycle) (old : list Z) : list Z * option (list Z) :=
  match cs with
  | [] => ([], Some old)
  | c :: cs' =>
      match cycle c old with
      | (out, Some old') => let '(out', r) := run cs' old' in (out ++ out', r)
      | (out, None) => (out, None)
      end
  end.

(** The reading a cycle delivers: ten times the second number of the
    line. *)
Definition reading (c : Cycle) : option Z :=
  match readline c with
  | Some (_ :: tok :: _) =>
      match int tok with
      | Some k => if emits (k * 10)%Z then Some (k * 10)%Z else None
      | None => None
      end
  | _ => None
  end.

Definition port_healthy (c : Cycle) : bool := reset_ok c && reset_again_ok c.

End Run.

End CoSensorWorker.

(** A conversion table for the instances of the worker theorems: the
    texts it lists convert, any other text is rejected. *)
Definition float_table (text : String.string) : option Q :=
  if String.eqb text "12.50" then Some (25 # 2)
  else if String.eqb text "7.25" then Some (29 # 4)
  else None.

Definition int_table (text : String.string) : option Z :=
  if String.eqb text "0" then Some 0%Z
  else if String.eqb text "4100" then Some 4100%Z
  else if String.eqb text "4150" then Some 4150%Z
  else None.

(** ** The save file

    The files on disk, by path; a file is the list of its lines.
    [resolve] gives the path of the file a name denotes: two names may
    denote the same file (['SaveLog.csv'] and ['./SaveLog.csv']), and they
    do exactly when [resolve] sends them to the same path.  [openable]
    tells whether [open] succeeds on a name. *)

Module SaveFile.

Section Files.

Variable R : Type.
Variable openable : String.string -> bool.
Variable resolve : String.string -> String.string.

Inductive Line : Type :=
| Header            (* the row of column names *)
| Row (r : R).      (* a row of readings *)

Definition Files : Type := String.string -> option (list Line).

Definition write_file (name : String.string) (ls : list Line) (fs : Files)
  : Files :=
  fun f => if String.eqb f (resolve name) then Some ls else fs f.

Record State : Type := mkState {
  saveName : String.string;
  files : Files
}.

(** The statement shared by [setupSave], [newSave] and [stopSave]: mode
    ['w'] and the header when the file does not exist or the name is the
    default one (the names are compared as texts), mode ['a'] and nothing
    written otherwise.  [None] when [open] raises. *)
Definition start_file (name : String.string) (fs : Files) : option Files :=
  let file_exists :=
    match fs (resolve name) with Some _ => true | None => false end in
  if negb file_exists || String.eqb name "SaveLog.csv" then
    if openable name then Some (write_file name [Header] fs) else None
  else
    if openable name then Some fs else None.

(** [setupSave(self)]; [None] when the exception escapes. *)
Definition setupSave (st : State) : option State :=
  match start_file (saveName st) (files st) with
  | Some fs => Some (mkState (saveName st) fs)
  | None => None
  end.

(** [newSave(self)], [text] being the content of the line edit.  The
    name is assigned before the [try] body can fail, and the [except]
    branch is [pass]. *)
Definition newSave (text : String.string) (st : State) : State :=
  match start_file text (files st) with
  | Some fs => mkState text fs
  | None => mkState text (files st)
  end.

(** [stopSave(self)]; [None] when the exception escapes. *)
Definition stopSave (st : State) : option State :=
  match start_file "SaveLog.csv"%string (files st) with
  | Some fs => Some (mkState "SaveLog.csv"%string fs)
  | None => None
  end.

(** A row written by [dataUpdate] or [volBreath]: the file is opened in
    mode ['a'], which creates it when it is missing. *)
Definition writerow (r : R) (st : State) : option State :=
  if openable (saveName st) then
    let old :=
      match files st (resolve (saveName st)) with
      | Some ls => ls
      | None => []
      end in
    Some (mkState (saveName st)
            (write_file (saveName st) (old ++ [Row r]) (files st)))
  else None.

Inductive Cmd : Type :=
| NewSave (text : String.string)
| StopSave
| Log (r : R).

Definition exec (c : Cmd) (st : State) : option State :=
  match c with
  | NewSave text => Some (newSave text st)
  | StopSave => stopSave st
  | Log r => writerow r st
  end.

Fixpoint execs (cs : list Cmd) (st : State) : option State :=
  match cs with
  | [] => Some st
  | c :: cs' =>
      match exec c st with
      | Some st' => execs cs' st'
      | None => None
      end
  end.

End Files.

End SaveFile.

(** A disk, an [open] and a [resolve] for the instances of the save-file
    theorems: one recording exists, one name cannot be opened, and the
    default file has a second name. *)
Definition sample_files : SaveFile.Files nat :=
  fun n =>
    if String.eqb n "run1.csv"
    then Some [SaveFile.Header nat; SaveFile.Row nat 7%nat]
    else if String.eqb n "SaveLog.csv"
    then Some [SaveFile.Header nat; SaveFile.Row nat 1%nat; SaveFile.Row nat 2%nat]
    else None.

Definition sample_openable (n : String.string) : bool :=
  negb (String.eqb n "no/such/dir/run.csv").

Definition sample_resolve (n : String.string) : String.string :=
  if String.eqb n "./SaveLog.csv" then "SaveLog.csv"%string else n.

(** ** The plot deques

    [dataUpdate] also feeds the deques the curves are drawn from, and
    [setDataPts] replaces them, together with [veVco2Val], by deques of
    another [maxlen].  [dataPts] is the [maxlen] they all share (500 from
    the constructor); times are clock readings in microseconds. *)
Record Plots : Type := mkPlots {
  dataPts : nat;
  flowX : list Z;
  flowY : list Q;
  coX : list Z;
  coY : list Q;
  integX : list Z;
  integY : list Q
}.

(** [collections.deque(iterable, maxlen)]. *)
Definition deque_of {A} (maxlen : nat) (items : list A) : list A :=
  lastn maxlen items.

Definition init_plots (xTime : Z) : Plots :=
  mkPlots 500 (deque_of 500 [xTime]) (deque_of 500 [0])
    (deque_of 500 [xTime]) (deque_of 500 [0])
    (deque_of 500 [xTime]) (deque_of 500 [0]).

(** [veVco2(self, n)] for a plot deque [veVco2Val] of any [maxlen]; at
    [maxlen] 500 it is [veVco2]. *)
Definition veVco2_sized (maxlen : nat) (now : Z) (n : Q) : M unit :=
  trig <- read coTrig ;;
  if gt n trig then
    write (fun s => set_integratedCoTime
                      (deque_append 5 (integratedCoTime s) now) s) ;;
    t1 <- eval (fun s => index_neg (integratedCoTime s) 1) ;;
    t2 <- eval (fun s => index_neg (integratedCoTime s) 2) ;;
    (if gt (total_seconds t1 t2) (6 # 100) || lt (total_seconds t1 t2) (4 # 100)
     then
       write (fun s => set_integratedCo
                         (integratedCo s + (n / 1000000) * (5 # 100)) s)
     else
       write (fun s => set_integratedCo
                         (integratedCo s
                          + (n / 1000000) * total_seconds t1 t2) s)) ;;
    write (fun s => set_integratedCoPts (integratedCoPts s + 1) s) ;;
    r <- eval ve_over_vco2 ;;
    write (fun s => set_veVco2Val (deque_append maxlen (veVco2Val s) r) s) ;;
    r' <- eval ve_over_vco2 ;;
    write (set_tabAvg_label_veVc r')
  else
    write (fun s => set_veVco2Val (deque_append maxlen (veVco2Val s) 0) s).

(** The window: the attributes of the pipeline and the plot deques. *)
Definition Window : Type := MainUI * Plots.

(** [dataUpdate(self, index, n)] with its plot deques; [xTime] is its own
    clock reading, [now] the one of the slot it calls. *)
Definition dataUpdate_plots (index xTime now : Z) (n : Q) (w : Window)
  : Window * Result unit :=
  let '(s, p) := w in
  let m := dataPts p in
  let '(s1, p1, r1) :=
    if (index =? 0)%Z then
      let p1 :=
        mkPlots m (deque_append m (flowX p) xTime) (deque_append m (flowY p) n)
          (coX p) (coY p)
          (deque_append m (integX p) xTime) (deque_append m (integY p) 0) in
      let '(s1, r1) := volBreath now n s in (s1, p1, r1)
    else (s, p, Ok tt) in
  match r1 with
  | Raise e => ((s1, p1), Raise e)
  | Ok _ =>
      if (index =? 1)%Z then
        let p2 :=
          mkPlots m (flowX p1) (flowY p1)
            (deque_append m (coX p1) xTime) (deque_append m (coY p1) n)
            (integX p1) (integY p1) in
        let '(s2, r2) := (veVco2_sized m now n ;; co2Max n) s1 in
        ((s2, p2), r2)
      else ((s1, p1), Ok tt)
  end.

(** [sys.maxsize] of the 64-bit interpreter the program is written for. *)
Definition maxsize : Z := 2 ^ 63 - 1.

(** [setDataPts(self)] for a text that [int] converts to [newVal]: a
    negative [maxlen] ([ValueError]) or one beyond [sys.maxsize]
    ([OverflowError]) makes the first [deque] raise, and the [except]
    branch is [pass]. *)
Definition setDataPts (newVal : Z) (xTime : Z) (w : Window) : Window :=
  let '(s, p) := w in
  if (newVal <? 0)%Z || (maxsize <? newVal)%Z then w
  else
    let m := Z.to_nat newVal in
    (set_veVco2Val (deque_of m [0]) s,
     mkPlots m (deque_of m [xTime]) (deque_of m [0])
       (deque_of m [xTime]) (deque_of m [0])
       (deque_of m [xTime]) (deque_of m [0])).

Inductive WindowAction : Type :=
| Deliver (index xTime now : Z) (n : Q)
| PressReset
| DataPts (newVal xTime : Z).

Definition act (a : WindowAction) (w : Window) : Window * Result unit :=
  match a with
  | Deliver index xTime now n => dataUpdate_plots index xTime now n w
  | PressReset => let '(s1, r) := resetAvg (fst w) in ((s1, snd w), r)
  | DataPts newVal xTime => (setDataPts newVal xTime w, Ok tt)
  end.

Fixpoint acts (l : list WindowAction) (w : Window) : Window * Result unit :=
  match l with
  | [] => (w, Ok tt)
  | a :: l' =>
      match act a w with
      | (w', Ok _) => acts l' w'
      | (w', Raise e) => (w', Raise e)
      end
  end.

(** The two arrays handed to each curve have the same length. *)
Definition curves_aligned (w : Window) : Prop :=
  length (flowX (snd w)) = length (flowY (snd w))
  /\ length (integX (snd w)) = length (integY (snd w))
  /\ length (coX (snd w)) = length (coY (snd w))
  /\ length (coX (snd w)) = length (veVco2Val (fst w)).

(** ** Breaths, as the flow readings give them *)

(** The flow readings among the events, in arrival order. *)
Definition flow_readings (es : list Event) : list (Z * Q) :=
  flat_map
    (fun e =>
       match e with
       | Reading index now n => if (index =? 0)%Z then [(now, n)] else []
       | ResetPressed => []
       end) es.

(** The breaths in a list of flow values: a breath is a maximal run of
    values at or above the trigger that a value below it ends.  [cur]
    holds the values of the run in progress; a run that the list leaves
    unfinished is no breath. *)
Fixpoint breaths_in (trig : Q) (cur : list Q) (ns : list Q)
  : list (list Q) :=
  match ns with
  | [] => []
  | n :: ns' =>
      if ge n trig then breaths_in trig (cur ++ [n]) ns'
      else
        match cur with
        | [] => breaths_in trig [] ns'
        | _ :: _ => cur :: breaths_in trig [] ns'
        end
  end.

(** What the buffer [curVol] holds while the run [xs] is in progress,
    when it held [before] at its opening: the last 500 of [before], the
    contribution of the opening value, and the contribution of every
    value, the opening one included. *)
Definition held (before : list Q) (xs : list Q) : list Q :=
  match xs with
  | [] => before
  | x1 :: _ => lastn 500 (before ++ contribution x1 :: map contribution xs)
  end.

(** The volume of the breath [xs]: the sum of what the buffer holds when
    it closes. *)
Definition breath_volume (before : list Q) (xs : list Q) : Q :=
  sum (held before xs).

(** The volumes of successive breaths: the first one finds in the buffer
    what the window left there, every later one finds it empty. *)
Definition breath_volumes (before : list Q) (bs : list (list Q)) : list Q :=
  match bs with
  | [] => []
  | b :: bs' => breath_volume before b :: map (breath_volume []) bs'
  end.

(** The value of [1/(self.integratedCo/(self.integratedCoPts*.05))] in a
    state where neither division raises. *)
Definition ratio_of (s : MainUI) : Q :=
  1 / (integratedCo s / (inject_Z (integratedCoPts s) * (5 # 100))).

(** What a CO2 reading adds to the integral when the nominal interval is
    used: [(n / 1000000) * 0.05]. *)
Definition nominal_contribution (n : Q) : Q := n / 1000000 * (5 # 100).

(** [N] CO2 readings of the same value [V], as pairs. *)
Definition constant_readings (t : Z) (V : Q) (N : nat) : list (Z * Q) :=
  map (fun t' => (t', V)) (uniform_times t N).

(** ** The CO2 integration on binary64 numbers

    [veVco2] once more, its floats being the binary64 numbers of the
    interpreter with their rounding, overflow and underflow: what the
    slot computes at given readings, where the exact arithmetic above
    says what it computes up to rounding. *)

Module Binary64.

Import PrimFloat.
#[local] Set Warnings "-inexact-float".
Local Open Scope float_scope.

(** The attributes [veVco2] reads or writes. *)
Record CoState : Type := mkCoState {
  coTrig : float;
  integratedCo : float;
  integratedCoPts : Z;
  integratedCoTime : list Z;
  veVco2Val : list float;
  tabAvg_label_veVc : float
}.

(** The constructor; [now] is its [datetime.now()]. *)
Definition init (now : Z) : CoState :=
  mkCoState 20000 0 0 [now; now] [0] 0.

(** [float(k)] for an integer of less than 63 bits. *)
Definition of_int (k : Z) : float :=
  if (k <? 0)%Z then - of_uint63 (Uint63.of_Z (- k))
  else of_uint63 (Uint63.of_Z k).

(** [x / y] on floats. *)
Definition truediv (x y : float) : Result float :=
  if eqb y 0 then Raise ZeroDivisionError else Ok (x / y).

(** [(a - b).total_seconds()]: the microseconds divided by [10**6]. *)
Definition total_seconds (a b : Z) : float := of_int (a - b) / 1000000.

(** The expression [1/(self.integratedCo/(self.integratedCoPts*.05))]. *)
Definition ve_over_vco2 (s : CoState) : Result float :=
  match truediv (integratedCo s) (of_int (integratedCoPts s) * 0.05) with
  | Ok q => truediv 1 q
  | Raise e => Raise e
  end.

(** [veVco2(self, n)].  [now] is its [datetime.now()]. *)
Definition veVco2 (now : Z) (n : float) (s : CoState)
  : CoState * Result unit :=
  if ltb (coTrig s) n then
    let times := deque_append 5 (integratedCoTime s) now in
    let s0 :=
      mkCoState (coTrig s) (integratedCo s) (integratedCoPts s) times
        (veVco2Val s) (tabAvg_label_veVc s) in
    match index_neg times 1, index_neg times 2 with
    | Ok t1, Ok t2 =>
        let co :=
          if ltb 0.06 (total_seconds t1 t2) || ltb (total_seconds t1 t2) 0.04
          then integratedCo s + (n / 1000000) * 0.05
          else integratedCo s + (n / 1000000) * total_seconds t1 t2 in
        let s1 :=
          mkCoState (coTrig s) co (integratedCoPts s + 1)%Z times
            (veVco2Val s) (tabAvg_label_veVc s) in
        match ve_over_vco2 s1 with
        | Ok r =>
            (mkCoState (coTrig s) co (integratedCoPts s + 1)%Z times
               (deque_append 500 (veVco2Val s) r) r, Ok tt)
        | Raise e => (s1, Raise e)
        end
    | _, _ => (s0, Raise IndexError)
    end
  else
    (mkCoState (coTrig s) (integratedCo s) (integratedCoPts s)
       (integratedCoTime s) (deque_append 500 (veVco2Val s) 0)
       (tabAvg_label_veVc s), Ok tt).

(** CO2 readings in arrival order; the first exception ends the run. *)
Fixpoint run (rs : list (Z * float)) (s : CoState) : CoState * Result unit :=
  match rs with
  | [] => (s, Ok tt)
  | (now, n) :: rs' =>
      match veVco2 now n s with
      | (s', Ok _) => run rs' s'
      | (s', Raise e) => (s', Raise e)
      end
  end.

(** [N] CO2 readings of the same value [V], 0.05 s apart from [t] on. *)
Definition constant_co2 (t : Z) (V : float) (N : nat) : list (Z * float) :=
  map (fun t' => (t', V)) (uniform_times t N).

(** [setCoIntegPts] with a text that [float] converts to [newVal]. *)
Definition setCoIntegPts (newVal : float) (s : CoState) : CoState :=
  mkCoState newVal (integratedCo s) (integratedCoPts s) (integratedCoTime s)
    (veVco2Val s) (tabAvg_label_veVc s).

(** The builtin [sum] on floats. *)
Definition sum (l : list float) : float := fold_left add l 0.

(** The numbers of the statements below. *)
Definition nominal_interval : float := 0.05.
Definition ppm_50000 : float := 50000.
Definition ratio_claimed : float := 1000000 / 50000.
Definition ratio_computed : float := 19.999999999999993.
Definition ratio_late_start : float := 20.202020202020197.
Definition smallest_positive : float := 0x1p-1074.

End Binary64.

(** * Properties *)

(** ** The Python runtime *)

Lemma gt_true (x y : Q) : gt x y = true <-> y < x.
Proof.
  unfold gt. rewrite negb_true_iff, <- not_true_iff_false, Qle_bool_iff.
  split; [apply Qnot_le_lt | apply Qlt_not_le].
Qed.

Lemma gt_false (x y : Q) : gt x y = false <-> x <= y.
Proof.
  unfold gt. rewrite negb_false_iff. apply Qle_bool_iff.
Qed.

Lemma lt_true (x y : Q) : lt x y = true <-> x < y.
Proof.
  unfold lt. rewrite negb_true_iff, <- not_true_iff_false, Qle_bool_iff.
  split; [apply Qnot_le_lt | apply Qlt_not_le].
Qed.

Lemma lt_false (x y : Q) : lt x y = false <-> y <= x.
Proof.
  unfold lt. rewrite negb_false_iff. apply Qle_bool_iff.
Qed.

Lemma ge_true (x y : Q) : ge x y = true <-> y <= x.
Proof. apply Qle_bool_iff. Qed.

Lemma ge_false (x y : Q) : ge x y = false <-> x < y.
Proof.
  unfold ge. rewrite <- not_true_iff_false, Qle_bool_iff.
  split; [apply Qnot_le_lt | apply Qlt_not_le].
Qed.

Lemma truediv_ok (x y : Q) : ~ y == 0 -> truediv x y = Ok (x / y).
Proof.
  intros Hy. unfold truediv.
  destruct (Qeq_bool y 0) eqn:E; [ | reflexivity].
  apply Qeq_bool_iff in E. contradiction.
Qed.

Lemma truediv_zero (x y : Q) : y == 0 -> truediv x y = Raise ZeroDivisionError.
Proof.
  intros Hy. unfold truediv. apply Qeq_bool_iff in Hy. now rewrite Hy.
Qed.

Lemma lastn_all {A} (k : nat) (l : list A) :
  (length l <= k)%nat -> lastn k l = l.
Proof.
  intros H. unfold lastn. replace (length l - k)%nat with 0%nat by lia.
  reflexivity.
Qed.

Lemma lastn_length {A} (k : nat) (l : list A) :
  length (lastn k l) = Nat.min k (length l).
Proof. unfold lastn. rewrite length_skipn. lia. Qed.

Lemma lastn_app_r {A} (k : nat) (a b : list A) :
  (k <= length b)%nat -> lastn k (a ++ b) = lastn k b.
Proof.
  intros H. unfold lastn. rewrite length_app, skipn_app.
  rewrite skipn_all2 by lia. simpl. f_equal. lia.
Qed.

Lemma lastn_lastn_app {A} (k : nat) (l m : list A) :
  lastn k (lastn k l ++ m) = lastn k (l ++ m).
Proof.
  destruct (Nat.le_gt_cases (length l) k) as [H | H].
  - now rewrite (lastn_all k l).
  - unfold lastn at 1 3. rewrite !length_app, lastn_length, !skipn_app.
    rewrite lastn_length. unfold lastn. rewrite skipn_skipn.
    replace (Nat.min k (length l)) with k by lia.
    f_equal; [f_equal | f_equal]; lia.
Qed.

Lemma lastn_min {A} (k : nat) (l : list A) :
  lastn (Nat.min (length l) k) l = lastn k l.
Proof.
  unfold lastn. f_equal. lia.
Qed.

Lemma deque_append_lastn {A} (maxlen : nat) (d : list A) (x : A) :
  deque_append maxlen d x = lastn maxlen (d ++ [x]).
Proof. reflexivity. Qed.

(** A run of [append]s keeps the last [maxlen] of everything seen. *)
Lemma deque_extend {A} (maxlen : nat) (xs d : list A) :
  fold_left (deque_append maxlen) xs (lastn maxlen d)
  = lastn maxlen (d ++ xs).
Proof.
  revert d. induction xs as [ | x xs IH]; intros d; simpl.
  - now rewrite app_nil_r.
  - rewrite deque_append_lastn, lastn_lastn_app, IH, <- app_assoc.
    reflexivity.
Qed.

Lemma deque_append_nonempty {A} (maxlen : nat) (d : list A) (x : A) :
  (1 <= maxlen)%nat -> index_neg (deque_append maxlen d x) 1 = Ok x.
Proof.
  intros H. rewrite deque_append_lastn. unfold index_neg, lastn.
  rewrite length_app, skipn_app. simpl.
  replace (length d + 1 - maxlen - length d)%nat with 0%nat by lia.
  simpl. rewrite rev_app_distr. reflexivity.
Qed.

Lemma deque_append_length {A} (maxlen : nat) (d : list A) (x : A) :
  length (deque_append maxlen d x) = Nat.min maxlen (S (length d)).
Proof.
  rewrite deque_append_lastn, lastn_length, length_app. simpl. lia.
Qed.

(** On a deque within its bound, [append] is the list append, after
    dropping the leftmost item when the deque is full. *)
Lemma deque_append_room {A} (maxlen : nat) (d : list A) (x : A) :
  (length d < maxlen)%nat -> deque_append maxlen d x = d ++ [x].
Proof.
  intros H. rewrite deque_append_lastn. apply lastn_all.
  rewrite length_app. simpl. lia.
Qed.

Lemma deque_append_full {A} (maxlen : nat) (d : list A) (x : A) :
  length d = maxlen -> (1 <= maxlen)%nat ->
  deque_append maxlen d x = tl d ++ [x].
Proof.
  intros H H1. rewrite deque_append_lastn. unfold lastn.
  rewrite length_app. simpl length.
  replace (length d + 1 - maxlen)%nat with 1%nat by lia.
  destruct d as [ | a d]; [simpl in H; lia | reflexivity].
Qed.

(** After an [append], [d[-2]] is what [d[-1]] was before it. *)
Lemma deque_append_previous {A} (maxlen : nat) (d : list A) (x y : A) :
  (2 <= maxlen)%nat ->
  index_neg d 1 = Ok y -> index_neg (deque_append maxlen d x) 2 = Ok y.
Proof.
  intros H. rewrite deque_append_lastn. unfold index_neg. simpl.
  destruct (rev d) as [ | z zs] eqn:E; [discriminate | ].
  intros [= ->].
  assert (Hd : d = rev zs ++ [y]).
  { rewrite <- (rev_involutive d), E. reflexivity. }
  subst d. unfold lastn. rewrite !length_app. simpl.
  rewrite <- app_assoc, skipn_app. simpl.
  replace (length (rev zs) + 1 + 1 - maxlen - length (rev zs))%nat
    with 0%nat by lia.
  simpl. rewrite rev_app_distr. reflexivity.
Qed.

Lemma sum_from (l : list Q) (a : Q) : fold_left Qplus l a == a + sum l.
Proof.
  unfold sum. revert a. induction l as [ | x l IH]; intros a; simpl.
  - ring.
  - rewrite IH, (IH (0 + x)). ring.
Qed.

Lemma sum_nil : sum [] = 0.
Proof. reflexivity. Qed.

Lemma sum_cons (x : Q) (l : list Q) : sum (x :: l) == x + sum l.
Proof. unfold sum at 1. simpl. rewrite sum_from. ring. Qed.

Lemma sum_app (a b : list Q) : sum (a ++ b) == sum a + sum b.
Proof.
  unfold sum at 1. rewrite fold_left_app, sum_from. reflexivity.
Qed.

(** ** Equations of the slots *)

Ltac slot :=
  cbv beta iota delta [bind read write eval ret];
  cbn [fst snd floTrig coTrig integratedCo integratedCoPts integratedCoTime
       veVco2Val maxCo2Val volBreathsQ curVol volFlag tabAvg_label_veVc
       tabAvg_label_percPk tabAvg_label_vol tabCur_label_vol saveLog
       set_floTrig set_coTrig
       set_integratedCo set_integratedCoPts set_integratedCoTime
       set_veVco2Val set_maxCo2Val set_volBreathsQ set_curVol set_volFlag
       set_tabAvg_label_veVc set_tabAvg_label_percPk set_tabAvg_label_vol
       set_tabCur_label_vol set_saveLog negb].

Tactic Notation "slot" "in" hyp(H) :=
  cbv beta iota delta [bind read write eval ret] in H;
  cbn [fst snd floTrig coTrig integratedCo integratedCoPts integratedCoTime
       veVco2Val maxCo2Val volBreathsQ curVol volFlag tabAvg_label_veVc
       tabAvg_label_percPk tabAvg_label_vol tabCur_label_vol saveLog
       set_floTrig set_coTrig
       set_integratedCo set_integratedCoPts set_integratedCoTime
       set_veVco2Val set_maxCo2Val set_volBreathsQ set_curVol set_volFlag
       set_tabAvg_label_veVc set_tabAvg_label_percPk set_tabAvg_label_vol
       set_tabCur_label_vol set_saveLog negb] in H.

Lemma len_deque_append_nonzero (maxlen : nat) (d : list Q) (x : Q) :
  (1 <= maxlen)%nat -> ~ len (deque_append maxlen d x) == 0.
Proof.
  intros H. unfold len. rewrite deque_append_length.
  intros E. unfold Qeq in E. simpl in E. lia.
Qed.

(** Flow below the trigger while no breath is open: nothing happens. *)
Lemma volBreath_idle (now : Z) (n : Q) (s : MainUI) :
  volFlag s = false -> n < floTrig s ->
  volBreath now n s = (s, Ok tt).
Proof.
  intros Hf Hn. apply ge_false in Hn.
  unfold volBreath. slot. rewrite Hf. slot. rewrite Hn. slot.
  rewrite Hf. reflexivity.
Qed.

(** Flow at or above the trigger while no breath is open: both [if]
    statements of the slot run, and each appends the contribution. *)
Lemma volBreath_open (now : Z) (n : Q) (s : MainUI) :
  volFlag s = false -> floTrig s <= n ->
  volBreath now n s
  = (set_curVol
       (deque_append 500 (deque_append 500 (curVol s) (contribution n))
          (contribution n))
       (set_volFlag true s), Ok tt).
Proof.
  intros Hf Hn. apply ge_true in Hn.
  unfold volBreath. slot. rewrite Hf. slot. rewrite Hn. slot.
  rewrite Hn. reflexivity.
Qed.

(** Flow at or above the trigger while a breath is open. *)
Lemma volBreath_hold (now : Z) (n : Q) (s : MainUI) :
  volFlag s = true -> floTrig s <= n ->
  volBreath now n s
  = (set_curVol (deque_append 500 (curVol s) (contribution n)) s, Ok tt).
Proof.
  intros Hf Hn. apply ge_true in Hn.
  unfold volBreath. slot. rewrite Hf. slot. rewrite Hf. slot. rewrite Hn.
  reflexivity.
Qed.

(** Flow below the trigger while a breath is open: the breath closes. *)
Lemma volBreath_close (now : Z) (n : Q) (s : MainUI) :
  volFlag s = true -> n < floTrig s ->
  let q := deque_append 100 (volBreathsQ s) (sum (curVol s)) in
  volBreath now n s
  = (set_volFlag false
       (set_tabAvg_label_vol (mean q)
          (set_curVol []
             (set_saveLog (saveLog s ++ [VolRow now (sum (curVol s))])
                (set_tabCur_label_vol (sum (curVol s))
                   (set_volBreathsQ q s))))), Ok tt).
Proof.
  intros Hf Hn q. apply ge_false in Hn.
  unfold volBreath. slot. rewrite Hf. slot. rewrite Hf. slot. rewrite Hn.
  slot. fold q. unfold q at 1 2. rewrite deque_append_nonempty by lia.
  slot. fold q. rewrite truediv_ok by (apply len_deque_append_nonzero; lia).
  reflexivity.
Qed.

(** A CO2 reading at or below the trigger only extends the plot deque. *)
Lemma veVco2_below (now : Z) (n : Q) (s : MainUI) :
  n <= coTrig s ->
  veVco2 now n s
  = (set_veVco2Val (deque_append 500 (veVco2Val s) 0) s, Ok tt).
Proof.
  intros Hn. apply gt_false in Hn.
  unfold veVco2. slot. rewrite Hn. reflexivity.
Qed.

(** A CO2 reading above the trigger, the newest recorded time being [t0]:
    the attributes written before the ratio is evaluated, then its outcome. *)
Lemma veVco2_above (now : Z) (n : Q) (s : MainUI) (t0 : Z) :
  coTrig s < n -> newest (integratedCoTime s) = Some t0 ->
  let dt := total_seconds now t0 in
  let co :=
    if gt dt (6 # 100) || lt dt (4 # 100)
    then integratedCo s + (n / 1000000) * (5 # 100)
    else integratedCo s + (n / 1000000) * dt in
  let pts := (integratedCoPts s + 1)%Z in
  let s1 :=
    set_integratedCoPts pts
      (set_integratedCo co
         (set_integratedCoTime (deque_append 5 (integratedCoTime s) now) s)) in
  veVco2 now n s
  = match ve_over_vco2 s1 with
    | Ok r =>
        (set_tabAvg_label_veVc r
           (set_veVco2Val (deque_append 500 (veVco2Val s) r) s1), Ok tt)
    | Raise e => (s1, Raise e)
    end.
Proof.
  intros Hn Ht dt co pts s1. apply gt_true in Hn.
  unfold newest in Ht.
  destruct (index_neg (integratedCoTime s) 1) as [t | e] eqn:E;
    [ | discriminate].
  injection Ht as ->.
  unfold veVco2. slot. rewrite Hn. slot.
  rewrite deque_append_nonempty by lia. slot.
  rewrite (deque_append_previous 5 _ now t0) by (lia || assumption). slot.
  fold dt. subst s1 co pts.
  destruct (gt dt (6 # 100) || lt dt (4 # 100)); slot;
    unfold ve_over_vco2; slot;
    (destruct (truediv _ _) as [q | e]; [ | reflexivity]);
    (destruct (truediv 1 q) as [r | e]; reflexivity).
Qed.

Lemma dataUpdate_flow (now : Z) (n : Q) (s : MainUI) :
  dataUpdate 0 now n s = volBreath now n s.
Proof.
  unfold dataUpdate. slot. simpl.
  destruct (volBreath now n s) as [s' [[] | e]]; reflexivity.
Qed.

Lemma dataUpdate_co2 (now : Z) (n : Q) (s : MainUI) :
  dataUpdate 1 now n s = veVco2 now n s.
Proof.
  unfold dataUpdate, co2Max. slot. simpl.
  destruct (veVco2 now n s) as [s' [[] | e]]; reflexivity.
Qed.

(** The integration attributes after a reading above the trigger; they are
    written before the ratio is evaluated, so they hold whether or not the
    slot raises. *)
Lemma veVco2_above_integration (now : Z) (n : Q) (s : MainUI) (t0 : Z) :
  coTrig s < n -> newest (integratedCoTime s) = Some t0 ->
  let dt := total_seconds now t0 in
  let s' := after (veVco2 now n) s in
  integratedCo s'
  = (if gt dt (6 # 100) || lt dt (4 # 100)
     then integratedCo s + (n / 1000000) * (5 # 100)
     else integratedCo s + (n / 1000000) * dt)
  /\ integratedCoPts s' = (integratedCoPts s + 1)%Z
  /\ integratedCoTime s' = deque_append 5 (integratedCoTime s) now
  /\ newest (integratedCoTime s') = Some now.
Proof.
  intros Hn Ht dt s'. subst s'. unfold after.
  rewrite (veVco2_above now n s t0 Hn Ht). fold dt.
  assert (Hnew : newest (deque_append 5 (integratedCoTime s) now) = Some now).
  { unfold newest. now rewrite deque_append_nonempty by lia. }
  destruct (ve_over_vco2 _) as [r | e]; slot; auto.
Qed.

(** ** CO2 integration: one reading *)

(** C3.  A CO2 reading at or below the trigger plots the value 0 and leaves
    the cumulative integral, the point count and the recorded times as they
    were: the only attribute written is the plot deque [veVco2Val], so the
    integral is not cleared when the concentration falls to the trigger or
    below it. *)
Theorem C3_co2_at_or_below_trigger_untouched (s : MainUI) (now : Z) (n : Q) :
  n <= coTrig s ->
  let s' := after (dataUpdate 1 now n) s in
  returns (dataUpdate 1 now n) s
  /\ newest (veVco2Val s') = Some 0
  /\ integratedCo s' = integratedCo s
  /\ integratedCoPts s' = integratedCoPts s
  /\ integratedCoTime s' = integratedCoTime s
  /\ s' = set_veVco2Val (deque_append 500 (veVco2Val s) 0) s.
Proof.
  intros Hn s'. subst s'. unfold after, returns.
  rewrite dataUpdate_co2, (veVco2_below now n s Hn). slot.
  repeat split; try reflexivity.
  - now exists tt.
  - unfold newest. now rewrite deque_append_nonempty by lia.
Qed.

Lemma C3_witness :
  400 <= coTrig (init 0)
  /\ let s' := after (dataUpdate 1 50000 400) (init 0) in
     returns (dataUpdate 1 50000 400) (init 0)
     /\ newest (veVco2Val s') = Some 0
     /\ integratedCo s' = integratedCo (init 0)
     /\ integratedCoPts s' = integratedCoPts (init 0)
     /\ integratedCoTime s' = integratedCoTime (init 0)
     /\ s' = set_veVco2Val (deque_append 500 (veVco2Val (init 0)) 0) (init 0).
Proof.
  split; [easy | apply (C3_co2_at_or_below_trigger_untouched (init 0)); easy].
Defined.

(** C9, as the code has it.  A CO2 reading equal to the trigger is not
    integrated: the test is [n > self.coTrig], so the reading plots 0 and
    the cumulative integral, the point count and the recorded times stay
    as they were. *)
Theorem C9_reading_at_trigger_not_integrated (s : MainUI) (now : Z) (n : Q) :
  n == coTrig s ->
  let s' := after (dataUpdate 1 now n) s in
  returns (dataUpdate 1 now n) s
  /\ newest (veVco2Val s') = Some 0
  /\ integratedCo s' = integratedCo s
  /\ integratedCoPts s' = integratedCoPts s
  /\ integratedCoTime s' = integratedCoTime s.
Proof.
  intros Hn s'. subst s'. unfold after, returns.
  assert (Hle : n <= coTrig s) by (rewrite Hn; apply Qle_refl).
  rewrite dataUpdate_co2, (veVco2_below now n s Hle). slot.
  repeat split; try reflexivity.
  - now exists tt.
  - unfold newest. now rewrite deque_append_nonempty by lia.
Qed.

Lemma C9_witness :
  20000 == coTrig (init 0)
  /\ let s' := after (dataUpdate 1 50000 20000) (init 0) in
     returns (dataUpdate 1 50000 20000) (init 0)
     /\ newest (veVco2Val s') = Some 0
     /\ integratedCo s' = integratedCo (init 0)
     /\ integratedCoPts s' = integratedCoPts (init 0)
     /\ integratedCoTime s' = integratedCoTime (init 0).
Proof.
  split; [easy | apply (C9_reading_at_trigger_not_integrated (init 0)); easy].
Defined.

(** C9 as stated fails: on a new engine the trigger is 20000 ppm, and a
    reading of exactly 20000, 0.05 s after construction, neither increments
    the point count nor changes the integral. *)
Lemma C9_counterexample :
  let s := init 0 in
  let s' := after (dataUpdate 1 50000 20000) s in
  20000 == coTrig s
  /\ integratedCoPts s' <> (integratedCoPts s + 1)%Z
  /\ integratedCo s' == integratedCo s.
Proof.
  vm_compute. repeat split; discriminate.
Qed.

(** C4.  For a reading above the trigger, [dt] being the time elapsed
    since the newest recorded time (that of the previous integrated
    reading): when [dt] is outside [0.04, 0.06] the integral grows by
    [n/1e6 * 0.05], and otherwise by [n/1e6 * dt]; so an elapsed time of
    0.10 s adds what an elapsed time of 0.05 s adds. *)
Theorem C4_jitter_uses_nominal_interval
    (s : MainUI) (now : Z) (n : Q) (t0 : Z) :
  coTrig s < n -> newest (integratedCoTime s) = Some t0 ->
  let dt := total_seconds now t0 in
  let s' := after (veVco2 now n) s in
  (dt < 4 # 100 \/ 6 # 100 < dt ->
   integratedCo s' = integratedCo s + (n / 1000000) * (5 # 100))
  /\ (4 # 100 <= dt /\ dt <= 6 # 100 ->
      integratedCo s' = integratedCo s + (n / 1000000) * dt)
  /\ integratedCo (after (veVco2 (t0 + 100000) n) s)
     == integratedCo (after (veVco2 (t0 + 50000) n) s).
Proof.
  intros Hn Ht dt s'.
  destruct (veVco2_above_integration now n s t0 Hn Ht) as [Hco _].
  fold dt s' in Hco. split; [ | split].
  - intros Hout. rewrite Hco.
    assert (E : gt dt (6 # 100) || lt dt (4 # 100) = true).
    { apply orb_true_iff. destruct Hout as [H | H];
        [right; now apply lt_true | left; now apply gt_true]. }
    now rewrite E.
  - intros [Hlo Hhi]. rewrite Hco.
    assert (E : gt dt (6 # 100) || lt dt (4 # 100) = false).
    { apply orb_false_iff. split; [now apply gt_false | now apply lt_false]. }
    now rewrite E.
  - destruct (veVco2_above_integration (t0 + 100000) n s t0 Hn Ht) as [H1 _].
    destruct (veVco2_above_integration (t0 + 50000) n s t0 Hn Ht) as [H2 _].
    rewrite H1, H2. unfold total_seconds.
    replace (t0 + 100000 - t0)%Z with 100000%Z by lia.
    replace (t0 + 50000 - t0)%Z with 50000%Z by lia.
    change (gt (100000 # 1000000) (6 # 100)
            || lt (100000 # 1000000) (4 # 100)) with true.
    change (gt (50000 # 1000000) (6 # 100)
            || lt (50000 # 1000000) (4 # 100)) with false.
    cbv iota. setoid_replace (50000 # 1000000) with (5 # 100) by reflexivity.
    reflexivity.
Qed.

Lemma C4_witness :
  coTrig (init 0) < 50000
  /\ newest (integratedCoTime (init 0)) = Some 0%Z
  /\ let dt := total_seconds 45000 0 in
     let s' := after (veVco2 45000 50000) (init 0) in
     (dt < 4 # 100 \/ 6 # 100 < dt ->
      integratedCo s'
      = integratedCo (init 0) + (50000 / 1000000) * (5 # 100))
     /\ (4 # 100 <= dt /\ dt <= 6 # 100 ->
         integratedCo s' = integratedCo (init 0) + (50000 / 1000000) * dt)
     /\ integratedCo (after (veVco2 (0 + 100000) 50000) (init 0))
        == integratedCo (after (veVco2 (0 + 50000) 50000) (init 0)).
Proof.
  split; [reflexivity | split; [reflexivity | ]].
  apply (C4_jitter_uses_nominal_interval (init 0) 45000 50000 0);
    reflexivity.
Defined.

Lemma ve_over_vco2_zero (s : MainUI) :
  integratedCo s == 0 -> ve_over_vco2 s = Raise ZeroDivisionError.
Proof.
  intros H0. unfold ve_over_vco2, truediv.
  destruct (Qeq_bool (inject_Z (integratedCoPts s) * (5 # 100)) 0);
    [reflexivity | ].
  assert (E : integratedCo s / (inject_Z (integratedCoPts s) * (5 # 100)) == 0).
  { rewrite H0. unfold Qdiv. ring. }
  apply Qeq_bool_iff in E. now rewrite E.
Qed.

(** C5.  When a reading above the trigger leaves the cumulative integral at
    zero, evaluating the ratio raises [ZeroDivisionError]: the slot ends
    with that exception, and neither the plot deque nor the label receives
    a value, in particular not a zero. *)
Theorem C5_zero_integral_raises (s : MainUI) (now : Z) (n : Q) (t0 : Z) :
  coTrig s < n -> newest (integratedCoTime s) = Some t0 ->
  let s' := after (veVco2 now n) s in
  integratedCo s' == 0 ->
  snd (veVco2 now n s) = Raise ZeroDivisionError
  /\ ve_over_vco2 s' = Raise ZeroDivisionError
  /\ veVco2Val s' = veVco2Val s
  /\ tabAvg_label_veVc s' = tabAvg_label_veVc s.
Proof.
  intros Hn Ht s' H0. subst s'. unfold after in *.
  rewrite (veVco2_above now n s t0 Hn Ht) in *.
  match goal with
  | |- context [ve_over_vco2 ?s1] =>
      assert (E : ve_over_vco2 s1 = Raise ZeroDivisionError)
  end.
  { apply ve_over_vco2_zero.
    destruct (ve_over_vco2 _) as [r | e]; exact H0. }
  rewrite E. slot. rewrite E. repeat split; reflexivity.
Qed.

Lemma C5_witness :
  let s := after (setCoIntegPts (-1)) (init 0) in
  coTrig s < 0
  /\ newest (integratedCoTime s) = Some 0%Z
  /\ integratedCo (after (veVco2 50000 0) s) == 0
  /\ snd (veVco2 50000 0 s) = Raise ZeroDivisionError
  /\ ve_over_vco2 (after (veVco2 50000 0) s) = Raise ZeroDivisionError
  /\ veVco2Val (after (veVco2 50000 0) s) = veVco2Val s
  /\ tabAvg_label_veVc (after (veVco2 50000 0) s) = tabAvg_label_veVc s.
Proof.
  intros s.
  split; [reflexivity | split; [reflexivity | split; [reflexivity | ]]].
  apply (C5_zero_integral_raises s 50000 0 0); reflexivity.
Defined.

(** ** Runs *)

Lemma run_cons (e : Event) (es : list Event) (s : MainUI) :
  run (e :: es) s
  = match handle e s with
    | (s', Ok _) => run es s'
    | (s', Raise x) => (s', Raise x)
    end.
Proof. reflexivity. Qed.

Lemma run_app (es1 es2 : list Event) (s : MainUI) :
  run (es1 ++ es2) s
  = match run es1 s with
    | (s', Ok _) => run es2 s'
    | (s', Raise x) => (s', Raise x)
    end.
Proof.
  revert s. induction es1 as [ | e es1 IH]; intros s.
  - reflexivity.
  - simpl app. rewrite !run_cons.
    destruct (handle e s) as [s1 [[] | x]]; [apply IH | reflexivity].
Qed.

Ltac crunch :=
  repeat (slot;
          match goal with
          | |- context [if ?b then _ else _] => destruct b
          | |- context [match ?r with Ok _ => _ | Raise _ => _ end] =>
              destruct r
          end);
  slot.

(** What [veVco2] never writes. *)
Lemma veVco2_frame (now : Z) (n : Q) (s : MainUI) :
  let s' := after (veVco2 now n) s in
  floTrig s' = floTrig s /\ coTrig s' = coTrig s
  /\ maxCo2Val s' = maxCo2Val s
  /\ tabAvg_label_percPk s' = tabAvg_label_percPk s
  /\ volBreathsQ s' = volBreathsQ s /\ curVol s' = curVol s
  /\ volFlag s' = volFlag s
  /\ tabAvg_label_vol s' = tabAvg_label_vol s
  /\ tabCur_label_vol s' = tabCur_label_vol s
  /\ saveLog s' = saveLog s.
Proof.
  unfold after, veVco2. crunch; repeat split; reflexivity.
Qed.

(** What [volBreath] never writes. *)
Lemma volBreath_frame (now : Z) (n : Q) (s : MainUI) :
  let s' := after (volBreath now n) s in
  floTrig s' = floTrig s /\ coTrig s' = coTrig s
  /\ integratedCo s' = integratedCo s
  /\ integratedCoPts s' = integratedCoPts s
  /\ integratedCoTime s' = integratedCoTime s
  /\ veVco2Val s' = veVco2Val s
  /\ maxCo2Val s' = maxCo2Val s
  /\ tabAvg_label_veVc s' = tabAvg_label_veVc s
  /\ tabAvg_label_percPk s' = tabAvg_label_percPk s.
Proof.
  destruct (volFlag s) eqn:Hf;
    destruct (Qlt_le_dec n (floTrig s)) as [Hn | Hn]; unfold after.
  - rewrite (volBreath_close now n s Hf Hn). repeat split; reflexivity.
  - rewrite (volBreath_hold now n s Hf Hn). repeat split; reflexivity.
  - rewrite (volBreath_idle now n s Hf Hn). repeat split; reflexivity.
  - rewrite (volBreath_open now n s Hf Hn). repeat split; reflexivity.
Qed.

(** [volBreath] never raises. *)
Lemma volBreath_returns (now : Z) (n : Q) (s : MainUI) :
  snd (volBreath now n s) = Ok tt.
Proof.
  destruct (volFlag s) eqn:Hf;
    destruct (Qlt_le_dec n (floTrig s)) as [Hn | Hn].
  - now rewrite (volBreath_close now n s Hf Hn).
  - now rewrite (volBreath_hold now n s Hf Hn).
  - now rewrite (volBreath_idle now n s Hf Hn).
  - now rewrite (volBreath_open now n s Hf Hn).
Qed.

(** No reading of either channel writes the peak attribute or its label. *)
Lemma dataUpdate_keeps_peak (index now : Z) (n : Q) (s : MainUI) :
  maxCo2Val (after (dataUpdate index now n) s) = maxCo2Val s
  /\ tabAvg_label_percPk (after (dataUpdate index now n) s)
     = tabAvg_label_percPk s.
Proof.
  destruct (Z.eq_dec index 0) as [-> | H0].
  - unfold after. rewrite dataUpdate_flow.
    destruct (volBreath_frame now n s) as (_ & _ & _ & _ & _ & _ & H & _ & H').
    now split.
  - destruct (Z.eq_dec index 1) as [-> | H1].
    + unfold after. rewrite dataUpdate_co2.
      destruct (veVco2_frame now n s) as (_ & _ & H & H' & _).
      now split.
    + unfold after, dataUpdate. apply Z.eqb_neq in H0, H1.
      rewrite H0, H1. split; reflexivity.
Qed.

Lemma run_readings_keep_peak (index : Z) (rs : list (Z * Q)) (s : MainUI) :
  let s' := after (run (map (fun r => Reading index (fst r) (snd r)) rs)) s in
  maxCo2Val s' = maxCo2Val s
  /\ tabAvg_label_percPk s' = tabAvg_label_percPk s.
Proof.
  revert s. induction rs as [ | [t n] rs IH]; intros s; [now split | ].
  simpl map. cbv zeta. unfold after. rewrite run_cons. simpl handle.
  destruct (dataUpdate_keeps_peak index t n s) as [H1 H2].
  unfold after in H1, H2.
  destruct (dataUpdate index t n s) as [s1 [[] | x]]; simpl in *.
  - destruct (IH s1) as [H3 H4]. unfold after in H3, H4.
    rewrite H3, H4. now split.
  - now split.
Qed.

(** ** Peak CO2 *)

(** The peak attribute [maxCo2Val] is written by the constructor and by
    the reset only, both with 0: [co2Max] does nothing, so no CO2 reading
    changes it, whatever readings follow a reset or the construction. *)
Lemma peak_is_never_updated (s : MainUI) (rs : list (Z * Q)) (t : Z) :
  maxCo2Val (after (run (map co2 rs)) (after resetAvg s)) = 0
  /\ maxCo2Val (after (run (map co2 rs)) (init t)) = 0
  /\ (forall now n, maxCo2Val (after (dataUpdate 1 now n) s) = maxCo2Val s).
Proof.
  split; [ | split].
  - destruct (run_readings_keep_peak 1 rs (after resetAvg s)) as [H _].
    exact H.
  - destruct (run_readings_keep_peak 1 rs (init t)) as [H _]. exact H.
  - intros now n. apply dataUpdate_keeps_peak.
Qed.

(** C6 on the code.  New engine, reset, then CO2 readings of 30000 and
    25000 ppm: the maximum seen since the reset is 30000, and the tracked
    peak and its label are still the 0 written by the reset. *)
Theorem C6_peak_stays_zero :
  let s0 := after resetAvg (init 0) in
  let c := run (map co2 [(50000%Z, 30000); (100000%Z, 25000)]) in
  returns c s0
  /\ maxCo2Val (after c s0) = 0
  /\ tabAvg_label_percPk (after c s0) = 0
  /\ ~ maxCo2Val (after c s0) == 30000.
Proof.
  split; [now exists tt | ].
  split; [reflexivity | ].
  split; [reflexivity | vm_compute; discriminate].
Qed.

(** ** Breath segmentation *)

Lemma set_curVol_same (s : MainUI) : set_curVol (curVol s) s = s.
Proof. now destruct s. Qed.

(** While a breath is open, readings at or above the trigger are appended
    one by one. *)
Lemma run_hold (rs : list (Z * Q)) (s : MainUI) :
  volFlag s = true ->
  forallb (fun r => ge (snd r) (floTrig s)) rs = true ->
  run (map flow rs) s
  = (set_curVol
       (fold_left (deque_append 500)
          (map (fun r => contribution (snd r)) rs) (curVol s)) s, Ok tt).
Proof.
  revert s. induction rs as [ | [t n] rs IH]; intros s Hf Hall.
  - simpl. now rewrite set_curVol_same.
  - simpl in Hall. apply andb_true_iff in Hall as [Hn Hall].
    apply ge_true in Hn. simpl map. rewrite run_cons. simpl handle.
    rewrite dataUpdate_flow, (volBreath_hold t n s Hf Hn).
    rewrite IH by assumption. reflexivity.
Qed.

Lemma deque_extend_nonempty {A} (maxlen : nat) (x : A) (xs d : list A) :
  fold_left (deque_append maxlen) (x :: xs) d = lastn maxlen (d ++ x :: xs).
Proof.
  simpl. rewrite deque_append_lastn, deque_extend, <- app_assoc.
  reflexivity.
Qed.

(** One breath: from a state with no breath open, readings at or above the
    trigger and then one below it.  The closing reading finds the deque
    [curVol] holding the last 500 of: what it held before, the contribution
    of the opening reading, and the contributions of all readings,
    the opening one included. *)
Lemma run_breath (t1 : Z) (x1 : Q) (rs : list (Z * Q)) (t : Z) (y : Q)
    (s : MainUI) :
  volFlag s = false ->
  forallb (fun r => ge (snd r) (floTrig s)) ((t1, x1) :: rs) = true ->
  run (map flow ((t1, x1) :: rs) ++ [flow (t, y)]) s
  = volBreath t y
      (set_curVol
         (lastn 500
            (curVol s ++ contribution x1
               :: map (fun r => contribution (snd r)) ((t1, x1) :: rs)))
         (set_volFlag true s)).
Proof.
  intros Hf Hall. simpl in Hall. apply andb_true_iff in Hall as [Hn Hall].
  apply ge_true in Hn. rewrite run_app. simpl map. rewrite run_cons.
  simpl handle. rewrite dataUpdate_flow, (volBreath_open t1 x1 s Hf Hn).
  rewrite run_hold; [ | reflexivity | exact Hall]. slot.
  change (fold_left (deque_append 500)
            (map (fun r => contribution (snd r)) rs)
            (deque_append 500
               (deque_append 500 (curVol s) (contribution x1))
               (contribution x1)))
    with (fold_left (deque_append 500)
            (contribution x1 :: contribution x1
               :: map (fun r => contribution (snd r)) rs) (curVol s)).
  rewrite deque_extend_nonempty. rewrite run_cons. simpl handle.
  rewrite dataUpdate_flow.
  destruct (volBreath t y _) as [s' [[] | x]]; reflexivity.
Qed.

(** The row a breath writes, for any number of readings in it. *)
Lemma breath_row (t1 : Z) (x1 : Q) (rs : list (Z * Q)) (t : Z) (y : Q)
    (s : MainUI) :
  volFlag s = false ->
  forallb (fun r => ge (snd r) (floTrig s)) ((t1, x1) :: rs) = true ->
  y < floTrig s ->
  let c := run (map flow ((t1, x1) :: rs) ++ [flow (t, y)]) in
  let held :=
    lastn 500
      (curVol s ++ contribution x1
         :: map (fun r => contribution (snd r)) ((t1, x1) :: rs)) in
  snd (c s) = Ok tt
  /\ saveLog (after c s) = saveLog s ++ [VolRow t (sum held)]
  /\ volBreathsQ (after c s) = deque_append 100 (volBreathsQ s) (sum held)
  /\ curVol (after c s) = []
  /\ volFlag (after c s) = false
  /\ floTrig (after c s) = floTrig s.
Proof.
  intros Hf Hall Hy c held. subst c. unfold after.
  rewrite (run_breath t1 x1 rs t y s Hf Hall). fold held.
  rewrite volBreath_close; [ | reflexivity | exact Hy].
  repeat split; reflexivity.
Qed.

(** C10.  A breath of more than 500 readings at or above the trigger
    writes one row, and its volume is the sum of the contributions of the
    last 500 of those readings only: [curVol] is a deque of at most 500
    items, so what the earlier readings added has been discarded. *)
Theorem C10_long_breath_keeps_last_500
    (s : MainUI) (xs : list (Z * Q)) (t : Z) (y : Q) :
  volFlag s = false ->
  forallb (fun r => ge (snd r) (floTrig s)) xs = true ->
  (500 < length xs)%nat ->
  y < floTrig s ->
  let c := run (map flow xs ++ [flow (t, y)]) in
  returns c s
  /\ saveLog (after c s)
     = saveLog s
       ++ [VolRow t
             (sum (lastn 500 (map (fun r => contribution (snd r)) xs)))].
Proof.
  intros Hf Hall Hlen Hy c.
  destruct xs as [ | [t1 x1] rs]; [simpl in Hlen; lia | ].
  destruct (breath_row t1 x1 rs t y s Hf Hall Hy) as (Hok & Hlog & _).
  fold c in Hok, Hlog. split; [now exists tt | ].
  rewrite Hlog. do 3 f_equal.
  change (curVol s ++ contribution x1
            :: map (fun r => contribution (snd r)) ((t1, x1) :: rs))
    with (curVol s ++ [contribution x1]
            ++ map (fun r => contribution (snd r)) ((t1, x1) :: rs)).
  rewrite app_assoc. f_equal. apply lastn_app_r. rewrite length_map. lia.
Qed.

Lemma C10_witness :
  let xs := repeat (0%Z, 12) 501 in
  volFlag (init 0) = false
  /\ forallb (fun r => ge (snd r) (floTrig (init 0))) xs = true
  /\ (500 < length xs)%nat
  /\ 0 < floTrig (init 0)
  /\ let c := run (map flow xs ++ [flow (1%Z, 0)]) in
     returns c (init 0)
     /\ saveLog (after c (init 0))
        = saveLog (init 0)
          ++ [VolRow 1
                (sum (lastn 500 (map (fun r => contribution (snd r)) xs)))].
Proof.
  intros xs.
  split; [reflexivity | split; [reflexivity | split; [ | split]]].
  - vm_compute. lia.
  - reflexivity.
  - apply (C10_long_breath_keeps_last_500 (init 0) xs 1 0).
    + reflexivity.
    + reflexivity.
    + vm_compute. lia.
    + reflexivity.
Defined.

(** A breath that fits the deque: the volume written is what [curVol]
    held before, plus the contribution of the opening reading, plus the
    contribution of every reading at or above the trigger, the opening
    one included. *)
Lemma short_breath_volume (t1 : Z) (x1 : Q) (rs : list (Z * Q)) (t : Z)
    (y : Q) (s : MainUI) :
  volFlag s = false ->
  forallb (fun r => ge (snd r) (floTrig s)) ((t1, x1) :: rs) = true ->
  y < floTrig s ->
  (length (curVol s) + length rs + 2 <= 500)%nat ->
  exists v,
    saveLog (after (run (map flow ((t1, x1) :: rs) ++ [flow (t, y)])) s)
    = saveLog s ++ [VolRow t v]
    /\ v == sum (curVol s) + contribution x1
            + sum (map (fun r => contribution (snd r)) ((t1, x1) :: rs)).
Proof.
  intros Hf Hall Hy Hlen.
  destruct (breath_row t1 x1 rs t y s Hf Hall Hy) as (_ & Hlog & _).
  eexists. split; [exact Hlog | ].
  rewrite lastn_all.
  - change (curVol s ++ contribution x1
              :: map (fun r => contribution (snd r)) ((t1, x1) :: rs))
      with (curVol s ++ [contribution x1]
              ++ map (fun r => contribution (snd r)) ((t1, x1) :: rs)).
    rewrite !sum_app. rewrite (sum_cons (contribution x1) []), sum_nil. ring.
  - rewrite length_app. simpl. rewrite length_map. lia.
Qed.

(** While no breath is open, readings below the trigger change nothing. *)
Lemma run_idle (rs : list (Z * Q)) (s : MainUI) :
  volFlag s = false ->
  forallb (fun r => lt (snd r) (floTrig s)) rs = true ->
  run (map flow rs) s = (s, Ok tt).
Proof.
  intros Hf. induction rs as [ | [t n] rs IH]; intros Hall; [reflexivity | ].
  simpl in Hall. apply andb_true_iff in Hall as [Hn Hall].
  apply lt_true in Hn. simpl map. rewrite run_cons. simpl handle.
  rewrite dataUpdate_flow, (volBreath_idle t n s Hf Hn). now apply IH.
Qed.

(** Flow that crosses the trigger once upward and once downward: readings
    below it, readings at or above it, readings below it.  One row is
    written, by the first reading after the crossing down. *)
Lemma single_crossing (pre : list (Z * Q)) (t1 : Z) (x1 : Q)
    (rs : list (Z * Q)) (t : Z) (y : Q) (post : list (Z * Q)) (s : MainUI) :
  volFlag s = false ->
  forallb (fun r => lt (snd r) (floTrig s)) pre = true ->
  forallb (fun r => ge (snd r) (floTrig s)) ((t1, x1) :: rs) = true ->
  y < floTrig s ->
  forallb (fun r => lt (snd r) (floTrig s)) post = true ->
  let c :=
    run (map flow pre ++ map flow ((t1, x1) :: rs)
           ++ flow (t, y) :: map flow post) in
  let held :=
    lastn 500
      (curVol s ++ contribution x1
         :: map (fun r => contribution (snd r)) ((t1, x1) :: rs)) in
  snd (c s) = Ok tt
  /\ saveLog (after c s) = saveLog s ++ [VolRow t (sum held)].
Proof.
  intros Hf Hpre Hall Hy Hpost c held. subst c. unfold after.
  rewrite run_app, (run_idle pre s Hf Hpre).
  change (flow (t, y) :: map flow post)
    with ([flow (t, y)] ++ map flow post).
  rewrite app_assoc, run_app.
  destruct (breath_row t1 x1 rs t y s Hf Hall Hy)
    as (Hok & Hlog & _ & _ & Hf' & Htrig).
  fold held in Hlog. unfold after in Hlog, Hf', Htrig.
  destruct (run (map flow ((t1, x1) :: rs) ++ [flow (t, y)]) s)
    as [s2 [[] | x]]; simpl in Hok, Hlog, Hf', Htrig; [ | discriminate].
  rewrite run_idle; [now split | exact Hf' | now rewrite Htrig].
Qed.

(** C1 on the code.  New engine (trigger 10 SLPM); readings 0, 12, 0: the
    flow crosses the trigger once upward and once downward, and one reading
    is at or above it.  One row is written, and its volume is twice the
    contribution of that reading, not once. *)
Theorem C1_opening_reading_counted_twice :
  let c := run [flow (50000%Z, 0); flow (100000%Z, 12); flow (150000%Z, 0)] in
  returns c (init 0)
  /\ exists v,
       saveLog (after c (init 0)) = [VolRow 150000 v]
       /\ v == 2 * contribution 12
       /\ ~ v == contribution 12.
Proof.
  split; [now exists tt | ].
  eexists. split; [vm_compute; reflexivity | ].
  split; [reflexivity | discriminate].
Qed.

(** C7 on the code.  New engine; one reading of 12 SLPM opens a breath and
    the reset button is pressed.  The readings 12, 0 that follow close a
    breath of four contributions; on a new engine the same readings close
    a breath of two.  [resetAvg] clears [volFlag] and leaves [curVol]. *)
Theorem C7_reset_keeps_open_breath_buffer :
  let S := [flow (100000%Z, 12); flow (150000%Z, 0)] in
  let used := after (run [flow (50000%Z, 12); ResetPressed]) (init 0) in
  volFlag used = false
  /\ curVol used = [0; contribution 12; contribution 12]
  /\ exists v w,
       breaths_since used (after (run S) used) = [v]
       /\ breaths_since (init 0) (after (run S) (init 0)) = [w]
       /\ v == 4 * contribution 12
       /\ w == 2 * contribution 12
       /\ ~ v == w
       /\ ~ tabAvg_label_vol (after (run S) used)
            == tabAvg_label_vol (after (run S) (init 0)).
Proof.
  split; [reflexivity | split; [vm_compute; reflexivity | ]].
  do 2 eexists.
  split; [vm_compute; reflexivity | ].
  split; [vm_compute; reflexivity | ].
  repeat split; try reflexivity; vm_compute; discriminate.
Qed.

(** ** Session average of the breath volumes *)

Lemma tracks_none (s s' : MainUI) :
  saveLog s' = saveLog s -> volBreathsQ s' = volBreathsQ s ->
  tabAvg_label_vol s' = tabAvg_label_vol s -> tracks s s' [].
Proof. intros HL HQ HA. unfold tracks. now rewrite app_nil_r. Qed.

Lemma tracks_refl (s : MainUI) : tracks s s [].
Proof. now apply tracks_none. Qed.

Lemma tracks_trans (s s1 s' : MainUI) (R1 R2 : list Row) :
  tracks s s1 R1 -> tracks s1 s' R2 -> tracks s s' (R1 ++ R2).
Proof.
  intros [L1 H1] [L2 H2]. split.
  - now rewrite L2, L1, app_assoc.
  - destruct R1 as [ | r1 R1]; destruct R2 as [ | r2 R2].
    + destruct H1 as [Q1 A1], H2 as [Q2 A2]. simpl.
      split; congruence.
    + destruct H1 as [Q1 A1], H2 as [Q2 A2]. simpl app.
      split; [now rewrite Q2, Q1 | exact A2].
    + destruct H1 as [Q1 A1], H2 as [Q2 A2]. rewrite app_nil_r.
      split; [now rewrite Q2 | now rewrite A2, Q2].
    + destruct H1 as [Q1 A1], H2 as [Q2 A2]. simpl app.
      split; [ | exact A2].
      rewrite Q2, Q1, lastn_lastn_app, <- app_assoc.
      change (r1 :: R1 ++ r2 :: R2) with ((r1 :: R1) ++ r2 :: R2).
      now rewrite map_app.
Qed.

(** One reading writes no row, or one row whose volume enters the history
    and the average. *)
Lemma dataUpdate_tracks (index now : Z) (n : Q) (s : MainUI) :
  exists R, tracks s (after (dataUpdate index now n) s) R.
Proof.
  destruct (Z.eq_dec index 0) as [-> | H0].
  - unfold after. rewrite dataUpdate_flow.
    destruct (volFlag s) eqn:Hf;
      destruct (Qlt_le_dec n (floTrig s)) as [Hn | Hn].
    + rewrite (volBreath_close now n s Hf Hn).
      exists [VolRow now (sum (curVol s))]. split; [reflexivity | ].
      split; reflexivity.
    + rewrite (volBreath_hold now n s Hf Hn). exists [].
      now apply tracks_none.
    + rewrite (volBreath_idle now n s Hf Hn). exists []. apply tracks_refl.
    + rewrite (volBreath_open now n s Hf Hn). exists [].
      now apply tracks_none.
  - exists []. destruct (Z.eq_dec index 1) as [-> | H1].
    + unfold after. rewrite dataUpdate_co2.
      destruct (veVco2_frame now n s)
        as (_ & _ & _ & _ & HQ & _ & _ & HA & _ & HL).
      now apply tracks_none.
    + unfold after, dataUpdate. apply Z.eqb_neq in H0, H1.
      rewrite H0, H1. apply tracks_refl.
Qed.

Lemma run_tracks (es : list Event) (s : MainUI) :
  forallb is_reading es = true ->
  exists R, tracks s (after (run es) s) R.
Proof.
  revert s. induction es as [ | e es IH]; intros s Hall.
  - exists []. apply tracks_refl.
  - simpl in Hall. apply andb_true_iff in Hall as [He Hall].
    destruct e as [index now n | ]; [ | discriminate].
    destruct (dataUpdate_tracks index now n s) as [R1 T1].
    unfold after in *. rewrite run_cons. simpl handle.
    destruct (dataUpdate index now n s) as [s1 [[] | x]]; simpl in T1.
    + destruct (IH s1 Hall) as [R2 T2].
      exists (R1 ++ R2). now apply tracks_trans with s1.
    + exists R1. exact T1.
Qed.

Lemma tracks_breaths_since (s s' : MainUI) (R : list Row) :
  tracks s s' R -> breaths_since s s' = map row_volume R.
Proof.
  intros [L _]. unfold breaths_since. rewrite L, skipn_app.
  rewrite skipn_all, Nat.sub_diag. reflexivity.
Qed.

(** From a state whose history of breath volumes is empty and whose
    average label shows 0, as the constructor and the reset leave them. *)
Lemma average_from_empty_history (s0 : MainUI) (es : list Event) :
  volBreathsQ s0 = [] -> tabAvg_label_vol s0 = 0 ->
  forallb is_reading es = true ->
  let s' := after (run es) s0 in
  let vols := breaths_since s0 s' in
  let n := length vols in
  let kept := lastn (Nat.min n 100) vols in
  volBreathsQ s' = kept
  /\ (n = 0%nat -> tabAvg_label_vol s' = 0)
  /\ ((1 <= n)%nat ->
      tabAvg_label_vol s'
      = sum kept / inject_Z (Z.of_nat (Nat.min n 100))).
Proof.
  intros HQ0 HA0 Hall s' vols n kept.
  destruct (run_tracks es s0 Hall) as [R T]. fold s' in T.
  assert (Hv : vols = map row_volume R) by now apply tracks_breaths_since.
  assert (Hk : kept = lastn 100 vols) by apply lastn_min.
  destruct T as [_ T]. destruct R as [ | r R].
  - destruct T as [HQ HA]. simpl in Hv.
    assert (Hn : n = 0%nat) by (subst n; now rewrite Hv).
    split; [ | split].
    + rewrite HQ, HQ0, Hk, Hv. reflexivity.
    + intros _. now rewrite HA.
    + lia.
  - destruct T as [HQ HA]. rewrite <- Hv, HQ0 in HQ.
    rewrite app_nil_l, <- Hk in HQ.
    split; [exact HQ | split].
    + intros Hn. subst n. rewrite Hv in Hn. discriminate.
    + intros _. rewrite HA, HQ. unfold mean, len. do 3 f_equal.
      rewrite Hk, lastn_length. subst n. lia.
Qed.

Lemma average_on_new_engine (t : Z) (es : list Event) :
  forallb is_reading es = true ->
  let s' := after (run es) (init t) in
  let vols := breaths_since (init t) s' in
  let n := length vols in
  let kept := lastn (Nat.min n 100) vols in
  volBreathsQ s' = kept
  /\ (n = 0%nat -> tabAvg_label_vol s' = 0)
  /\ ((1 <= n)%nat ->
      tabAvg_label_vol s'
      = sum kept / inject_Z (Z.of_nat (Nat.min n 100))).
Proof. now apply average_from_empty_history. Qed.

(** *** CO2 readings leave the breath side alone *)

(** [volBreath] reads and writes the breath attributes only. *)
Lemma volBreath_breath_part (now : Z) (n : Q) (s s2 : MainUI) :
  breath_part s = breath_part s2 ->
  breath_part (after (volBreath now n) s)
  = breath_part (after (volBreath now n) s2).
Proof.
  unfold breath_part. intros [= E1 E2 E3 E4 E5 E6 E7].
  destruct (volFlag s) eqn:Hf;
    destruct (Qlt_le_dec n (floTrig s)) as [Hn | Hn]; unfold after.
  - rewrite (volBreath_close now n s Hf Hn).
    rewrite (volBreath_close now n s2) by (now rewrite <- ?E1, <- ?E2).
    slot. congruence.
  - rewrite (volBreath_hold now n s Hf Hn).
    rewrite (volBreath_hold now n s2) by (now rewrite <- ?E1, <- ?E2).
    slot. congruence.
  - rewrite (volBreath_idle now n s Hf Hn).
    rewrite (volBreath_idle now n s2) by (now rewrite <- ?E1, <- ?E2).
    slot. congruence.
  - rewrite (volBreath_open now n s Hf Hn).
    rewrite (volBreath_open now n s2) by (now rewrite <- ?E1, <- ?E2).
    slot. congruence.
Qed.

(** The breath side after a run is what its flow readings alone produce. *)
Lemma breath_rows_ignore_co2_gen (es : list Event) :
  forall s s2 : MainUI,
    breath_part s = breath_part s2 ->
    forallb is_reading es = true ->
    snd (run es s) = Ok tt ->
    breath_part (after (run es) s)
    = breath_part (after (run (filter is_flow es)) s2).
Proof.
  induction es as [ | e es IH]; intros s s2 Hpart Hall Hret.
  - exact Hpart.
  - simpl in Hall. apply andb_true_iff in Hall as [He Hall].
    destruct e as [index now n | ]; [ | discriminate].
    unfold after in *. rewrite run_cons in *. simpl handle in *.
    simpl filter. destruct (Z.eq_dec index 0) as [-> | H0].
    + rewrite Z.eqb_refl, run_cons. simpl handle.
      rewrite (dataUpdate_flow now n s) in *.
      rewrite (dataUpdate_flow now n s2).
      pose proof (volBreath_breath_part now n s s2 Hpart) as Hstep.
      pose proof (volBreath_returns now n s) as Hok.
      pose proof (volBreath_returns now n s2) as Hok2.
      unfold after in Hstep.
      destruct (volBreath now n s) as [s1 [[] | x]]; [ | discriminate].
      destruct (volBreath now n s2) as [s3 [[] | x]]; [ | discriminate].
      simpl in Hstep. cbv beta iota. now apply IH.
    + apply Z.eqb_neq in H0. rewrite H0.
      assert (Hstep : breath_part (fst (dataUpdate index now n s))
                      = breath_part s).
      { destruct (Z.eq_dec index 1) as [-> | H1].
        - rewrite dataUpdate_co2.
          destruct (veVco2_frame now n s)
            as (F1 & _ & _ & _ & F2 & F3 & F4 & F5 & F6 & F7).
          unfold after in *. unfold breath_part.
          now rewrite F1, F2, F3, F4, F5, F6, F7.
        - unfold dataUpdate. apply Z.eqb_neq in H1.
          rewrite H0, H1. reflexivity. }
      destruct (dataUpdate index now n s) as [s1 [[] | x]];
        simpl in Hstep; [ | discriminate].
      apply IH; [now rewrite Hstep | exact Hall | exact Hret].
Qed.

(** The flow readings of a run are its events of index 0. *)
Lemma filter_is_flow (es : list Event) :
  filter is_flow es = map flow (flow_readings es).
Proof.
  induction es as [ | [index now n | ] es IH]; [reflexivity | | exact IH].
  simpl. destruct (index =? 0)%Z eqn:E.
  - apply Z.eqb_eq in E. subst index. simpl. now rewrite IH.
  - exact IH.
Qed.

Lemma breath_volumes_nil (bs : list (list Q)) :
  breath_volumes [] bs = map (breath_volume []) bs.
Proof. now destruct bs. Qed.

Lemma held_snoc (before : list Q) (x1 : Q) (xs : list Q) (n : Q) :
  deque_append 500 (held before (x1 :: xs)) (contribution n)
  = held before ((x1 :: xs) ++ [n]).
Proof.
  unfold held. simpl app. rewrite deque_append_lastn, lastn_lastn_app.
  f_equal. rewrite <- app_assoc. f_equal. simpl. f_equal. f_equal.
  now rewrite map_app.
Qed.

Lemma held_open (before : list Q) (n : Q) :
  deque_append 500 (deque_append 500 before (contribution n))
    (contribution n)
  = held before [n].
Proof.
  unfold held. rewrite !deque_append_lastn, lastn_lastn_app.
  now rewrite <- app_assoc.
Qed.

(** Flow readings, from a state in which the run [cur] is in progress
    ([cur] empty: no breath is open): the rows written are those of the
    breaths the readings close, in order, each with its volume. *)
Lemma run_breaths (rs : list (Z * Q)) :
  forall (s : MainUI) (before cur : list Q),
    volFlag s = match cur with [] => false | _ :: _ => true end ->
    curVol s = held before cur ->
    exists R,
      snd (run (map flow rs) s) = Ok tt
      /\ saveLog (after (run (map flow rs)) s) = saveLog s ++ R
      /\ map row_volume R
         = breath_volumes before
             (breaths_in (floTrig s) cur (map snd rs)).
Proof.
  induction rs as [ | [t n] rs IH]; intros s before cur Hf Hc.
  - exists []. unfold after. simpl. now rewrite app_nil_r.
  - unfold after. simpl map. rewrite run_cons. simpl handle.
    rewrite dataUpdate_flow. cbn [breaths_in].
    destruct cur as [ | x1 xs];
      destruct (Qlt_le_dec n (floTrig s)) as [Hn | Hn].
    + rewrite (volBreath_idle t n s Hf Hn).
      rewrite (proj2 (ge_false _ _) Hn).
      exact (IH s before [] Hf Hc).
    + rewrite (volBreath_open t n s Hf Hn).
      rewrite (proj2 (ge_true _ _) Hn). rewrite Hc.
      change (held before []) with before. rewrite held_open.
      destruct (IH (set_curVol (held before [n]) (set_volFlag true s))
                  before [n]) as (R & Hret & Hlog & Hrows);
        [reflexivity | reflexivity | ].
      exists R. split; [exact Hret | ]. split; [exact Hlog | exact Hrows].
    + rewrite (volBreath_close t n s Hf Hn).
      rewrite (proj2 (ge_false _ _) Hn).
      match goal with
      | |- context [run (map flow rs) ?s1] =>
          destruct (IH s1 [] []) as (R & Hret & Hlog & Hrows);
            [reflexivity | reflexivity | ]
      end.
      exists (VolRow t (sum (curVol s)) :: R).
      split; [exact Hret | ]. unfold after in Hlog. cbv beta iota.
      split.
      * rewrite Hlog. slot. now rewrite <- app_assoc.
      * simpl map. rewrite Hrows. slot. rewrite breath_volumes_nil, Hc.
        reflexivity.
    + rewrite (volBreath_hold t n s Hf Hn).
      rewrite (proj2 (ge_true _ _) Hn). rewrite Hc, held_snoc.
      destruct (IH (set_curVol (held before ((x1 :: xs) ++ [n])) s)
                  before ((x1 :: xs) ++ [n]))
        as (R & Hret & Hlog & Hrows); [exact Hf | reflexivity | ].
      exists R. split; [exact Hret | ]. split; [exact Hlog | exact Hrows].
Qed.

(** C8.  After a reset and any readings of the two channels that raise
    nothing, the breaths being those the flow readings close (each a
    maximal run at or above the trigger, ended by a reading below it) and
    [n] their number: a row was written for each with its volume, the
    history [volBreathsQ] holds the volumes of the last [min n 100] of
    them, oldest first; the label of the average shows their arithmetic
    mean when [n >= 1], and the 0 that the reset wrote when [n = 0] (no
    division takes place then). *)
Theorem C8_average_is_mean_of_breath_volumes (s : MainUI) (es : list Event) :
  forallb is_reading es = true ->
  let s0 := after resetAvg s in
  returns (run es) s0 ->
  let s' := after (run es) s0 in
  let vols :=
    breath_volumes (curVol s)
      (breaths_in (floTrig s) [] (map snd (flow_readings es))) in
  let n := length vols in
  let kept := lastn (Nat.min n 100) vols in
  breaths_since s0 s' = vols
  /\ volBreathsQ s' = kept
  /\ (n = 0%nat -> tabAvg_label_vol s' = 0)
  /\ ((1 <= n)%nat ->
      tabAvg_label_vol s'
      = sum kept / inject_Z (Z.of_nat (Nat.min n 100))).
Proof.
  intros Hall s0 [[] Hret] s' vols n kept.
  assert (Hv : breaths_since s0 s' = vols).
  { pose proof (breath_rows_ignore_co2_gen es s0 s0 eq_refl Hall Hret) as E.
    rewrite filter_is_flow in E. unfold breath_part in E.
    injection E as _ _ _ _ _ _ E.
    destruct (run_breaths (flow_readings es) s0 (curVol s) [])
      as (R & _ & Hlog & Hrows); [reflexivity | reflexivity | ].
    unfold breaths_since. fold s' in E. rewrite E, Hlog.
    rewrite skipn_app, skipn_all, Nat.sub_diag. exact Hrows. }
  split; [exact Hv | ]. subst n kept. rewrite <- Hv.
  apply average_from_empty_history; [reflexivity | reflexivity | exact Hall].
Qed.

Lemma C8_witness :
  let es := [flow (50000%Z, 12); co2 (60000%Z, 30000); flow (100000%Z, 0);
             flow (150000%Z, 24); flow (200000%Z, 0)] in
  let s0 := after resetAvg (init 0) in
  let s' := after (run es) s0 in
  forallb is_reading es = true
  /\ returns (run es) s0
  /\ breaths_in (floTrig (init 0)) [] (map snd (flow_readings es))
     = [[12]; [24]]
  /\ breaths_since s0 s' = [0 + 0 + 12 * (5 / 6000) + 12 * (5 / 6000);
                            0 + 24 * (5 / 6000) + 24 * (5 / 6000)]
  /\ volBreathsQ s' = breaths_since s0 s'
  /\ tabAvg_label_vol s' == 3 # 100
  /\ let vols :=
       breath_volumes (curVol (init 0))
         (breaths_in (floTrig (init 0)) [] (map snd (flow_readings es))) in
     let n := length vols in
     let kept := lastn (Nat.min n 100) vols in
     breaths_since s0 s' = vols
     /\ volBreathsQ s' = kept
     /\ (n = 0%nat -> tabAvg_label_vol s' = 0)
     /\ ((1 <= n)%nat ->
         tabAvg_label_vol s'
         = sum kept / inject_Z (Z.of_nat (Nat.min n 100))).
Proof.
  intros es s0 s'.
  split; [reflexivity | ].
  split; [now exists tt | ].
  split; [reflexivity | ].
  split; [reflexivity | ].
  split; [reflexivity | ].
  split; [reflexivity | ].
  apply (C8_average_is_mean_of_breath_volumes (init 0) es);
    [reflexivity | now exists tt].
Defined.

(** ** CO2 integration: constant readings *)

Lemma nominal_or_out_of_band (now t0 : Z) :
  (now - t0 = 50000 \/ now - t0 < 40000 \/ 60000 < now - t0)%Z ->
  let dt := total_seconds now t0 in
  gt dt (6 # 100) || lt dt (4 # 100) = true \/ dt == 5 # 100.
Proof.
  intros H dt. subst dt. unfold total_seconds.
  destruct H as [H | [H | H]].
  - right. rewrite H. reflexivity.
  - left. apply orb_true_iff. right. apply lt_true.
    unfold Qlt. simpl. lia.
  - left. apply orb_true_iff. left. apply gt_true.
    unfold Qlt. simpl. lia.
Qed.

(** One more reading of the constant value [V], its elapsed time being
    0.05 s or out of band, when [k] such readings have been integrated. *)
Lemma veVco2_constant_step (s : MainUI) (now t0 : Z) (V : Q) (k : Z) :
  coTrig s < V -> ~ V == 0 ->
  newest (integratedCoTime s) = Some t0 ->
  (now - t0 = 50000 \/ now - t0 < 40000 \/ 60000 < now - t0)%Z ->
  (0 <= k)%Z -> integratedCoPts s = k ->
  integratedCo s == inject_Z k * (V / 1000000 * (5 # 100)) ->
  exists s' r,
    veVco2 now V s = (s', Ok tt)
    /\ r == 1000000 / V
    /\ newest (veVco2Val s') = Some r
    /\ tabAvg_label_veVc s' = r
    /\ coTrig s' = coTrig s
    /\ newest (integratedCoTime s') = Some now
    /\ integratedCoPts s' = (k + 1)%Z
    /\ integratedCo s' == inject_Z (k + 1) * (V / 1000000 * (5 # 100)).
Proof.
  intros HV HV0 Ht Hel Hk Hpts Hco.
  rewrite (veVco2_above now V s t0 HV Ht).
  set (dt := total_seconds now t0).
  set (co := if gt dt (6 # 100) || lt dt (4 # 100)
             then integratedCo s + V / 1000000 * (5 # 100)
             else integratedCo s + V / 1000000 * dt).
  assert (Hco' : co == inject_Z (k + 1) * (V / 1000000 * (5 # 100))).
  { rewrite inject_Z_plus. subst co.
    destruct (nominal_or_out_of_band now t0 Hel) as [E | E]; fold dt in E.
    - rewrite E, Hco. ring.
    - destruct (gt dt (6 # 100) || lt dt (4 # 100)); rewrite ?E, Hco; ring. }
  assert (HK : ~ inject_Z (k + 1) == 0).
  { unfold Qeq. simpl. lia. }
  assert (Hden : ~ inject_Z (k + 1) * (5 # 100) == 0).
  { intros E. apply HK.
    setoid_replace (inject_Z (k + 1))
      with (inject_Z (k + 1) * (5 # 100) * 20) by ring.
    rewrite E. ring. }
  assert (Hq : co / (inject_Z (k + 1) * (5 # 100)) == V / 1000000).
  { rewrite Hco'. field. exact HK. }
  assert (Hq0 : ~ co / (inject_Z (k + 1) * (5 # 100)) == 0).
  { rewrite Hq. intros E. apply HV0.
    setoid_replace V with (V / 1000000 * 1000000) by field.
    rewrite E. ring. }
  unfold ve_over_vco2. slot. rewrite Hpts.
  rewrite (truediv_ok _ _ Hden), (truediv_ok _ _ Hq0).
  eexists. exists (1 / (co / (inject_Z (k + 1) * (5 # 100)))).
  split; [reflexivity | ]. slot.
  split; [rewrite Hq; now field | ].
  split; [unfold newest; now rewrite deque_append_nonempty by lia | ].
  split; [reflexivity | ].
  split; [reflexivity | ].
  split; [unfold newest; now rewrite deque_append_nonempty by lia | ].
  split; [reflexivity | exact Hco'].
Qed.

Lemma run_constant_co2 (V : Q) (N : nat) :
  forall (s : MainUI) (t t0 : Z) (k : Z),
    coTrig s < V -> ~ V == 0 ->
    newest (integratedCoTime s) = Some t0 ->
    (t - t0 = 50000 \/ t - t0 < 40000 \/ 60000 < t - t0)%Z ->
    (0 <= k)%Z -> integratedCoPts s = k ->
    integratedCo s == inject_Z k * (V / 1000000 * (5 # 100)) ->
    exists s' r,
      run (constant_co2 t V (S N)) s = (s', Ok tt)
      /\ r == 1000000 / V
      /\ newest (veVco2Val s') = Some r
      /\ tabAvg_label_veVc s' = r.
Proof.
  induction N as [ | N IH]; intros s t t0 k HV HV0 Ht Hel Hk Hpts Hco.
  - destruct (veVco2_constant_step s t t0 V k HV HV0 Ht Hel Hk Hpts Hco)
      as (s' & r & Hrun & Hr & Hplot & Hlab & _).
    exists s', r. unfold constant_co2. simpl map. rewrite run_cons.
    simpl handle. rewrite dataUpdate_co2, Hrun. auto.
  - destruct (veVco2_constant_step s t t0 V k HV HV0 Ht Hel Hk Hpts Hco)
      as (s1 & r1 & Hrun & _ & _ & _ & Htrig & Ht1 & Hpts1 & Hco1).
    destruct (IH s1 (t + 50000)%Z t (k + 1)%Z) as (s' & r & Hrest & Hr);
      try assumption; try lia.
    { now rewrite Htrig. }
    exists s', r. split; [ | exact Hr].
    change (constant_co2 t V (S (S N)))
      with (co2 (t, V) :: constant_co2 (t + 50000) V (S N)).
    rewrite run_cons. simpl handle. rewrite dataUpdate_co2, Hrun.
    exact Hrest.
Qed.

(** The closed form, in exact arithmetic: were no operation of [veVco2]
    rounded, the ratio after [N] readings of a constant non-zero [V],
    each integrated with the nominal interval, would be
    [1 / ((V/1e6 * 0.05 * N) / (N * 0.05))], which is [1e6 / V]. *)
Lemma constant_co2_ratio_in_exact_arithmetic
    (s : MainUI) (V : Q) (N : nat) (t0 t1 : Z) :
  integratedCo s == 0 -> integratedCoPts s = 0%Z ->
  newest (integratedCoTime s) = Some t0 ->
  (t1 - t0 = 50000 \/ t1 - t0 < 40000 \/ 60000 < t1 - t0)%Z ->
  coTrig s < V -> ~ V == 0 -> (1 <= N)%nat ->
  let c := run (constant_co2 t1 V N) in
  let count := inject_Z (Z.of_nat N) in
  returns c s
  /\ exists r,
       newest (veVco2Val (after c s)) = Some r
       /\ tabAvg_label_veVc (after c s) = r
       /\ r == 1 / ((V / 1000000 * (5 # 100) * count) / (count * (5 # 100)))
       /\ r == 1000000 / V.
Proof.
  intros Hco Hpts Ht Hel HV HV0 HN c count.
  destruct N as [ | N]; [lia | ].
  destruct (run_constant_co2 V N s t1 t0 0%Z)
    as (s' & r & Hrun & Hr & Hplot & Hlab); try assumption; try lia.
  { rewrite Hco. ring. }
  subst c. unfold returns, after. rewrite Hrun. simpl fst. simpl snd.
  split; [now exists tt | ].
  exists r. repeat split; try assumption.
  rewrite Hr. field. split; [ | assumption].
  subst count. unfold Qeq. simpl. lia.
Qed.

(** *** The integration as the interpreter computes it *)

Lemma fold_Qplus_compat (l : list Q) (a b : Q) :
  a == b -> fold_left Qplus l a == fold_left Qplus l b.
Proof. intros E. now rewrite (sum_from l a), (sum_from l b), E. Qed.

(** One reading above the trigger, integrated with the nominal interval
    into an integral that is not negative. *)
Lemma veVco2_nominal_integration (s : MainUI) (now t0 : Z) (n : Q) :
  coTrig s < n -> 0 < n ->
  0 <= integratedCo s -> (0 <= integratedCoPts s)%Z ->
  newest (integratedCoTime s) = Some t0 ->
  (now - t0 = 50000 \/ now - t0 < 40000 \/ 60000 < now - t0)%Z ->
  exists s',
    veVco2 now n s = (s', Ok tt)
    /\ coTrig s' = coTrig s
    /\ newest (integratedCoTime s') = Some now
    /\ integratedCoPts s' = (integratedCoPts s + 1)%Z
    /\ integratedCo s' == integratedCo s + nominal_contribution n
    /\ newest (veVco2Val s') = Some (ratio_of s')
    /\ tabAvg_label_veVc s' = ratio_of s'.
Proof.
  intros Hn Hn0 Hco Hpts Ht Hel.
  rewrite (veVco2_above now n s t0 Hn Ht).
  set (dt := total_seconds now t0).
  set (co := if gt dt (6 # 100) || lt dt (4 # 100)
             then integratedCo s + n / 1000000 * (5 # 100)
             else integratedCo s + n / 1000000 * dt).
  assert (Hco' : co == integratedCo s + nominal_contribution n).
  { subst co. unfold nominal_contribution.
    destruct (nominal_or_out_of_band now t0 Hel) as [E | E]; fold dt in E.
    - now rewrite E.
    - destruct (gt dt (6 # 100) || lt dt (4 # 100)); now rewrite ?E. }
  assert (Hc : 0 < nominal_contribution n).
  { unfold nominal_contribution, Qdiv.
    repeat apply Qmult_lt_0_compat; (exact Hn0 || reflexivity). }
  assert (Hpos : 0 < co) by lra.
  set (k := (integratedCoPts s + 1)%Z).
  assert (HK : 0 < inject_Z k * (5 # 100)).
  { apply Qmult_lt_0_compat; [ | reflexivity].
    unfold Qlt. simpl. lia. }
  assert (Hden : ~ inject_Z k * (5 # 100) == 0) by lra.
  assert (Hq0 : ~ co / (inject_Z k * (5 # 100)) == 0).
  { assert (0 < co / (inject_Z k * (5 # 100))); [ | lra].
    unfold Qdiv. apply Qmult_lt_0_compat; [exact Hpos | ].
    now apply Qinv_lt_0_compat. }
  unfold ve_over_vco2. slot. fold k.
  rewrite (truediv_ok _ _ Hden), (truediv_ok _ _ Hq0).
  eexists. split; [reflexivity | ]. unfold ratio_of. slot.
  split; [reflexivity | ].
  split; [unfold newest; now rewrite deque_append_nonempty by lia | ].
  split; [reflexivity | ].
  split; [exact Hco' | ].
  split; [unfold newest; now rewrite deque_append_nonempty by lia | ].
  reflexivity.
Qed.

(** Readings of at least 1 ppm above the trigger, each integrated with
    the nominal interval: nothing raises, every reading is counted, the
    integral grows by the contributions in arrival order, and the value
    plotted and shown last is the ratio of the state reached. *)
Lemma run_nominal_integration (rs : list (Z * Q)) :
  forall (s : MainUI) (t0 : Z),
    forallb (fun r => gt (snd r) (coTrig s)) rs = true ->
    forallb (fun r => Qle_bool 1 (snd r)) rs = true ->
    nominal_spacing t0 rs = true ->
    0 <= integratedCo s -> (0 <= integratedCoPts s)%Z ->
    newest (integratedCoTime s) = Some t0 ->
    exists s',
      run (map co2 rs) s = (s', Ok tt)
      /\ integratedCoPts s' = (integratedCoPts s + Z.of_nat (length rs))%Z
      /\ integratedCo s'
         == fold_left Qplus
              (map (fun r => nominal_contribution (snd r)) rs)
              (integratedCo s)
      /\ ((1 <= length rs)%nat ->
          newest (veVco2Val s') = Some (ratio_of s')
          /\ tabAvg_label_veVc s' = ratio_of s').
Proof.
  induction rs as [ | [t n] rs IH]; intros s t0 Hall Hone Hsp Hco Hpts Ht.
  - exists s. split; [reflexivity | ]. split; [simpl; lia | ].
    split; [reflexivity | simpl; lia].
  - simpl in Hall, Hone, Hsp.
    apply andb_true_iff in Hall as [Hn Hall].
    apply andb_true_iff in Hone as [H1 Hone].
    apply andb_true_iff in Hsp as [Hel Hsp].
    apply gt_true in Hn. apply Qle_bool_iff in H1.
    assert (Hn0 : 0 < n) by lra.
    assert (Hel' : (t - t0 = 50000 \/ t - t0 < 40000 \/ 60000 < t - t0)%Z).
    { apply orb_true_iff in Hel as [Hel | Hel];
        [apply orb_true_iff in Hel as [Hel | Hel] | ].
      - left. now apply Z.eqb_eq.
      - right. left. now apply Z.ltb_lt.
      - right. right. now apply Z.ltb_lt. }
    destruct (veVco2_nominal_integration s t t0 n Hn Hn0 Hco Hpts Ht Hel')
      as (s1 & Hrun & Htrig1 & Ht1 & Hpts1 & Hco1 & Hplot & Hlab).
    assert (Hc : 0 < nominal_contribution n).
    { unfold nominal_contribution, Qdiv.
      repeat apply Qmult_lt_0_compat; (exact Hn0 || reflexivity). }
    destruct (IH s1 t) as (s' & Hrest & Hp & Hi & Hr);
      [now rewrite Htrig1 | exact Hone | exact Hsp | lra | lia | exact Ht1 | ].
    exists s'. simpl map. rewrite run_cons. simpl handle.
    rewrite dataUpdate_co2, Hrun.
    split; [exact Hrest | ].
    split; [rewrite Hp, Hpts1; cbn [length]; lia | ].
    split.
    + cbn [fold_left]. rewrite Hi. now apply fold_Qplus_compat.
    + intros _. destruct rs as [ | p rs'].
      * simpl in Hrest. injection Hrest as <-. now split.
      * apply Hr. simpl. lia.
Qed.

Lemma constant_co2_readings (t : Z) (V : Q) (N : nat) :
  constant_co2 t V N = map co2 (constant_readings t V N).
Proof.
  unfold constant_co2, constant_readings. now rewrite map_map.
Qed.

Lemma constant_readings_spacing (V : Q) (N : nat) :
  forall t0 t1 : Z,
    (t1 - t0 = 50000 \/ t1 - t0 < 40000 \/ 60000 < t1 - t0)%Z ->
    nominal_spacing t0 (constant_readings t1 V N) = true.
Proof.
  induction N as [ | N IH]; intros t0 t1 Hel; [reflexivity | ].
  unfold constant_readings. cbn [uniform_times map nominal_spacing].
  apply andb_true_iff. split.
  - destruct Hel as [E | [E | E]].
    + apply Z.eqb_eq in E. now rewrite E.
    + apply Z.ltb_lt in E. rewrite E. now rewrite orb_true_r.
    + apply Z.ltb_lt in E. rewrite E. now rewrite orb_true_r.
  - apply IH. left. lia.
Qed.

Lemma constant_readings_all (P : Z * Q -> bool) (V : Q) (N : nat) :
  (forall t, P (t, V) = true) ->
  forall t, forallb P (constant_readings t V N) = true.
Proof.
  intros HP. induction N as [ | N IH]; intros t; [reflexivity | ].
  unfold constant_readings. cbn [uniform_times map forallb].
  rewrite HP. apply IH.
Qed.

Lemma constant_readings_contributions (V : Q) (N : nat) :
  forall t,
    map (fun r => nominal_contribution (snd r)) (constant_readings t V N)
    = repeat (V / 1000000 * (5 # 100)) N.
Proof.
  induction N as [ | N IH]; intros t; [reflexivity | ].
  unfold constant_readings. cbn [uniform_times map repeat]. f_equal.
  apply IH.
Qed.

Lemma constant_readings_length (V : Q) (N : nat) :
  forall t, length (constant_readings t V N) = N.
Proof.
  induction N as [ | N IH]; intros t; [reflexivity | ].
  unfold constant_readings. cbn [uniform_times map length]. f_equal.
  apply IH.
Qed.

(** C2, as the code computes it.  From an integration state with integral
    0 and point count 0, [N] CO2 readings of a constant value [V] of at
    least 1 ppm above the trigger, 0.05 s apart (the first one 0.05 s
    after the newest recorded time, or so far from it that the nominal
    interval applies), raise nothing and are all counted; the integral is
    [(V/1e6) * 0.05] added [N] times, and the ratio plotted and shown
    after the last reading is 1 over that integral divided by
    [N * 0.05].  The statement names the operations of the slot in their
    order, so it says what the interpreter computes, rounding included. *)
Theorem C2_constant_co2_integral
    (s : MainUI) (V : Q) (N : nat) (t0 t1 : Z) :
  integratedCo s == 0 -> integratedCoPts s = 0%Z ->
  newest (integratedCoTime s) = Some t0 ->
  (t1 - t0 = 50000 \/ t1 - t0 < 40000 \/ 60000 < t1 - t0)%Z ->
  coTrig s < V -> 1 <= V -> (1 <= N)%nat ->
  let c := run (constant_co2 t1 V N) in
  let integral := sum (repeat (V / 1000000 * (5 # 100)) N) in
  let count := inject_Z (Z.of_nat N) in
  returns c s
  /\ integratedCoPts (after c s) = Z.of_nat N
  /\ integratedCo (after c s) == integral
  /\ exists r,
       newest (veVco2Val (after c s)) = Some r
       /\ tabAvg_label_veVc (after c s) = r
       /\ r == 1 / (integral / (count * (5 # 100))).
Proof.
  intros Hco Hpts Ht Hel HV HV1 HN c integral count.
  destruct (run_nominal_integration (constant_readings t1 V N) s t0)
    as (s' & Hrun & Hp & Hi & Hr).
  - apply constant_readings_all. intros t. now apply gt_true.
  - apply constant_readings_all. intros t. now apply Qle_bool_iff.
  - now apply constant_readings_spacing.
  - rewrite Hco. apply Qle_refl.
  - lia.
  - exact Ht.
  - rewrite constant_readings_length in Hp, Hr.
    rewrite constant_readings_contributions in Hi.
    subst c. rewrite constant_co2_readings. unfold returns, after.
    rewrite Hrun. cbn [fst snd].
    assert (Hi' : integratedCo s' == integral).
    { rewrite Hi. unfold integral, sum. now apply fold_Qplus_compat. }
    split; [now exists tt | ].
    split; [rewrite Hp, Hpts; lia | ].
    split; [exact Hi' | ].
    destruct (Hr HN) as [Hplot Hlab].
    exists (ratio_of s'). split; [exact Hplot | split; [exact Hlab | ]].
    unfold ratio_of. rewrite Hi', Hp, Hpts. reflexivity.
Qed.

Lemma C2_witness :
  let c := run (constant_co2 50000 50000 10) in
  let integral := sum (repeat (50000 / 1000000 * (5 # 100)) 10) in
  let count := inject_Z (Z.of_nat 10) in
  integratedCo (init 0) == 0
  /\ integratedCoPts (init 0) = 0%Z
  /\ newest (integratedCoTime (init 0)) = Some 0%Z
  /\ (50000 - 0 = 50000 \/ 50000 - 0 < 40000 \/ 60000 < 50000 - 0)%Z
  /\ coTrig (init 0) < 50000
  /\ 1 <= 50000
  /\ (1 <= 10)%nat
  /\ returns c (init 0)
  /\ integratedCoPts (after c (init 0)) = 10%Z
  /\ integratedCo (after c (init 0)) == integral
  /\ exists r,
       newest (veVco2Val (after c (init 0))) = Some r
       /\ tabAvg_label_veVc (after c (init 0)) = r
       /\ r == 1 / (integral / (count * (5 # 100))).
Proof.
  intros c integral count.
  split; [reflexivity | ].
  split; [reflexivity | ].
  split; [reflexivity | ].
  split; [left; reflexivity | ].
  split; [reflexivity | ].
  split; [discriminate | ].
  split; [lia | ].
  apply (C2_constant_co2_integral (init 0) 50000 10 0 50000);
    try reflexivity; try discriminate; try lia.
Defined.

Section Binary64Facts.

Import PrimFloat.

(** The claim at its own test point, on binary64 numbers: ten readings of
    50000 ppm, 0.05 s apart, on a new window.  All are counted, the
    integral is [(V/1e6) * 0.05] added ten times and the ratio is 1 over
    the integral divided by [10 * 0.05], as the theorem above says; the
    value is 19.999999999999993. *)
Lemma constant_co2_on_binary64 :
  let c := Binary64.run (Binary64.constant_co2 50000 Binary64.ppm_50000 10) in
  let integral :=
    Binary64.sum
      (repeat (mul (div Binary64.ppm_50000 1000000) Binary64.nominal_interval)
         10) in
  snd (c (Binary64.init 0)) = Ok tt
  /\ Binary64.integratedCoPts (fst (c (Binary64.init 0))) = 10%Z
  /\ Binary64.integratedCo (fst (c (Binary64.init 0))) = integral
  /\ newest (Binary64.veVco2Val (fst (c (Binary64.init 0))))
     = Some (div 1 (div integral
                        (mul (Binary64.of_int 10) Binary64.nominal_interval)))
  /\ newest (Binary64.veVco2Val (fst (c (Binary64.init 0))))
     = Some Binary64.ratio_computed
  /\ Binary64.tabAvg_label_veVc (fst (c (Binary64.init 0)))
     = Binary64.ratio_computed.
Proof. vm_compute. repeat split; reflexivity. Qed.

(** C2 on the code.  (1) Ten readings of 50000 ppm, 0.05 s apart, on a
    new window: the ratio shown is 19.999999999999993, and [1e6 / V] is
    20.  (2) The same readings when the first comes 0.045 s after the
    window was built: that elapsed time is inside the band, so it is
    used as measured, and the ratio is 2000/99 (20.202020202020197 on
    binary64 numbers).  (3) With the trigger set to 0, one reading of the
    smallest positive number: its contribution is rounded to 0 and the
    slot raises [ZeroDivisionError]. *)
Lemma C2_counterexample :
  (let c := Binary64.run (Binary64.constant_co2 50000 Binary64.ppm_50000 10) in
   snd (c (Binary64.init 0)) = Ok tt
   /\ newest (Binary64.veVco2Val (fst (c (Binary64.init 0))))
      = Some Binary64.ratio_computed
   /\ eqb Binary64.ratio_computed Binary64.ratio_claimed = false
   /\ ltb Binary64.ratio_computed Binary64.ratio_claimed = true)
  /\ (let c := run (constant_co2 45000 50000 10) in
      returns c (init 0)
      /\ exists r,
           newest (veVco2Val (after c (init 0))) = Some r
           /\ r == 2000 # 99
           /\ ~ r == 1000000 / 50000)
  /\ (let c :=
        Binary64.run (Binary64.constant_co2 45000 Binary64.ppm_50000 10) in
      newest (Binary64.veVco2Val (fst (c (Binary64.init 0))))
      = Some Binary64.ratio_late_start
      /\ eqb Binary64.ratio_late_start Binary64.ratio_claimed = false)
  /\ (let s := Binary64.setCoIntegPts 0%float (Binary64.init 0) in
      ltb (Binary64.coTrig s) Binary64.smallest_positive = true
      /\ snd (Binary64.run
                (Binary64.constant_co2 50000 Binary64.smallest_positive 1) s)
         = Raise ZeroDivisionError).
Proof.
  split; [vm_compute; repeat split; reflexivity | ].
  split.
  - split; [now exists tt | ]. eexists.
    split; [vm_compute; reflexivity | ].
    split; [reflexivity | discriminate].
  - split; vm_compute; repeat split; reflexivity.
Qed.

End Binary64Facts.

(** * Further properties of the session *)

Lemma session_cons (a : Action) (acts : list Action) (s : MainUI) :
  session (a :: acts) s
  = match perform a s with
    | (s', Ok _) => session acts s'
    | (s', Raise x) => (s', Raise x)
    end.
Proof. reflexivity. Qed.

(** A property kept by every action, raised exception or not, holds
    after every session. *)
Lemma session_invariant (P : MainUI -> Prop) :
  (forall a s, P s -> P (after (perform a) s)) ->
  forall acts s, P s -> P (after (session acts) s).
Proof.
  intros Hstep acts. induction acts as [ | a acts IH]; intros s Hs.
  - exact Hs.
  - unfold after. rewrite session_cons.
    specialize (Hstep a s Hs). unfold after in Hstep.
    destruct (perform a s) as [s1 [[] | x]]; simpl in Hstep.
    + now apply IH.
    + exact Hstep.
Qed.

Lemma newest_some {A} (d : list A) :
  (1 <= length d)%nat -> exists a, newest d = Some a.
Proof.
  intros H. unfold newest, index_neg. simpl.
  destruct (rev d) as [ | a l] eqn:E.
  - apply (f_equal (@length A)) in E. rewrite length_rev in E.
    simpl in E. lia.
  - now exists a.
Qed.

(** The plot deque after [veVco2]: as it was, or one value longer. *)
Lemma veVco2_plot (now : Z) (n : Q) (s : MainUI) :
  veVco2Val (after (veVco2 now n) s) = veVco2Val s
  \/ exists r,
       veVco2Val (after (veVco2 now n) s)
       = deque_append 500 (veVco2Val s) r.
Proof.
  unfold after, veVco2. crunch; eauto.
Qed.

Lemma veVco2_well_formed (now : Z) (n : Q) (s : MainUI) :
  well_formed s -> well_formed (after (veVco2 now n) s).
Proof.
  intros (Ht & Hv & Hc & Hq & Hp).
  destruct (veVco2_frame now n s) as (_ & _ & _ & _ & HQ & HC & _).
  assert (Hv' : (1 <= length (veVco2Val (after (veVco2 now n) s)) <= 500)%nat).
  { destruct (veVco2_plot now n s) as [E | [r E]]; rewrite E.
    - exact Hv.
    - rewrite deque_append_length. lia. }
  destruct (Qlt_le_dec (coTrig s) n) as [Hn | Hn].
  - destruct (newest_some (integratedCoTime s)) as [t0 Ht0]; [lia | ].
    destruct (veVco2_above_integration now n s t0 Hn Ht0)
      as (_ & HP & HT & _).
    unfold well_formed. rewrite HQ, HC, HP, HT, deque_append_length.
    repeat split; try assumption; lia.
  - unfold after. rewrite (veVco2_below now n s Hn).
    unfold well_formed. slot. rewrite deque_append_length.
    repeat split; try assumption; lia.
Qed.

Lemma volBreath_well_formed (now : Z) (n : Q) (s : MainUI) :
  well_formed s -> well_formed (after (volBreath now n) s).
Proof.
  intros (Ht & Hv & Hc & Hq & Hp).
  destruct (volFlag s) eqn:Hf;
    destruct (Qlt_le_dec n (floTrig s)) as [Hn | Hn]; unfold after.
  - rewrite (volBreath_close now n s Hf Hn). unfold well_formed. slot.
    rewrite deque_append_length. cbn [length].
    repeat split; try assumption; lia.
  - rewrite (volBreath_hold now n s Hf Hn). unfold well_formed. slot.
    rewrite deque_append_length. repeat split; try assumption; lia.
  - rewrite (volBreath_idle now n s Hf Hn). simpl fst.
    unfold well_formed. tauto.
  - rewrite (volBreath_open now n s Hf Hn). unfold well_formed. slot.
    rewrite !deque_append_length. repeat split; try assumption; lia.
Qed.

Lemma perform_well_formed (a : Action) (s : MainUI) :
  well_formed s -> well_formed (after (perform a) s).
Proof.
  intros H. destruct a as [[index now n | ] | v | v]; simpl perform.
  - destruct (Z.eq_dec index 0) as [-> | H0].
    + unfold after. rewrite dataUpdate_flow.
      now apply volBreath_well_formed.
    + destruct (Z.eq_dec index 1) as [-> | H1].
      * unfold after. rewrite dataUpdate_co2.
        now apply veVco2_well_formed.
      * unfold after, dataUpdate. apply Z.eqb_neq in H0, H1.
        rewrite H0, H1. exact H.
  - destruct H as (Ht & Hv & Hc & Hq & Hp).
    unfold well_formed, after. simpl. repeat split; try assumption; lia.
  - exact H.
  - exact H.
Qed.

Lemma init_well_formed (t : Z) : well_formed (init t).
Proof. unfold well_formed. simpl. lia. Qed.

Lemma session_well_formed (t : Z) (acts : list Action) :
  well_formed (after (session acts) (init t)).
Proof.
  apply (session_invariant well_formed perform_well_formed).
  apply init_well_formed.
Qed.

(** In a well-formed state the ratio expression is evaluated with a point
    count of at least 1, so, in exact arithmetic, it raises exactly when
    the integral is zero. *)
Lemma ve_over_vco2_raises (s : MainUI) :
  (1 <= integratedCoPts s)%Z ->
  (integratedCo s == 0 -> ve_over_vco2 s = Raise ZeroDivisionError)
  /\ (~ integratedCo s == 0 ->
      ve_over_vco2 s
      = Ok (1 / (integratedCo s / (inject_Z (integratedCoPts s) * (5 # 100))))).
Proof.
  intros Hp. split; [apply ve_over_vco2_zero | ]. intros Hco.
  assert (HK : ~ inject_Z (integratedCoPts s) == 0).
  { unfold Qeq. simpl. lia. }
  assert (Hden : ~ inject_Z (integratedCoPts s) * (5 # 100) == 0).
  { intros E. apply HK.
    setoid_replace (inject_Z (integratedCoPts s))
      with (inject_Z (integratedCoPts s) * (5 # 100) * 20) by ring.
    rewrite E. ring. }
  unfold ve_over_vco2. rewrite (truediv_ok _ _ Hden).
  apply truediv_ok. intros E. apply Hco.
  setoid_replace (integratedCo s)
    with (integratedCo s / (inject_Z (integratedCoPts s) * (5 # 100))
          * (inject_Z (integratedCoPts s) * (5 # 100))) by (field; exact HK).
  rewrite E. ring.
Qed.

(** In every state a session can reach from a new window, [veVco2] ends
    normally or with [ZeroDivisionError], never with [IndexError]: the
    deque of times always holds its two newest entries.  At or below the
    trigger it ends normally; above the trigger, with the integral left
    at zero, it raises. *)
Theorem veVco2_never_raises_IndexError
    (t : Z) (acts : list Action) (now : Z) (n : Q) :
  let s := after (session acts) (init t) in
  (snd (veVco2 now n s) = Ok tt
   \/ snd (veVco2 now n s) = Raise ZeroDivisionError)
  /\ (n <= coTrig s -> snd (veVco2 now n s) = Ok tt)
  /\ (coTrig s < n -> integratedCo (after (veVco2 now n) s) == 0 ->
      snd (veVco2 now n s) = Raise ZeroDivisionError).
Proof.
  intros s. destruct (session_well_formed t acts) as (Ht & _ & _ & _ & Hp).
  fold s in Ht, Hp.
  destruct (Qlt_le_dec (coTrig s) n) as [Hn | Hn].
  - destruct (newest_some (integratedCoTime s)) as [t0 Ht0]; [lia | ].
    unfold after. rewrite (veVco2_above now n s t0 Hn Ht0).
    match goal with
    | |- context [ve_over_vco2 ?s1] =>
        destruct (ve_over_vco2_raises s1) as [Hz Hnz]; [slot; lia | ];
        destruct (Qeq_dec (integratedCo s1) 0) as [E | E]
    end.
    + rewrite (Hz E). slot. split; [now right | ].
      split; [ | reflexivity].
      intros Hn'. exfalso. exact (Qlt_not_le _ _ Hn Hn').
    + rewrite (Hnz E). slot. split; [now left | ].
      split; [reflexivity | intros _ E'; contradiction].
  - rewrite (veVco2_below now n s Hn). slot. split; [now left | ].
    split; [reflexivity | ].
    intros Hn'. exfalso. exact (Qlt_not_le _ _ Hn' Hn).
Qed.

(** ** A CO2 trigger that is never below 1 ppm *)

Lemma contribution_positive (n dt : Q) :
  0 < n -> 0 < dt -> 0 < n / 1000000 * dt.
Proof.
  intros Hn Hdt. apply Qmult_lt_0_compat; [ | exact Hdt].
  unfold Qdiv. apply Qmult_lt_0_compat; [exact Hn | reflexivity].
Qed.

Lemma veVco2_nonnegative (now : Z) (n : Q) (s : MainUI) :
  co2_nonnegative s ->
  snd (veVco2 now n s) = Ok tt
  /\ co2_nonnegative (after (veVco2 now n) s).
Proof.
  intros (Hwf & Htrig & Hco & Hlab).
  pose proof (veVco2_well_formed now n s Hwf) as Hwf'.
  destruct (Qlt_le_dec (coTrig s) n) as [Hn | Hn].
  - destruct Hwf as (Ht & _ & _ & _ & Hp).
    destruct (newest_some (integratedCoTime s)) as [t0 Ht0]; [lia | ].
    pose proof (veVco2_above now n s t0 Hn Ht0) as Heq. cbv zeta in Heq.
    set (dt := total_seconds now t0) in *.
    set (co := if gt dt (6 # 100) || lt dt (4 # 100)
               then integratedCo s + n / 1000000 * (5 # 100)
               else integratedCo s + n / 1000000 * dt) in *.
    assert (Hn0 : 0 < n) by (apply Qle_lt_trans with (coTrig s); assumption).
    assert (Hpos : 0 < co).
    { subst co. destruct (gt dt (6 # 100) || lt dt (4 # 100)) eqn:E.
      - pose proof (contribution_positive n (5 # 100) Hn0 eq_refl). lra.
      - apply orb_false_iff in E as [_ E]. apply lt_false in E.
        assert (Hdt : 0 < dt) by lra.
        pose proof (contribution_positive n dt Hn0 Hdt). lra. }
    match type of Heq with
    | context [ve_over_vco2 ?s1] =>
        destruct (ve_over_vco2_raises s1) as [_ Hnz]; [slot; lia | ];
        rewrite Hnz in Heq by (slot; lra)
    end.
    slot in Heq. split; [now rewrite Heq | ].
    split; [exact Hwf' | ]. unfold after. rewrite Heq. slot.
    split; [exact Htrig | ]. split; [lra | ].
    apply Qlt_le_weak. unfold Qdiv at 1. rewrite Qmult_1_l.
    apply Qinv_lt_0_compat. unfold Qdiv. apply Qmult_lt_0_compat.
    + exact Hpos.
    + apply Qinv_lt_0_compat.
      apply Qmult_lt_0_compat; [ | reflexivity].
      unfold Qlt. simpl. lia.
  - unfold after. rewrite (veVco2_below now n s Hn).
    split; [reflexivity | ]. unfold after in Hwf'.
    rewrite (veVco2_below now n s Hn) in Hwf'.
    split; [exact Hwf' | ]. slot. auto.
Qed.

Lemma perform_nonnegative (a : Action) (s : MainUI) :
  keeps_trigger_nonnegative a = true -> co2_nonnegative s ->
  snd (perform a s) = Ok tt /\ co2_nonnegative (after (perform a) s).
Proof.
  intros Ha H. pose proof H as (Hwf & Htrig & Hco & Hlab).
  pose proof (perform_well_formed a s Hwf) as Hwf'.
  destruct a as [[index now n | ] | v | v]; simpl perform in *.
  - destruct (Z.eq_dec index 0) as [-> | H0].
    + unfold after in *. rewrite dataUpdate_flow in *.
      split; [apply volBreath_returns | ].
      destruct (volBreath_frame now n s)
        as (_ & E1 & E2 & _ & _ & _ & _ & E3 & _).
      unfold after in E1, E2, E3.
      split; [exact Hwf' | ]. now rewrite E1, E2, E3.
    + destruct (Z.eq_dec index 1) as [-> | H1].
      * unfold after in *. rewrite dataUpdate_co2 in *.
        now apply veVco2_nonnegative.
      * unfold after, dataUpdate in *. apply Z.eqb_neq in H0, H1.
        rewrite H0, H1 in *. now split.
  - split; [reflexivity | ]. split; [exact Hwf' | ].
    unfold after. simpl. repeat split; try assumption; apply Qle_refl.
  - split; [reflexivity | ]. split; [exact Hwf' | ].
    unfold after. simpl. auto.
  - split; [reflexivity | ]. split; [exact Hwf' | ].
    unfold after. simpl. simpl in Ha. apply Qle_bool_iff in Ha. auto.
Qed.

Lemma handle_reading_keeps_triggers (index now : Z) (n : Q) (s : MainUI) :
  floTrig (after (dataUpdate index now n) s) = floTrig s
  /\ coTrig (after (dataUpdate index now n) s) = coTrig s.
Proof.
  destruct (Z.eq_dec index 0) as [-> | H0].
  - unfold after. rewrite dataUpdate_flow.
    destruct (volBreath_frame now n s) as (H1 & H2 & _). now split.
  - destruct (Z.eq_dec index 1) as [-> | H1].
    + unfold after. rewrite dataUpdate_co2.
      destruct (veVco2_frame now n s) as (H2 & H3 & _). now split.
    + unfold after, dataUpdate. apply Z.eqb_neq in H0, H1.
      rewrite H0, H1. now split.
Qed.

(** As long as the CO2 trigger is not set below 1 ppm, no slot of a
    session on a new window divides by zero or reads past a deque: every
    reading, reset and trigger update returns, the integral stays
    non-negative and so does the ratio on its label.  (An integrated
    reading is then above 1 ppm, so that what it adds to the integral is
    far from the smallest numbers a float can hold.) *)
Theorem no_exception_with_trigger_of_1ppm (t : Z) (acts : list Action) :
  forallb keeps_trigger_at_least_1ppm acts = true ->
  returns (session acts) (init t)
  /\ 1 <= coTrig (after (session acts) (init t))
  /\ 0 <= integratedCo (after (session acts) (init t))
  /\ 0 <= tabAvg_label_veVc (after (session acts) (init t)).
Proof.
  intros Hall.
  assert (H0 : co2_nonnegative (init t) /\ 1 <= coTrig (init t)).
  { split; [ | discriminate].
    split; [apply init_well_formed | ]. simpl. repeat split; discriminate. }
  revert H0. generalize (init t) as s. revert Hall.
  induction acts as [ | a acts IH]; intros Hall s [Hs Htrig].
  - split; [now exists tt | ]. destruct Hs as (_ & _ & Hco & Hlab).
    now repeat split.
  - simpl in Hall. apply andb_true_iff in Hall as [Ha Hall].
    assert (Ha' : keeps_trigger_nonnegative a = true).
    { destruct a as [e | v | v]; try reflexivity. simpl in Ha |- *.
      apply Qle_bool_iff in Ha. apply Qle_bool_iff. lra. }
    assert (Htrig1 : 1 <= coTrig (after (perform a) s)).
    { destruct a as [[index now n | ] | v | v]; simpl perform.
      - destruct (handle_reading_keeps_triggers index now n s) as [_ E].
        now rewrite E.
      - exact Htrig.
      - exact Htrig.
      - simpl in Ha. apply Qle_bool_iff in Ha. exact Ha. }
    destruct (perform_nonnegative a s Ha' Hs) as [Hok Hs1].
    unfold returns, after in *. rewrite session_cons.
    destruct (perform a s) as [s1 [[] | x]]; simpl in Hok, Hs1, Htrig1;
      [ | discriminate].
    now apply IH.
Qed.

Lemma no_exception_with_trigger_of_1ppm_witness :
  let acts :=
    [CoIntegUpdate 1; Handle (co2 (50000%Z, 2)); Handle ResetPressed;
     Handle (flow (60000%Z, 12)); Handle (co2 (100000%Z, 30000));
     Handle (co2 (150000%Z, 1))] in
  forallb keeps_trigger_at_least_1ppm acts = true
  /\ returns (session acts) (init 0)
  /\ 1 <= coTrig (after (session acts) (init 0))
  /\ 0 <= integratedCo (after (session acts) (init 0))
  /\ 0 <= tabAvg_label_veVc (after (session acts) (init 0)).
Proof.
  intros acts. split; [reflexivity | ].
  apply (no_exception_with_trigger_of_1ppm 0 acts). reflexivity.
Defined.

(** ** Counting the integrated readings *)

Lemma veVco2_counts (now : Z) (n : Q) (s : MainUI) :
  snd (veVco2 now n s) = Ok tt ->
  integratedCoPts (after (veVco2 now n) s)
  = (integratedCoPts s + (if gt n (coTrig s) then 1 else 0))%Z.
Proof.
  unfold after, veVco2. crunch; intros H; try discriminate; lia.
Qed.

(** Over readings of both channels that raise nothing, the point count
    grows by the number of CO2 readings above the trigger: flow readings
    and CO2 readings at or below the trigger do not count. *)
Theorem point_count_counts_integrated (es : list Event) (s : MainUI) :
  forallb is_reading es = true ->
  returns (run es) s ->
  integratedCoPts (after (run es) s)
  = (integratedCoPts s
     + Z.of_nat (length (filter (integrated (coTrig s)) es)))%Z.
Proof.
  revert s. induction es as [ | e es IH]; intros s Hall Hret.
  - simpl. unfold after. simpl. lia.
  - simpl in Hall. apply andb_true_iff in Hall as [He Hall].
    destruct e as [index now n | ]; [ | discriminate].
    destruct Hret as [[] Hret]. unfold after in *.
    rewrite run_cons in *. simpl handle in *.
    destruct (handle_reading_keeps_triggers index now n s) as [_ Htrig].
    unfold after in Htrig.
    assert (Hstep :
      snd (dataUpdate index now n s) = Ok tt ->
      integratedCoPts (fst (dataUpdate index now n s))
      = (integratedCoPts s
         + (if integrated (coTrig s) (Reading index now n) then 1 else 0))%Z).
    { simpl integrated. destruct (Z.eq_dec index 0) as [-> | H0].
      - intros _. rewrite dataUpdate_flow.
        destruct (volBreath_frame now n s) as (_ & _ & _ & H & _).
        unfold after in H. rewrite H. simpl. lia.
      - destruct (Z.eq_dec index 1) as [-> | H1].
        + rewrite dataUpdate_co2. intros Hok.
          apply veVco2_counts in Hok. unfold after in Hok.
          rewrite Hok. reflexivity.
        + intros _. unfold dataUpdate. apply Z.eqb_neq in H0, H1.
          rewrite H0, H1. simpl. lia. }
    destruct (dataUpdate index now n s) as [s1 [[] | x]];
      simpl in Hret, Htrig, Hstep; [ | discriminate].
    rewrite (IH s1 Hall) by (now exists tt).
    rewrite Htrig, Hstep by reflexivity. simpl filter.
    destruct ((index =? 1)%Z && gt n (coTrig s)); simpl length; lia.
Qed.

Lemma point_count_counts_integrated_witness :
  let es := [co2 (50000%Z, 30000); flow (60000%Z, 12);
             co2 (100000%Z, 15000); co2 (150000%Z, 25000)] in
  forallb is_reading es = true
  /\ returns (run es) (init 0)
  /\ integratedCoPts (after (run es) (init 0))
     = (integratedCoPts (init 0)
        + Z.of_nat (length (filter (integrated (coTrig (init 0))) es)))%Z.
Proof.
  intros es. split; [reflexivity | ].
  split; [now exists tt | ].
  apply (point_count_counts_integrated es (init 0));
    [reflexivity | now exists tt].
Defined.

(** ** The save log only grows *)

Lemma perform_appends (a : Action) (s : MainUI) :
  exists rows, saveLog (after (perform a) s) = saveLog s ++ rows.
Proof.
  destruct a as [[index now n | ] | v | v]; simpl perform.
  - destruct (dataUpdate_tracks index now n s) as [R [H _]]. now exists R.
  - exists []. unfold after. simpl. now rewrite app_nil_r.
  - exists []. unfold after. simpl. now rewrite app_nil_r.
  - exists []. unfold after. simpl. now rewrite app_nil_r.
Qed.

(** Whatever a session does (readings, resets, trigger updates, an
    exception that ends it), the breath rows written before it are still
    there, in the same order, at the head of the log: rows are only
    appended. *)
Theorem save_log_is_append_only (acts : list Action) (s : MainUI) :
  exists rows, saveLog (after (session acts) s) = saveLog s ++ rows.
Proof.
  revert s. induction acts as [ | a acts IH]; intros s.
  - exists []. unfold after. simpl. now rewrite app_nil_r.
  - destruct (perform_appends a s) as [R1 H1].
    unfold after in *. rewrite session_cons.
    destruct (perform a s) as [s1 [[] | x]]; simpl in H1.
    + destruct (IH s1) as [R2 H2]. exists (R1 ++ R2).
      now rewrite H2, H1, app_assoc.
    + now exists R1.
Qed.

(** ** The two channels do not interfere *)

(** [veVco2] reads and writes the CO2 attributes only. *)
Lemma veVco2_co2_part (now : Z) (n : Q) (s s2 : MainUI) :
  co2_part s = co2_part s2 ->
  co2_part (after (veVco2 now n) s) = co2_part (after (veVco2 now n) s2)
  /\ snd (veVco2 now n s) = snd (veVco2 now n s2).
Proof.
  unfold co2_part. destruct s, s2. simpl. intros [= -> -> -> -> -> ->].
  unfold after, veVco2, ve_over_vco2. crunch; split; reflexivity.
Qed.

(** The breath side of a session (open flag, buffer, history of volumes,
    both volume labels, rows written) is what the flow readings alone
    produce: CO2 readings interleaved with them, in any number and at any
    place, change none of it, provided none of them raises. *)
Theorem breath_rows_ignore_co2 (es : list Event) (s : MainUI) :
  forallb is_reading es = true ->
  returns (run es) s ->
  breath_part (after (run es) s)
  = breath_part (after (run (filter is_flow es)) s).
Proof.
  intros Hall [[] Hret]. now apply breath_rows_ignore_co2_gen.
Qed.

Lemma breath_rows_ignore_co2_witness :
  let es := [flow (50000%Z, 12); co2 (60000%Z, 30000);
             flow (100000%Z, 0); co2 (110000%Z, 100)] in
  forallb is_reading es = true
  /\ returns (run es) (init 0)
  /\ breath_part (after (run es) (init 0))
     = breath_part (after (run (filter is_flow es)) (init 0)).
Proof.
  intros es. split; [reflexivity | ].
  split; [now exists tt | ].
  apply (breath_rows_ignore_co2 es (init 0));
    [reflexivity | now exists tt].
Defined.

Lemma co2_side_ignores_flow_gen (es : list Event) :
  forall s s2 : MainUI,
    co2_part s = co2_part s2 ->
    forallb is_reading es = true ->
    co2_part (after (run es) s)
    = co2_part (after (run (filter is_co2 es)) s2)
    /\ snd (run es s) = snd (run (filter is_co2 es) s2).
Proof.
  induction es as [ | e es IH]; intros s s2 Hpart Hall.
  - now split.
  - simpl in Hall. apply andb_true_iff in Hall as [He Hall].
    destruct e as [index now n | ]; [ | discriminate].
    unfold after in *. rewrite run_cons. simpl handle.
    simpl filter. destruct (Z.eq_dec index 1) as [-> | H1].
    + rewrite Z.eqb_refl, run_cons. simpl handle. rewrite !dataUpdate_co2.
      destruct (veVco2_co2_part now n s s2 Hpart) as [Hstep Hres].
      unfold after in Hstep.
      destruct (veVco2 now n s) as [s1 [[] | x]];
        destruct (veVco2 now n s2) as [s3 [[] | x2]];
        simpl in Hres; try discriminate.
      * now apply IH.
      * simpl. split; [exact Hstep | exact Hres].
    + apply Z.eqb_neq in H1. rewrite H1.
      assert (Hstep : co2_part (fst (dataUpdate index now n s)) = co2_part s
                      /\ snd (dataUpdate index now n s) = Ok tt).
      { destruct (Z.eq_dec index 0) as [-> | H0].
        - rewrite dataUpdate_flow.
          destruct (volBreath_frame now n s)
            as (_ & F1 & F2 & F3 & F4 & F5 & _ & F6 & _).
          unfold after in *. unfold co2_part.
          split; [now rewrite F1, F2, F3, F4, F5, F6 | ].
          apply volBreath_returns.
        - unfold dataUpdate. apply Z.eqb_neq in H0.
          rewrite H0, H1. now split. }
      destruct Hstep as [Hstep Hok].
      destruct (dataUpdate index now n s) as [s1 [[] | x]];
        simpl in Hstep, Hok; [ | discriminate].
      apply IH; [now rewrite Hstep | exact Hall].
Qed.

(** The CO2 side of a session (trigger, integral, point count, recorded
    times, plotted ratios, ratio label) and its outcome, normal end or
    exception, are what the CO2 readings alone produce: flow readings
    interleaved with them change none of it. *)
Theorem co2_side_ignores_flow (es : list Event) (s : MainUI) :
  forallb is_reading es = true ->
  co2_part (after (run es) s) = co2_part (after (run (filter is_co2 es)) s)
  /\ snd (run es s) = snd (run (filter is_co2 es) s).
Proof.
  intros Hall. now apply co2_side_ignores_flow_gen.
Qed.

Lemma co2_side_ignores_flow_witness :
  let es := [flow (50000%Z, 12); co2 (60000%Z, 30000);
             flow (100000%Z, 0); co2 (110000%Z, 100)] in
  forallb is_reading es = true
  /\ co2_part (after (run es) (init 0))
     = co2_part (after (run (filter is_co2 es)) (init 0))
  /\ snd (run es (init 0)) = snd (run (filter is_co2 es) (init 0)).
Proof.
  intros es. split; [reflexivity | ].
  apply (co2_side_ignores_flow es (init 0)). reflexivity.
Defined.

(** ** The ratio over readings integrated with the nominal interval *)

(** One more reading integrated with the nominal interval, when [k]
    readings of total [S0] have been. *)
Lemma veVco2_nominal_step (s : MainUI) (now t0 : Z) (n : Q) (k : Z) (S0 : Q) :
  coTrig s < n -> 0 < n ->
  newest (integratedCoTime s) = Some t0 ->
  (now - t0 = 50000 \/ now - t0 < 40000 \/ 60000 < now - t0)%Z ->
  (0 <= k)%Z -> integratedCoPts s = k ->
  0 <= S0 -> integratedCo s == S0 / 1000000 * (5 # 100) ->
  exists s' r,
    veVco2 now n s = (s', Ok tt)
    /\ r == 1000000 * inject_Z (k + 1) / (S0 + n)
    /\ newest (veVco2Val s') = Some r
    /\ tabAvg_label_veVc s' = r
    /\ coTrig s' = coTrig s
    /\ newest (integratedCoTime s') = Some now
    /\ integratedCoPts s' = (k + 1)%Z
    /\ integratedCo s' == (S0 + n) / 1000000 * (5 # 100).
Proof.
  intros Hn Hn0 Ht Hel Hk Hpts HS Hco.
  rewrite (veVco2_above now n s t0 Hn Ht).
  set (dt := total_seconds now t0).
  set (co := if gt dt (6 # 100) || lt dt (4 # 100)
             then integratedCo s + n / 1000000 * (5 # 100)
             else integratedCo s + n / 1000000 * dt).
  assert (Hco' : co == (S0 + n) / 1000000 * (5 # 100)).
  { subst co.
    destruct (nominal_or_out_of_band now t0 Hel) as [E | E]; fold dt in E.
    - rewrite E, Hco. field.
    - destruct (gt dt (6 # 100) || lt dt (4 # 100)); rewrite ?E, Hco; field. }
  assert (HK : ~ inject_Z (k + 1) == 0).
  { unfold Qeq. simpl. lia. }
  assert (HS' : ~ S0 + n == 0) by lra.
  match goal with
  | |- context [ve_over_vco2 ?s1] =>
      destruct (ve_over_vco2_raises s1) as [_ Hnz]; [slot; lia | ];
      rewrite Hnz
  end.
  2: { slot. rewrite Hco'. intros E. apply HS'.
       setoid_replace (S0 + n)
         with ((S0 + n) / 1000000 * (5 # 100) * 20000000) by field.
       rewrite E. ring. }
  slot. rewrite Hpts.
  eexists. exists (1 / (co / (inject_Z (k + 1) * (5 # 100)))).
  split; [reflexivity | ]. slot.
  split; [rewrite Hco'; field; now split | ].
  split; [unfold newest; now rewrite deque_append_nonempty by lia | ].
  split; [reflexivity | ].
  split; [reflexivity | ].
  split; [unfold newest; now rewrite deque_append_nonempty by lia | ].
  split; [reflexivity | exact Hco'].
Qed.

Lemma run_nominal (rs : list (Z * Q)) :
  forall (s : MainUI) (t0 : Z) (k : Z) (S0 : Q),
    (1 <= length rs)%nat ->
    0 <= coTrig s ->
    forallb (fun r => gt (snd r) (coTrig s)) rs = true ->
    nominal_spacing t0 rs = true ->
    newest (integratedCoTime s) = Some t0 ->
    (0 <= k)%Z -> integratedCoPts s = k ->
    0 <= S0 -> integratedCo s == S0 / 1000000 * (5 # 100) ->
    exists s' r,
      run (map co2 rs) s = (s', Ok tt)
      /\ newest (veVco2Val s') = Some r
      /\ tabAvg_label_veVc s' = r
      /\ r == 1000000 * (inject_Z k + len rs) / (S0 + sum (map snd rs)).
Proof.
  induction rs as [ | [t n] rs IH];
    intros s t0 k S0 Hlen Htrig Hall Hsp Ht Hk Hpts HS Hco.
  - simpl in Hlen. lia.
  - simpl in Hall, Hsp.
    apply andb_true_iff in Hall as [Hn Hall].
    apply andb_true_iff in Hsp as [Hel Hsp].
    apply gt_true in Hn.
    assert (Hn0 : 0 < n) by lra.
    assert (Hel' : (t - t0 = 50000 \/ t - t0 < 40000 \/ 60000 < t - t0)%Z).
    { apply orb_true_iff in Hel as [Hel | Hel];
        [apply orb_true_iff in Hel as [Hel | Hel] | ].
      - left. now apply Z.eqb_eq.
      - right. left. now apply Z.ltb_lt.
      - right. right. now apply Z.ltb_lt. }
    destruct (veVco2_nominal_step s t t0 n k S0)
      as (s1 & r1 & Hrun & Hr1 & Hplot & Hlab & Htrig1 & Ht1 & Hpts1 & Hco1);
      try assumption.
    simpl map. rewrite run_cons. simpl handle.
    rewrite dataUpdate_co2, Hrun.
    destruct rs as [ | p rs'].
    + exists s1, r1. split; [reflexivity | ].
      split; [exact Hplot | split; [exact Hlab | ]].
      rewrite Hr1, inject_Z_plus. unfold len. simpl length.
      rewrite (sum_cons n []), sum_nil.
      setoid_replace (n + 0) with n by ring. reflexivity.
    + destruct (IH s1 t (k + 1)%Z (S0 + n))
        as (s' & r & Hrest & Hp & Hl & Hr); try assumption; try lia.
      * simpl. lia.
      * now rewrite Htrig1.
      * now rewrite Htrig1.
      * lra.
      * exists s', r. split; [exact Hrest | ].
        split; [exact Hp | split; [exact Hl | ]].
        rewrite Hr. simpl map. rewrite (sum_cons n).
        assert (Elen : len ((t, n) :: p :: rs') == 1 + len (p :: rs')).
        { unfold len. simpl length. rewrite Nat2Z.inj_succ, <- Z.add_1_l.
          rewrite inject_Z_plus. reflexivity. }
        rewrite Elen, inject_Z_plus. change (inject_Z 1) with 1.
        setoid_replace (inject_Z k + 1 + len (p :: rs'))
          with (inject_Z k + (1 + len (p :: rs'))) by ring.
        setoid_replace (S0 + n + sum (snd p :: map snd rs'))
          with (S0 + (n + sum (snd p :: map snd rs'))) by ring.
        reflexivity.
Qed.

Lemma sum_readings_positive (trig : Q) (rs : list (Z * Q)) :
  0 <= trig ->
  forallb (fun r => gt (snd r) trig) rs = true ->
  (1 <= length rs)%nat -> 0 < sum (map snd rs).
Proof.
  intros Htrig Hall Hlen.
  assert (H : 0 <= sum (map snd rs)
              /\ ((1 <= length rs)%nat -> 0 < sum (map snd rs))).
  { clear Hlen. induction rs as [ | [t n] rs IH].
    - split; [apply Qle_refl | simpl; lia].
    - simpl in Hall. apply andb_true_iff in Hall as [Hn Hall].
      apply gt_true in Hn. destruct (IH Hall) as [IH0 _].
      simpl map. rewrite (sum_cons n). split; [lra | intros _; lra]. }
  now apply H.
Qed.

(** In exact arithmetic: were no operation of [veVco2] rounded, the
    ratio after readings above a non-negative trigger, each integrated
    with the nominal interval from integral 0 and point count 0, would be
    one million over the arithmetic mean of the readings. *)
Lemma ratio_is_million_over_mean_in_exact_arithmetic (s : MainUI) (rs : list (Z * Q)) (t0 : Z) :
  integratedCo s == 0 -> integratedCoPts s = 0%Z ->
  newest (integratedCoTime s) = Some t0 ->
  0 <= coTrig s ->
  forallb (fun r => gt (snd r) (coTrig s)) rs = true ->
  nominal_spacing t0 rs = true ->
  (1 <= length rs)%nat ->
  let c := run (map co2 rs) in
  returns c s
  /\ exists r,
       newest (veVco2Val (after c s)) = Some r
       /\ tabAvg_label_veVc (after c s) = r
       /\ r == 1000000 / mean (map snd rs).
Proof.
  intros Hco Hpts Ht Htrig Hall Hsp Hlen c.
  destruct (run_nominal rs s t0 0%Z 0)
    as (s' & r & Hrun & Hplot & Hlab & Hr); try assumption; try lia;
    try apply Qle_refl.
  { rewrite Hco. reflexivity. }
  subst c. unfold returns, after. rewrite Hrun. simpl fst. simpl snd.
  split; [now exists tt | ].
  exists r. split; [exact Hplot | split; [exact Hlab | ]].
  rewrite Hr. unfold mean, len. rewrite length_map.
  change (inject_Z 0) with 0. rewrite !Qplus_0_l. field.
  assert (Hlen' : ~ inject_Z (Z.of_nat (length rs)) == 0).
  { unfold Qeq. simpl. lia. }
  split; [exact Hlen' | ].
  pose proof (sum_readings_positive (coTrig s) rs Htrig Hall Hlen). lra.
Qed.

(** From integral 0 and point count 0: CO2 readings above a trigger of at
    least 1 ppm, each integrated with the nominal interval (it comes
    0.05 s after the one before, or out of band), raise nothing and are
    all counted; the integral is the sum of [(n/1e6) * 0.05] over the
    readings [n], added in arrival order, and the ratio plotted and shown
    after the last reading is 1 over the integral reached divided by the
    count reached times 0.05.  The measured times play no part. *)
Theorem nominal_integration_adds_contributions
    (s : MainUI) (rs : list (Z * Q)) (t0 : Z) :
  integratedCo s == 0 -> integratedCoPts s = 0%Z ->
  newest (integratedCoTime s) = Some t0 ->
  1 <= coTrig s ->
  forallb (fun r => gt (snd r) (coTrig s)) rs = true ->
  nominal_spacing t0 rs = true ->
  (1 <= length rs)%nat ->
  let c := run (map co2 rs) in
  returns c s
  /\ integratedCoPts (after c s) = Z.of_nat (length rs)
  /\ integratedCo (after c s)
     == sum (map (fun r => snd r / 1000000 * (5 # 100)) rs)
  /\ exists r,
       newest (veVco2Val (after c s)) = Some r
       /\ tabAvg_label_veVc (after c s) = r
       /\ r = 1 / (integratedCo (after c s)
                   / (inject_Z (integratedCoPts (after c s)) * (5 # 100))).
Proof.
  intros Hco Hpts Ht Htrig Hall Hsp Hlen c.
  destruct (run_nominal_integration rs s t0)
    as (s' & Hrun & Hp & Hi & Hr); try assumption.
  { clear Hsp Hlen. induction rs as [ | [t n] rs IH]; [reflexivity | ].
    simpl in Hall |- *. apply andb_true_iff in Hall as [Hn Hall].
    apply gt_true in Hn. apply andb_true_iff. split; [ | now apply IH].
    apply Qle_bool_iff. lra. }
  { rewrite Hco. apply Qle_refl. }
  { lia. }
  subst c. unfold returns, after. rewrite Hrun. cbn [fst snd].
  split; [now exists tt | ].
  split; [rewrite Hp, Hpts; lia | ].
  split; [rewrite Hi; unfold sum; now apply fold_Qplus_compat | ].
  destruct (Hr Hlen) as [Hplot Hlab].
  exists (ratio_of s'). now repeat split.
Qed.

Lemma nominal_integration_adds_contributions_witness :
  let rs := [(50000%Z, 30000); (100000%Z, 50000); (500000%Z, 40000)] in
  let c := run (map co2 rs) in
  integratedCo (init 0) == 0
  /\ integratedCoPts (init 0) = 0%Z
  /\ newest (integratedCoTime (init 0)) = Some 0%Z
  /\ 1 <= coTrig (init 0)
  /\ forallb (fun r => gt (snd r) (coTrig (init 0))) rs = true
  /\ nominal_spacing 0 rs = true
  /\ (1 <= length rs)%nat
  /\ integratedCo (after c (init 0)) == 6 # 1000
  /\ returns c (init 0)
  /\ integratedCoPts (after c (init 0)) = Z.of_nat (length rs)
  /\ integratedCo (after c (init 0))
     == sum (map (fun r => snd r / 1000000 * (5 # 100)) rs)
  /\ exists r,
       newest (veVco2Val (after c (init 0))) = Some r
       /\ tabAvg_label_veVc (after c (init 0)) = r
       /\ r = 1 / (integratedCo (after c (init 0))
                   / (inject_Z (integratedCoPts (after c (init 0)))
                      * (5 # 100))).
Proof.
  intros rs c.
  split; [reflexivity | ].
  split; [reflexivity | ].
  split; [reflexivity | ].
  split; [discriminate | ].
  split; [reflexivity | ].
  split; [reflexivity | ].
  split; [simpl; lia | ].
  split; [reflexivity | ].
  apply (nominal_integration_adds_contributions (init 0) rs 0);
    try reflexivity; try discriminate; simpl; lia.
Defined.

(** ** Where breath rows are written *)

(** One flow reading: afterwards a breath is open exactly when the
    reading was at or above the trigger, and a row is written exactly
    when a breath was open and the reading is below the trigger. *)
Lemma volBreath_edge (now : Z) (n : Q) (s : MainUI) :
  let s' := after (volBreath now n) s in
  volFlag s' = ge n (floTrig s)
  /\ floTrig s' = floTrig s
  /\ exists R,
       saveLog s' = saveLog s ++ R
       /\ map row_time R
          = (if volFlag s && lt n (floTrig s) then [now] else []).
Proof.
  destruct (volFlag s) eqn:Hf;
    destruct (Qlt_le_dec n (floTrig s)) as [Hn | Hn]; unfold after.
  - rewrite (volBreath_close now n s Hf Hn). slot. rewrite ?Hf.
    rewrite (proj2 (ge_false _ _) Hn), (proj2 (lt_true _ _) Hn).
    split; [reflexivity | split; [reflexivity | ]].
    exists [VolRow now (sum (curVol s))]. now split.
  - rewrite (volBreath_hold now n s Hf Hn). slot. rewrite ?Hf.
    rewrite (proj2 (ge_true _ _) Hn), (proj2 (lt_false _ _) Hn).
    split; [reflexivity | split; [reflexivity | ]].
    exists []. now rewrite app_nil_r.
  - rewrite (volBreath_idle now n s Hf Hn). slot. rewrite ?Hf.
    rewrite (proj2 (ge_false _ _) Hn).
    split; [reflexivity | split; [reflexivity | ]].
    exists []. now rewrite app_nil_r.
  - rewrite (volBreath_open now n s Hf Hn). slot. rewrite ?Hf.
    rewrite (proj2 (ge_true _ _) Hn).
    split; [reflexivity | split; [reflexivity | ]].
    exists []. now rewrite app_nil_r.
Qed.

Lemma run_flow_rows (rs : list (Z * Q)) :
  forall s : MainUI,
    exists R,
      snd (run (map flow rs) s) = Ok tt
      /\ saveLog (after (run (map flow rs)) s) = saveLog s ++ R
      /\ map row_time R = closing_times (floTrig s) (volFlag s) rs.
Proof.
  induction rs as [ | [t n] rs IH]; intros s.
  - exists []. unfold after. simpl. now rewrite app_nil_r.
  - unfold after. simpl map. rewrite run_cons. simpl handle.
    rewrite dataUpdate_flow.
    destruct (volBreath_edge t n s) as (Hf & Htrig & R1 & Hlog & Hrow).
    unfold after in Hf, Htrig, Hlog.
    pose proof (volBreath_returns t n s) as Hok.
    destruct (volBreath t n s) as [s1 [[] | x]];
      simpl in Hf, Htrig, Hlog, Hok; [ | discriminate].
    destruct (IH s1) as (R2 & Hret & Hlog2 & Hrows).
    exists (R1 ++ R2). split; [exact Hret | ]. unfold after in Hlog2.
    split; [now rewrite Hlog2, Hlog, app_assoc | ].
    rewrite map_app, Hrow, Hrows, Htrig, Hf. reflexivity.
Qed.

(** Over any flow readings, from any state: the rows written are
    stamped, in order, with the clock times of exactly those readings
    that come below the trigger right after a reading at or above it (for
    the first reading: while a breath was open).  So there is one row for
    each crossing down, none otherwise.  Writing a row is taken to
    succeed. *)
Theorem rows_are_written_at_downward_crossings
    (rs : list (Z * Q)) (s : MainUI) :
  let s' := after (run (map flow rs)) s in
  exists R,
    saveLog s' = saveLog s ++ R
    /\ map row_time R = closing_times (floTrig s) (volFlag s) rs.
Proof.
  destruct (run_flow_rows rs s) as (R & _ & Hlog & Hrows).
  cbv zeta. now exists R.
Qed.

(** ** A reset between two breaths *)

Lemma Forall_skipn {A} (P : A -> Prop) (k : nat) (l : list A) :
  Forall P l -> Forall P (skipn k l).
Proof.
  revert l. induction k as [ | k IH]; intros l H; [exact H | ].
  destruct H; [constructor | now apply IH].
Qed.

Lemma Forall2_skipn {A} (R : A -> A -> Prop) (k : nat) (l m : list A) :
  Forall2 R l m -> Forall2 R (skipn k l) (skipn k m).
Proof.
  revert l m. induction k as [ | k IH]; intros l m H; [exact H | ].
  destruct H; [constructor | now apply IH].
Qed.

Lemma sum_all_zero (z : list Q) : all_zero z -> sum z == 0.
Proof.
  induction 1 as [ | c z Hc _ IH]; [reflexivity | ].
  rewrite sum_cons, Hc, IH. reflexivity.
Qed.

Lemma sum_Forall2 (a b : list Q) : Forall2 Qeq a b -> sum a == sum b.
Proof.
  induction 1 as [ | x y a b Hxy _ IH]; [reflexivity | ].
  now rewrite !sum_cons, Hxy, IH.
Qed.

Lemma lastn_app_l {A} (k : nat) (a b : list A) :
  (length b <= k)%nat -> lastn k (a ++ b) = lastn (k - length b) a ++ b.
Proof.
  intros H. unfold lastn. rewrite length_app, skipn_app.
  replace (length a + length b - k - length a)%nat with 0%nat by lia.
  simpl. f_equal. f_equal. lia.
Qed.

(** Zeros in front of the contributions do not change the volume of the
    breath, whether the deque has discarded them or not. *)
Lemma sum_lastn_zeros (k : nat) (z l : list Q) :
  all_zero z -> sum (lastn k (z ++ l)) == sum (lastn k l).
Proof.
  intros Hz. destruct (Nat.le_gt_cases (length l) k) as [H | H].
  - rewrite lastn_app_l by exact H. rewrite (lastn_all k l H), sum_app.
    rewrite sum_all_zero; [ring | ]. now apply Forall_skipn.
  - rewrite lastn_app_r by lia. reflexivity.
Qed.

Lemma deque_append_Forall2 (maxlen : nat) (a b : list Q) (x y : Q) :
  Forall2 Qeq a b -> x == y ->
  Forall2 Qeq (deque_append maxlen a x) (deque_append maxlen b y).
Proof.
  intros Hab Hxy. rewrite !deque_append_lastn. unfold lastn.
  rewrite !length_app, (Forall2_length Hab).
  apply Forall2_skipn. apply Forall2_app; [exact Hab | ].
  constructor; [exact Hxy | constructor].
Qed.

Lemma mean_Forall2 (a b : list Q) : Forall2 Qeq a b -> mean a == mean b.
Proof.
  intros H. unfold mean, len.
  rewrite (sum_Forall2 a b H), (Forall2_length H). reflexivity.
Qed.

(** One flow reading keeps two such windows alike, and the rows it writes
    in them are equal. *)
Lemma volBreath_same_breaths (now : Z) (n : Q) (s1 s2 : MainUI) :
  same_breaths s1 s2 ->
  exists R1 R2,
    saveLog (after (volBreath now n) s1) = saveLog s1 ++ R1
    /\ saveLog (after (volBreath now n) s2) = saveLog s2 ++ R2
    /\ Forall2 row_equiv R1 R2
    /\ same_breaths (after (volBreath now n) s1) (after (volBreath now n) s2).
Proof.
  intros (Htrig & Hflag & (z1 & z2 & l & Hz1 & Hz2 & Hc1 & Hc2) & Hq & Hlab).
  destruct (volFlag s1) eqn:Hf1; symmetry in Hflag;
    destruct (Qlt_le_dec n (floTrig s1)) as [Hn1 | Hn1];
    pose proof Hn1 as Hn2; rewrite Htrig in Hn2; unfold after.
  - rewrite (volBreath_close now n s1 Hf1 Hn1).
    rewrite (volBreath_close now n s2 Hflag Hn2).
    assert (Hv : sum (curVol s1) == sum (curVol s2)).
    { now rewrite Hc1, Hc2, !sum_lastn_zeros. }
    exists [VolRow now (sum (curVol s1))], [VolRow now (sum (curVol s2))].
    slot. split; [reflexivity | split; [reflexivity | ]].
    split; [constructor; [now split | constructor] | ].
    unfold same_breaths. slot.
    split; [exact Htrig | split; [reflexivity | ]].
    split.
    { exists [], [], []. repeat split; constructor. }
    split; [now apply deque_append_Forall2 | ].
    apply mean_Forall2. now apply deque_append_Forall2.
  - rewrite (volBreath_hold now n s1 Hf1 Hn1).
    rewrite (volBreath_hold now n s2 Hflag Hn2).
    exists [], []. slot. rewrite !app_nil_r.
    split; [reflexivity | split; [reflexivity | ]].
    split; [constructor | ].
    unfold same_breaths. slot.
    split; [exact Htrig | split; [now rewrite Hf1, Hflag | ]].
    split; [ | now split].
    exists z1, z2, (l ++ [contribution n]).
    split; [exact Hz1 | split; [exact Hz2 | ]].
    rewrite Hc1, Hc2, !deque_append_lastn, !lastn_lastn_app, !app_assoc.
    now split.
  - rewrite (volBreath_idle now n s1 Hf1 Hn1).
    rewrite (volBreath_idle now n s2 Hflag Hn2).
    exists [], []. slot. rewrite !app_nil_r.
    split; [reflexivity | split; [reflexivity | ]].
    split; [constructor | ].
    split; [exact Htrig | split; [now rewrite Hf1, Hflag | ]].
    split; [ | now split].
    now exists z1, z2, l.
  - rewrite (volBreath_open now n s1 Hf1 Hn1).
    rewrite (volBreath_open now n s2 Hflag Hn2).
    exists [], []. slot. rewrite !app_nil_r.
    split; [reflexivity | split; [reflexivity | ]].
    split; [constructor | ].
    unfold same_breaths. slot.
    split; [exact Htrig | split; [reflexivity | ]].
    split; [ | now split].
    exists z1, z2, (l ++ [contribution n; contribution n]).
    split; [exact Hz1 | split; [exact Hz2 | ]].
    rewrite Hc1, Hc2, !deque_append_lastn, !lastn_lastn_app.
    rewrite <- !app_assoc, !lastn_lastn_app, <- !app_assoc. now split.
Qed.

Lemma run_flow_same_breaths (rs : list (Z * Q)) :
  forall s1 s2 : MainUI,
    same_breaths s1 s2 ->
    exists R1 R2,
      saveLog (after (run (map flow rs)) s1) = saveLog s1 ++ R1
      /\ saveLog (after (run (map flow rs)) s2) = saveLog s2 ++ R2
      /\ Forall2 row_equiv R1 R2
      /\ same_breaths (after (run (map flow rs)) s1)
           (after (run (map flow rs)) s2).
Proof.
  induction rs as [ | [t n] rs IH]; intros s1 s2 H.
  - exists [], []. unfold after. simpl. rewrite !app_nil_r.
    repeat split; try constructor; apply H.
  - destruct (volBreath_same_breaths t n s1 s2 H)
      as (R1 & R2 & L1 & L2 & HR & H').
    unfold after in *. simpl map. rewrite !run_cons. simpl handle.
    rewrite !dataUpdate_flow.
    pose proof (volBreath_returns t n s1) as Hok1.
    pose proof (volBreath_returns t n s2) as Hok2.
    destruct (volBreath t n s1) as [s1' [[] | x1]]; [ | discriminate].
    destruct (volBreath t n s2) as [s2' [[] | x2]]; [ | discriminate].
    simpl in L1, L2, H'.
    destruct (IH s1' s2' H') as (R1' & R2' & L1' & L2' & HR' & H'').
    exists (R1 ++ R1'), (R2 ++ R2').
    split; [now rewrite L1', L1, app_assoc | ].
    split; [now rewrite L2', L2, app_assoc | ].
    split; [now apply Forall2_app | exact H''].
Qed.

(** When the reset button is pressed while the breath buffer holds nothing
    but zeros (as after construction or between two breaths), the flow
    readings that follow write the same rows (same clock times, equal
    volumes), build the same history of volumes and show the same average
    as they do on a new window with the same trigger. *)
Theorem reset_between_breaths_is_fresh
    (s : MainUI) (rs : list (Z * Q)) (t : Z) :
  forallb (fun c => Qeq_bool c 0) (curVol s) = true ->
  (length (curVol s) <= 500)%nat ->
  floTrig s == floTrig (init t) ->
  let s1 := after (run (map flow rs)) (after resetAvg s) in
  let s2 := after (run (map flow rs)) (init t) in
  Forall2 row_equiv (skipn (length (saveLog s)) (saveLog s1)) (saveLog s2)
  /\ Forall2 Qeq (volBreathsQ s1) (volBreathsQ s2)
  /\ tabAvg_label_vol s1 == tabAvg_label_vol s2.
Proof.
  intros Hz Hlen Htrig s1 s2.
  assert (Hz' : all_zero (curVol s)).
  { apply Forall_forall. intros c Hc.
    rewrite forallb_forall in Hz. now apply Qeq_bool_iff, Hz. }
  assert (H : same_breaths (after resetAvg s) (init t)).
  { unfold same_breaths, after. simpl.
    split; [exact Htrig | split; [reflexivity | ]].
    split; [ | split; [constructor | reflexivity]].
    exists (curVol s), [0], [].
    split; [exact Hz' | split; [repeat constructor | ]].
    rewrite app_nil_r. split; [ | reflexivity].
    symmetry. now apply lastn_all. }
  destruct (run_flow_same_breaths rs _ _ H)
    as (R1 & R2 & L1 & L2 & HR & (_ & _ & _ & HQ & HA)).
  fold s1 in L1, HQ, HA. fold s2 in L2, HQ, HA.
  split; [ | now split].
  rewrite L1, L2. change (saveLog (after resetAvg s)) with (saveLog s).
  change (saveLog (init t)) with (@nil Row).
  rewrite skipn_app, skipn_all, Nat.sub_diag. exact HR.
Qed.

Lemma reset_between_breaths_is_fresh_witness :
  let s := after (run (map flow [(10000%Z, 15); (20000%Z, 3)])) (init 0) in
  let rs := [(50000%Z, 12); (100000%Z, 14); (150000%Z, 0)] in
  forallb (fun c => Qeq_bool c 0) (curVol s) = true
  /\ (length (curVol s) <= 500)%nat
  /\ floTrig s == floTrig (init 7)
  /\ let s1 := after (run (map flow rs)) (after resetAvg s) in
     let s2 := after (run (map flow rs)) (init 7) in
     Forall2 row_equiv (skipn (length (saveLog s)) (saveLog s1)) (saveLog s2)
     /\ Forall2 Qeq (volBreathsQ s1) (volBreathsQ s2)
     /\ tabAvg_label_vol s1 == tabAvg_label_vol s2.
Proof.
  intros s rs.
  split; [reflexivity | split; [simpl; lia | split; [reflexivity | ]]].
  apply (reset_between_breaths_is_fresh s rs 7);
    [reflexivity | simpl; lia | reflexivity].
Defined.

(** ** Instances of the lemmas on one breath *)

Lemma single_crossing_witness :
  let pre := [(10000%Z, 2); (20000%Z, 9)] in
  let rs := [(40000%Z, 14); (50000%Z, 11)] in
  let post := [(70000%Z, 1)] in
  let s := init 0 in
  volFlag s = false
  /\ forallb (fun r => lt (snd r) (floTrig s)) pre = true
  /\ forallb (fun r => ge (snd r) (floTrig s)) ((30000%Z, 12) :: rs) = true
  /\ 3 < floTrig s
  /\ forallb (fun r => lt (snd r) (floTrig s)) post = true
  /\ let c :=
       run (map flow pre ++ map flow ((30000%Z, 12) :: rs)
              ++ flow (60000%Z, 3) :: map flow post) in
     let held :=
       lastn 500
         (curVol s ++ contribution 12
            :: map (fun r => contribution (snd r)) ((30000%Z, 12) :: rs)) in
     snd (c s) = Ok tt
     /\ saveLog (after c s) = saveLog s ++ [VolRow 60000 (sum held)].
Proof.
  intros pre rs post s.
  split; [reflexivity | ].
  split; [reflexivity | ].
  split; [reflexivity | ].
  split; [reflexivity | ].
  split; [reflexivity | ].
  apply (single_crossing pre 30000 12 rs 60000 3 post s); reflexivity.
Defined.

Lemma short_breath_volume_witness :
  let rs := [(40000%Z, 14); (50000%Z, 11)] in
  let s := init 0 in
  volFlag s = false
  /\ forallb (fun r => ge (snd r) (floTrig s)) ((30000%Z, 12) :: rs) = true
  /\ 3 < floTrig s
  /\ (length (curVol s) + length rs + 2 <= 500)%nat
  /\ exists v,
       saveLog
         (after (run (map flow ((30000%Z, 12) :: rs) ++ [flow (60000%Z, 3)])) s)
       = saveLog s ++ [VolRow 60000 v]
       /\ v == sum (curVol s) + contribution 12
               + sum (map (fun r => contribution (snd r))
                        ((30000%Z, 12) :: rs)).
Proof.
  intros rs s.
  split; [reflexivity | ].
  split; [reflexivity | ].
  split; [reflexivity | ].
  split; [simpl; lia | ].
  apply (short_breath_volume 30000 12 rs 60000 3 s);
    [reflexivity | reflexivity | reflexivity | simpl; lia].
Defined.

(** * The sensor workers *)

Section FlowWorkerFacts.

Variable V : Type.
Variable float : String.string -> option V.
Variable zero : V.

Local Abbreviation cycle := (FlowSensorWorker.cycle V float zero).
Local Abbreviation cycles := (FlowSensorWorker.cycles V float zero).
Local Abbreviation run := (FlowSensorWorker.run V float zero).
Local Abbreviation handler := (FlowSensorWorker.handler V float zero).
Local Abbreviation reading := (FlowSensorWorker.reading V float).
Local Abbreviation delivered := (FlowSensorWorker.delivered V float).
Local Abbreviation convertible := (FlowSensorWorker.convertible V float).
Local Abbreviation requests := (FlowSensorWorker.requests V).
Local Abbreviation values := (FlowSensorWorker.values V).
Local Abbreviation float_of_item := (FlowSensorWorker.float_of_item V float zero).

Lemma flow_handler_keeps (count : Z) (old : list FlowSensorWorker.Item)
    (out : list (FlowSensorWorker.Signal V)) (st : Z * list FlowSensorWorker.Item) :
  handler count old = (out, Some st) ->
  st = (count, old) /\ requests out = 0%Z
  /\ exists item v,
       index_neg old 1 = Ok item /\ float_of_item item = Some v
       /\ out = [FlowSensorWorker.NewData V v].
Proof.
  unfold FlowSensorWorker.handler.
  destruct (index_neg old 1) as [item | e]; [ | discriminate].
  destruct (float_of_item item) as [v | ] eqn:E; [ | discriminate].
  intros [= <- <-]. repeat split. now exists item, v.
Qed.

Lemma requests_app (a b : list (FlowSensorWorker.Signal V)) :
  requests (a ++ b) = (requests a + requests b)%Z.
Proof.
  unfold FlowSensorWorker.requests. rewrite filter_app, length_app. lia.
Qed.

Lemma values_app (a b : list (FlowSensorWorker.Signal V)) :
  values (a ++ b) = values a ++ values b.
Proof.
  induction a as [ | [ | v] a IH]; simpl; [reflexivity | exact IH | ].
  now rewrite IH.
Qed.

(** The [try] statement of a cycle entered with counter [k]. *)
Lemma flow_try_count (c : FlowSensorWorker.Cycle) (k k' : Z)
    (old old' : list FlowSensorWorker.Item)
    (o : list (FlowSensorWorker.Signal V)) :
  match FlowSensorWorker.recv c with
  | Some (tok :: _) =>
      match float tok with
      | Some v =>
          ([FlowSensorWorker.NewData V v],
           Some ((k - 1)%Z,
                 deque_append 5 old (FlowSensorWorker.Str tok)))
      | None =>
          handler k (deque_append 5 old (FlowSensorWorker.Str tok))
      end
  | _ => handler k old
  end = (o, Some (k', old')) ->
  requests o = 0%Z /\ k = ((if delivered c then 1 else 0) + k')%Z.
Proof.
  unfold FlowSensorWorker.delivered, FlowSensorWorker.reading.
  destruct (FlowSensorWorker.recv c) as [[ | tok toks] | ].
  - intros E. apply flow_handler_keeps in E as (E & Hr & _).
    injection E as -> ->. split; [exact Hr | lia].
  - destruct (float tok) as [v | ].
    + intros [= <- <- <-]. split; [reflexivity | lia].
    + intros E. apply flow_handler_keeps in E as (E & Hr & _).
      injection E as -> ->. split; [exact Hr | lia].
  - intros E. apply flow_handler_keeps in E as (E & Hr & _).
    injection E as -> ->. split; [exact Hr | lia].
Qed.

(** One cycle: the request counter. *)
Lemma flow_cycle_count (c : FlowSensorWorker.Cycle) (count count' : Z)
    (old old' : list FlowSensorWorker.Item)
    (out : list (FlowSensorWorker.Signal V)) :
  cycle c (count, old) = (out, Some (count', old')) ->
  (0 <= count <= 250)%Z ->
  (0 <= count' <= 250)%Z
  /\ (250 * requests out + count
      = (if delivered c then 1 else 0) + count')%Z.
Proof.
  unfold FlowSensorWorker.cycle. intros H Hc.
  destruct ((count <? 1)%Z && negb (FlowSensorWorker.sendall_ok c));
    [discriminate | ].
  match type of H with
  | (let '(_, _) := ?body in _) = _ => destruct body as [o r] eqn:E
  end.
  injection H as Hout Hr. subst out r.
  apply flow_try_count in E as [Ho Hk]. rewrite requests_app, Ho.
  destruct (count <? 1)%Z eqn:Hdue;
    [apply Z.ltb_lt in Hdue | apply Z.ltb_ge in Hdue];
    destruct (delivered c);
    unfold FlowSensorWorker.requests; cbn [filter length]; lia.
Qed.

Lemma flow_cycles_cons (c : FlowSensorWorker.Cycle)
    (cs : list FlowSensorWorker.Cycle) (st : Z * list FlowSensorWorker.Item) :
  cycles (c :: cs) st
  = match cycle c st with
    | (out, Some st') =>
        let '(out', r) := cycles cs st' in (out ++ out', r)
    | (out, None) => (out, None)
    end.
Proof. reflexivity. Qed.

Lemma flow_cycles_count (cs : list FlowSensorWorker.Cycle) :
  forall (count count' : Z) (old old' : list FlowSensorWorker.Item)
         (out : list (FlowSensorWorker.Signal V)),
    cycles cs (count, old) = (out, Some (count', old')) ->
    (0 <= count <= 250)%Z ->
    (0 <= count' <= 250)%Z
    /\ (250 * requests out + count
        = Z.of_nat (length (filter delivered cs)) + count')%Z.
Proof.
  induction cs as [ | c cs IH]; intros count count' old old' out H Hc.
  - injection H as <- <- <-. simpl. lia.
  - rewrite flow_cycles_cons in H.
    destruct (cycle c (count, old)) as [o [[k m] | ]] eqn:E;
      [ | discriminate].
    destruct (cycles cs (k, m)) as [o' r'] eqn:E'.
    injection H as Hout Hr. subst out r'.
    destruct (flow_cycle_count c count k old m o E Hc) as [Hk Hstep].
    destruct (IH k count' m old' o' E' Hk) as [Hk' Hrest].
    split; [exact Hk' | ]. rewrite requests_app. simpl filter.
    destruct (delivered c); simpl length; lia.
Qed.

(** The flow worker asks the meter for a batch at its first cycle and
    again after every 250 delivered readings, no sooner and no later: as
    long as the thread lives, 250 times the number of requests sent, less
    the number of readings delivered, is the counter, between 0 and
    250. *)
Theorem flow_worker_requests_every_250_readings
    (cs : list FlowSensorWorker.Cycle) (old old' : list FlowSensorWorker.Item)
    (out : list (FlowSensorWorker.Signal V)) (count : Z) :
  run cs old = (out, Some (count, old')) ->
  (0 <= count <= 250)%Z
  /\ (250 * requests out
      = Z.of_nat (length (filter delivered cs)) + count)%Z.
Proof.
  intros H. unfold FlowSensorWorker.run in H.
  destruct (flow_cycles_count cs 0 count old old' out H) as [Hc Heq];
    [lia | ].
  split; [exact Hc | lia].
Qed.

(** One cycle whose text, if any, converts: the value emitted. *)
Lemma flow_cycle_value (c : FlowSensorWorker.Cycle) (count : Z)
    (old : list FlowSensorWorker.Item) (item : FlowSensorWorker.Item)
    (v0 : V) :
  FlowSensorWorker.sendall_ok c = true ->
  convertible c = true ->
  index_neg old 1 = Ok item -> float_of_item item = Some v0 ->
  exists out count' old' item' v,
    cycle c (count, old) = (out, Some (count', old'))
    /\ values out = [v]
    /\ hold_last v0 [reading c] = [v]
    /\ index_neg old' 1 = Ok item' /\ float_of_item item' = Some v.
Proof.
  intros Hsend Hconv Hold Hitem.
  unfold FlowSensorWorker.cycle, FlowSensorWorker.convertible,
    FlowSensorWorker.reading in *.
  rewrite Hsend. rewrite andb_false_r.
  assert (Hh : forall k, handler k old
                         = ([FlowSensorWorker.NewData V v0], Some (k, old))).
  { intros k. unfold FlowSensorWorker.handler. now rewrite Hold, Hitem. }
  destruct (FlowSensorWorker.recv c) as [[ | tok toks] | ].
  - rewrite Hh. do 3 eexists. exists item, v0.
    split; [reflexivity | ]. rewrite values_app.
    destruct (count <? 1)%Z; simpl; auto.
  - destruct (float tok) as [v | ] eqn:E; [ | discriminate].
    do 3 eexists. exists (FlowSensorWorker.Str tok), v.
    split; [reflexivity | ]. rewrite values_app.
    rewrite deque_append_nonempty by lia.
    destruct (count <? 1)%Z; simpl; auto.
  - rewrite Hh. do 3 eexists. exists item, v0.
    split; [reflexivity | ]. rewrite values_app.
    destruct (count <? 1)%Z; simpl; auto.
Qed.

Lemma hold_last_cons (v0 : V) (r : option V) (rs : list (option V)) (v : V) :
  hold_last v0 [r] = [v] -> hold_last v0 (r :: rs) = v :: hold_last v rs.
Proof.
  destruct r as [w | ]; simpl; now intros [= ->].
Qed.

Lemma flow_cycles_values (cs : list FlowSensorWorker.Cycle) :
  forall (count : Z) (old : list FlowSensorWorker.Item)
         (item : FlowSensorWorker.Item) (v0 : V),
    forallb FlowSensorWorker.sendall_ok cs = true ->
    forallb convertible cs = true ->
    index_neg old 1 = Ok item -> float_of_item item = Some v0 ->
    exists out count' old' item' v,
      cycles cs (count, old) = (out, Some (count', old'))
      /\ values out = hold_last v0 (map reading cs)
      /\ index_neg old' 1 = Ok item' /\ float_of_item item' = Some v.
Proof.
  induction cs as [ | c cs IH]; intros count old item v0 Hsend Hconv Hold Hitem.
  - exists [], count, old, item, v0. now repeat split.
  - simpl in Hsend, Hconv.
    apply andb_true_iff in Hsend as [Hs Hsend].
    apply andb_true_iff in Hconv as [Hc Hconv].
    destruct (flow_cycle_value c count old item v0 Hs Hc Hold Hitem)
      as (o & k & m & item1 & v1 & E & Hv & Hh & Hold1 & Hitem1).
    destruct (IH k m item1 v1 Hsend Hconv Hold1 Hitem1)
      as (o' & k' & m' & item' & v' & E' & Hv' & Hold' & Hitem').
    exists (o ++ o'), k', m', item', v'. rewrite flow_cycles_cons, E, E'.
    split; [reflexivity | ]. rewrite values_app, Hv, Hv'.
    split; [ | now split].
    simpl map. now rewrite (hold_last_cons v0 (reading c) _ v1 Hh).
Qed.

(** While the connection accepts the requests and every matched text is
    one [float] accepts, the flow worker never dies and emits exactly one
    value per cycle: the reading of the cycle, or, when the cycle
    delivers none ([recv] fails, nothing matches), the last reading
    delivered before it, which is the newest item of [oldData] at the
    start when there is none. *)
Theorem flow_worker_repeats_last_reading
    (cs : list FlowSensorWorker.Cycle) (old : list FlowSensorWorker.Item)
    (item : FlowSensorWorker.Item) (v0 : V) :
  forallb FlowSensorWorker.sendall_ok cs = true ->
  forallb convertible cs = true ->
  index_neg old 1 = Ok item -> float_of_item item = Some v0 ->
  exists out st,
    run cs old = (out, Some st)
    /\ values out = hold_last v0 (map reading cs)
    /\ length (values out) = length cs.
Proof.
  intros Hsend Hconv Hold Hitem.
  destruct (flow_cycles_values cs 0 old item v0 Hsend Hconv Hold Hitem)
    as (out & k & m & _ & _ & E & Hv & _).
  exists out, (k, m). split; [exact E | ]. split; [exact Hv | ].
  rewrite Hv. clear. revert v0.
  induction cs as [ | c cs IH]; intros v0; [reflexivity | ].
  simpl. destruct (reading c); simpl; now rewrite IH.
Qed.

Lemma flow_cycles_app (cs1 cs2 : list FlowSensorWorker.Cycle) :
  forall st : Z * list FlowSensorWorker.Item,
    cycles (cs1 ++ cs2) st
    = match cycles cs1 st with
      | (out, Some st') =>
          let '(out', r) := cycles cs2 st' in (out ++ out', r)
      | (out, None) => (out, None)
      end.
Proof.
  induction cs1 as [ | c cs1 IH]; intros st.
  - simpl. now destruct (cycles cs2 st).
  - simpl app. rewrite !flow_cycles_cons.
    destruct (cycle c st) as [o [st1 | ]]; [ | reflexivity].
    rewrite IH. destruct (cycles cs1 st1) as [o1 [st2 | ]]; [ | reflexivity].
    destruct (cycles cs2 st2) as [o2 r2]. now rewrite app_assoc.
Qed.

(** A matched text that [float] rejects ends the flow worker: the text
    has been appended to [oldData] before the conversion fails, and the
    [except] branch converts that same text again.  The cycle emits
    nothing, and no later cycle runs. *)
Theorem flow_worker_dies_on_unconvertible_text
    (cs1 cs2 : list FlowSensorWorker.Cycle) (c : FlowSensorWorker.Cycle)
    (tok : String.string) (toks : list String.string)
    (old : list FlowSensorWorker.Item) (item : FlowSensorWorker.Item)
    (v0 : V) :
  forallb FlowSensorWorker.sendall_ok cs1 = true ->
  forallb convertible cs1 = true ->
  index_neg old 1 = Ok item -> float_of_item item = Some v0 ->
  FlowSensorWorker.recv c = Some (tok :: toks) -> float tok = None ->
  snd (run (cs1 ++ c :: cs2) old) = None
  /\ values (fst (run (cs1 ++ c :: cs2) old))
     = hold_last v0 (map reading cs1).
Proof.
  intros Hsend Hconv Hold Hitem Hrecv Hbad.
  destruct (flow_cycles_values cs1 0 old item v0 Hsend Hconv Hold Hitem)
    as (out & k & m & _ & _ & E & Hv & _).
  assert (Hc : exists o, cycle c (k, m) = (o, None) /\ values o = []).
  { unfold FlowSensorWorker.cycle. rewrite Hrecv, Hbad.
    unfold FlowSensorWorker.handler.
    rewrite deque_append_nonempty by lia.
    cbn [FlowSensorWorker.float_of_item]. rewrite Hbad.
    destruct ((k <? 1)%Z && negb (FlowSensorWorker.sendall_ok c));
      [now exists [] | ].
    destruct (k <? 1)%Z; eexists; split; reflexivity. }
  destruct Hc as (o & Ec & Ho).
  unfold FlowSensorWorker.run.
  rewrite flow_cycles_app, E, flow_cycles_cons, Ec. cbn [fst snd].
  split; [reflexivity | ]. now rewrite values_app, Ho, app_nil_r.
Qed.

End FlowWorkerFacts.

Lemma flow_worker_requests_every_250_readings_witness :
  let cs :=
    [FlowSensorWorker.mkCycle true (Some ["12.50"%string]);
     FlowSensorWorker.mkCycle true None;
     FlowSensorWorker.mkCycle true (Some ["7.25"%string; "12.50"%string])] in
  let old := [FlowSensorWorker.Float0] in
  let out :=
    [FlowSensorWorker.Sendall Q; FlowSensorWorker.NewData Q (25 # 2);
     FlowSensorWorker.NewData Q (25 # 2); FlowSensorWorker.NewData Q (29 # 4)] in
  let old' :=
    [FlowSensorWorker.Float0; FlowSensorWorker.Str "12.50"%string;
     FlowSensorWorker.Str "7.25"%string] in
  FlowSensorWorker.run Q float_table 0 cs old = (out, Some (248%Z, old'))
  /\ (0 <= 248 <= 250)%Z
  /\ (250 * FlowSensorWorker.requests Q out
      = Z.of_nat (length (filter (FlowSensorWorker.delivered Q float_table) cs))
        + 248)%Z.
Proof.
  intros cs old out old'. split; [reflexivity | ].
  apply (flow_worker_requests_every_250_readings Q float_table 0 cs old old').
  reflexivity.
Defined.

Lemma flow_worker_repeats_last_reading_witness :
  let cs :=
    [FlowSensorWorker.mkCycle true None;
     FlowSensorWorker.mkCycle true (Some ["12.50"%string]);
     FlowSensorWorker.mkCycle true (Some []);
     FlowSensorWorker.mkCycle true (Some ["7.25"%string])] in
  let old := [FlowSensorWorker.Float0] in
  forallb FlowSensorWorker.sendall_ok cs = true
  /\ forallb (FlowSensorWorker.convertible Q float_table) cs = true
  /\ index_neg old 1 = Ok FlowSensorWorker.Float0
  /\ FlowSensorWorker.float_of_item Q float_table 0 FlowSensorWorker.Float0
     = Some 0
  /\ exists out st,
       FlowSensorWorker.run Q float_table 0 cs old = (out, Some st)
       /\ FlowSensorWorker.values Q out
          = hold_last 0 (map (FlowSensorWorker.reading Q float_table) cs)
       /\ length (FlowSensorWorker.values Q out) = length cs.
Proof.
  intros cs old.
  split; [reflexivity | split; [reflexivity | ]].
  split; [reflexivity | split; [reflexivity | ]].
  apply (flow_worker_repeats_last_reading Q float_table 0 cs old
           FlowSensorWorker.Float0 0); reflexivity.
Defined.

Lemma flow_worker_dies_on_unconvertible_text_witness :
  let cs1 := [FlowSensorWorker.mkCycle true (Some ["12.50"%string])] in
  let c := FlowSensorWorker.mkCycle true (Some ["1,5"%string]) in
  let cs2 := [FlowSensorWorker.mkCycle true (Some ["7.25"%string])] in
  let old := [FlowSensorWorker.Float0] in
  forallb FlowSensorWorker.sendall_ok cs1 = true
  /\ forallb (FlowSensorWorker.convertible Q float_table) cs1 = true
  /\ index_neg old 1 = Ok FlowSensorWorker.Float0
  /\ FlowSensorWorker.float_of_item Q float_table 0 FlowSensorWorker.Float0
     = Some 0
  /\ FlowSensorWorker.recv c = Some ["1,5"%string]
  /\ float_table "1,5"%string = None
  /\ snd (FlowSensorWorker.run Q float_table 0 (cs1 ++ c :: cs2) old) = None
  /\ FlowSensorWorker.values Q
       (fst (FlowSensorWorker.run Q float_table 0 (cs1 ++ c :: cs2) old))
     = hold_last 0 (map (FlowSensorWorker.reading Q float_table) cs1).
Proof.
  intros cs1 c cs2 old.
  split; [reflexivity | split; [reflexivity | ]].
  split; [reflexivity | split; [reflexivity | ]].
  split; [reflexivity | split; [reflexivity | ]].
  apply (flow_worker_dies_on_unconvertible_text Q float_table 0 cs1 cs2 c
           "1,5"%string [] old FlowSensorWorker.Float0 0); reflexivity.
Defined.

Section CoWorkerFacts.

Variable int : String.string -> option Z.
Variable emits : Z -> bool.

Local Abbreviation co_cycle := (CoSensorWorker.cycle int emits).
Local Abbreviation co_run := (CoSensorWorker.run int emits).
Local Abbreviation co_reading := (CoSensorWorker.reading int emits).

(** One cycle on a healthy port. *)
Lemma co2_cycle_value (c : CoSensorWorker.Cycle) (old : list Z) (v0 : Z) :
  CoSensorWorker.port_healthy c = true ->
  index_neg old 1 = Ok v0 -> emits v0 = true ->
  exists old' v,
    co_cycle c old = ([v], Some old')
    /\ hold_last v0 [co_reading c] = [v]
    /\ index_neg old' 1 = Ok v /\ emits v = true.
Proof.
  intros Hport Hold Hv0.
  apply andb_true_iff in Hport as [Hr1 Hr2].
  assert (Hh : CoSensorWorker.handler emits c old [] = ([v0], Some old)).
  { unfold CoSensorWorker.handler. now rewrite Hold, Hv0, Hr2. }
  unfold CoSensorWorker.cycle, CoSensorWorker.reading.
  destruct (CoSensorWorker.readline c) as [[ | t1 [ | tok toks]] | ];
    try (exists old, v0; now rewrite Hh).
  destruct (int tok) as [k | ]; [ | exists old, v0; now rewrite Hh].
  destruct (emits (k * 10)%Z) eqn:E; [ | exists old, v0; now rewrite Hh].
  rewrite Hr1. exists (deque_append 5 old (k * 10)%Z), (k * 10)%Z.
  rewrite deque_append_nonempty by lia. now repeat split.
Qed.

(** While [reset_input_buffer] keeps returning, the CO2 worker never dies
    and emits exactly one value per cycle: ten times the second number of
    the line read, or, when the cycle delivers none (the read fails, the
    line has fewer than two numbers, the value is not accepted), the last
    value delivered before it, which is the newest item of [oldData] at
    the start when there is none. *)
Theorem co2_worker_repeats_last_reading
    (cs : list CoSensorWorker.Cycle) (old : list Z) (v0 : Z) :
  forallb CoSensorWorker.port_healthy cs = true ->
  index_neg old 1 = Ok v0 -> emits v0 = true ->
  exists old',
    co_run cs old = (hold_last v0 (map co_reading cs), Some old')
    /\ length (hold_last v0 (map co_reading cs)) = length cs.
Proof.
  revert old v0. induction cs as [ | c cs IH]; intros old v0 Hport Hold Hv0.
  - exists old. now split.
  - simpl in Hport. apply andb_true_iff in Hport as [Hc Hport].
    destruct (co2_cycle_value c old v0 Hc Hold Hv0)
      as (old1 & v & E & Hh & Hold1 & Hv).
    destruct (IH old1 v Hport Hold1 Hv) as (old' & E' & Hlen).
    exists old'. simpl CoSensorWorker.run. rewrite E, E'. simpl map.
    destruct (co_reading c) as [w | ]; simpl in Hh |- *;
      injection Hh as ->; (split; [reflexivity | now rewrite Hlen]).
Qed.

End CoWorkerFacts.

Lemma co2_worker_repeats_last_reading_witness :
  let cs :=
    [CoSensorWorker.mkCycle (Some ["0"%string; "4100"%string]) true true;
     CoSensorWorker.mkCycle None true true;
     CoSensorWorker.mkCycle (Some ["4150"%string]) true true;
     CoSensorWorker.mkCycle (Some ["0"%string; "4150"%string]) true true] in
  let emits := fun v : Z => (v <? 2 ^ 1024)%Z in
  forallb CoSensorWorker.port_healthy cs = true
  /\ index_neg [0%Z] 1 = Ok 0%Z
  /\ emits 0%Z = true
  /\ map (CoSensorWorker.reading int_table emits) cs
     = [Some 41000%Z; None; None; Some 41500%Z]
  /\ fst (CoSensorWorker.run int_table emits cs [0%Z])
     = [41000%Z; 41000%Z; 41000%Z; 41500%Z]
  /\ exists old',
       CoSensorWorker.run int_table emits cs [0%Z]
       = (hold_last 0%Z (map (CoSensorWorker.reading int_table emits) cs),
          Some old')
       /\ length (hold_last 0%Z
                    (map (CoSensorWorker.reading int_table emits) cs))
          = length cs.
Proof.
  intros cs emits.
  split; [reflexivity | split; [reflexivity | split; [reflexivity | ]]].
  split; [reflexivity | split; [reflexivity | ]].
  apply (co2_worker_repeats_last_reading int_table emits cs [0%Z] 0%Z);
    reflexivity.
Defined.

(** * The save file *)

Section SaveFileFacts.

Variable R : Type.
Variable openable : String.string -> bool.
Variable resolve : String.string -> String.string.

Local Abbreviation start_file := (SaveFile.start_file R openable resolve).
Local Abbreviation newSave := (SaveFile.newSave R openable resolve).
Local Abbreviation stopSave := (SaveFile.stopSave R openable resolve).
Local Abbreviation setupSave := (SaveFile.setupSave R openable resolve).
Local Abbreviation writerow := (SaveFile.writerow R openable resolve).
Local Abbreviation execs := (SaveFile.execs R openable resolve).
Local Abbreviation files := (SaveFile.files R).
Local Abbreviation saveName := (SaveFile.saveName R).
Local Abbreviation Header := (SaveFile.Header R).
Local Abbreviation Row := (SaveFile.Row R).
Local Abbreviation Log := (SaveFile.Log R).
Local Abbreviation NewSave := (SaveFile.NewSave R).
Local Abbreviation StopSave := (SaveFile.StopSave R).

(** Choosing, as the save file, a name other than the default one whose
    file exists changes no file: it is opened for appending and nothing
    is written, so what it holds is kept. *)
Theorem newSave_keeps_existing_file
    (text : String.string) (st : SaveFile.State R)
    (ls : list (SaveFile.Line R)) :
  text <> "SaveLog.csv"%string ->
  files st (resolve text) = Some ls ->
  saveName (newSave text st) = text
  /\ forall f, files (newSave text st) f = files st f.
Proof.
  intros Hname Hfile. apply String.eqb_neq in Hname.
  unfold SaveFile.newSave, SaveFile.start_file.
  rewrite Hfile, Hname. simpl. destruct (openable text); now split.
Qed.

Lemma start_default (fs : SaveFile.Files R) :
  openable "SaveLog.csv"%string = true ->
  start_file "SaveLog.csv"%string fs
  = Some (SaveFile.write_file R resolve "SaveLog.csv"%string [Header] fs).
Proof.
  intros Hopen. unfold SaveFile.start_file.
  rewrite String.eqb_refl, orb_true_r, Hopen. reflexivity.
Qed.

(** The default file never survives: whenever the program starts
    ([setupSave] with the constructor's name), whenever a recording is
    stopped ([stopSave]) and whenever the default name is chosen again
    ([newSave]), [SaveLog.csv] is opened in mode ['w'] and holds the
    header alone afterwards, whatever it held before; the other files
    are left as they are. *)
Theorem default_file_is_always_restarted (st : SaveFile.State R) :
  openable "SaveLog.csv"%string = true ->
  (exists st',
     stopSave st = Some st'
     /\ saveName st' = "SaveLog.csv"%string
     /\ files st' (resolve "SaveLog.csv"%string) = Some [Header]
     /\ forall f, f <> resolve "SaveLog.csv"%string ->
                  files st' f = files st f)
  /\ files (newSave "SaveLog.csv"%string st) (resolve "SaveLog.csv"%string)
     = Some [Header]
  /\ (saveName st = "SaveLog.csv"%string ->
      exists st',
        setupSave st = Some st'
        /\ files st' (resolve "SaveLog.csv"%string) = Some [Header]).
Proof.
  intros Hopen. split; [ | split].
  - unfold SaveFile.stopSave. rewrite (start_default _ Hopen).
    eexists. split; [reflexivity | ]. simpl.
    split; [reflexivity | ]. unfold SaveFile.write_file.
    split; [now rewrite String.eqb_refl | ].
    intros f Hf. apply String.eqb_neq in Hf. now rewrite Hf.
  - unfold SaveFile.newSave. rewrite (start_default _ Hopen). simpl.
    unfold SaveFile.write_file. now rewrite String.eqb_refl.
  - intros Hname. unfold SaveFile.setupSave.
    rewrite Hname, (start_default _ Hopen).
    eexists. split; [reflexivity | ]. simpl.
    unfold SaveFile.write_file. now rewrite String.eqb_refl.
Qed.

(** Rows logged while the save file exists and can be opened go to the
    end of that file and nowhere else. *)
Lemma execs_logs (rows : list R) :
  forall (st : SaveFile.State R) (ls : list (SaveFile.Line R)),
    openable (saveName st) = true ->
    files st (resolve (saveName st)) = Some ls ->
    exists st',
      execs (map Log rows) st = Some st'
      /\ saveName st' = saveName st
      /\ files st' (resolve (saveName st)) = Some (ls ++ map Row rows)
      /\ forall f, f <> resolve (saveName st) -> files st' f = files st f.
Proof.
  induction rows as [ | r rows IH]; intros st ls Hopen Hfile.
  - exists st. simpl. rewrite app_nil_r. now repeat split.
  - simpl. unfold SaveFile.writerow. rewrite Hopen, Hfile.
    set (st1 := SaveFile.mkState R _ _).
    destruct (IH st1 (ls ++ [Row r]) Hopen) as (st' & E & Hn & Hf & Hother).
    { simpl. unfold SaveFile.write_file. now rewrite String.eqb_refl. }
    exists st'. split; [exact E | ]. split; [exact Hn | ].
    simpl in Hf, Hother. unfold SaveFile.write_file in Hother.
    split; [now rewrite Hf, <- app_assoc | ].
    intros f Hneq. rewrite (Hother f Hneq).
    apply String.eqb_neq in Hneq. now rewrite Hneq.
Qed.

(** A recording that is stopped and taken up again under the same name
    continues its file, provided the name does not denote the default
    file: after [newSave], rows, [stopSave], [newSave] with the same
    name, and more rows, the file holds what it held before the first
    [newSave] (the header alone, when it did not exist), then all the
    rows in the order they were logged; the default file holds the header
    alone. *)
Theorem resumed_recording_continues_its_file
    (text : String.string) (rows1 rows2 : list R) (st : SaveFile.State R) :
  resolve text <> resolve "SaveLog.csv"%string ->
  openable text = true -> openable "SaveLog.csv"%string = true ->
  exists st',
    execs (NewSave text :: map Log rows1
             ++ StopSave :: NewSave text :: map Log rows2) st
    = Some st'
    /\ saveName st' = text
    /\ files st' (resolve text)
       = Some (match files st (resolve text) with
               | Some ls => ls
               | None => [Header]
               end ++ map Row rows1 ++ map Row rows2)
    /\ files st' (resolve "SaveLog.csv"%string) = Some [Header].
Proof.
  intros Hfile Hopen Hdef.
  assert (Hname : text <> "SaveLog.csv"%string).
  { intros E. apply Hfile. now rewrite E. }
  assert (Hneq : String.eqb text "SaveLog.csv" = false)
    by now apply String.eqb_neq.
  assert (Hfile' : resolve "SaveLog.csv"%string <> resolve text).
  { intros E. apply Hfile. now symmetry. }
  set (base := match files st (resolve text) with
               | Some ls => ls
               | None => [Header]
               end).
  set (s1 := newSave text st).
  assert (H1 : saveName s1 = text /\ files s1 (resolve text) = Some base).
  { subst s1 base. unfold SaveFile.newSave, SaveFile.start_file.
    rewrite Hneq, Hopen.
    destruct (files st (resolve text)) as [ls | ] eqn:E; simpl.
    - now rewrite E.
    - unfold SaveFile.write_file. now rewrite String.eqb_refl. }
  destruct H1 as [N1 F1].
  destruct (execs_logs rows1 s1 base) as (s2 & E2 & N2 & F2 & O2);
    [now rewrite N1 | now rewrite N1 | ].
  rewrite N1 in N2, F2, O2.
  set (s3 := SaveFile.mkState R "SaveLog.csv"%string
               (SaveFile.write_file R resolve "SaveLog.csv"%string [Header]
                  (files s2))).
  assert (E3 : stopSave s2 = Some s3).
  { unfold SaveFile.stopSave. now rewrite (start_default _ Hdef). }
  assert (F3 : files s3 (resolve "SaveLog.csv"%string) = Some [Header]).
  { simpl. unfold SaveFile.write_file. now rewrite String.eqb_refl. }
  assert (O3 : forall f, f <> resolve "SaveLog.csv"%string ->
                         files s3 f = files s2 f).
  { intros f Hf. simpl. unfold SaveFile.write_file.
    apply String.eqb_neq in Hf. now rewrite Hf. }
  set (s4 := newSave text s3).
  assert (H4 : saveName s4 = text
               /\ forall f, files s4 f = files s3 f).
  { subst s4. unfold SaveFile.newSave, SaveFile.start_file.
    rewrite (O3 (resolve text) Hfile), F2, Hneq, Hopen. now split. }
  destruct H4 as [N4 F4].
  destruct (execs_logs rows2 s4 (base ++ map Row rows1))
    as (s5 & E5 & N5 & F5 & O5);
    [now rewrite N4 | now rewrite N4, F4, (O3 (resolve text) Hfile) | ].
  rewrite N4 in N5, F5, O5.
  exists s5.
  assert (Hrun : forall cs1 cs2 a b,
             execs cs1 a = Some b -> execs (cs1 ++ cs2) a = execs cs2 b).
  { clear. induction cs1 as [ | c cs1 IH]; intros cs2 a b H.
    - now injection H as ->.
    - simpl in *.
      destruct (SaveFile.exec R openable resolve c a); [ | discriminate].
      now apply IH. }
  split.
  { change (NewSave text :: map Log rows1
              ++ StopSave :: NewSave text :: map Log rows2)
      with ([NewSave text] ++ map Log rows1
              ++ [StopSave; NewSave text] ++ map Log rows2).
    rewrite (Hrun [NewSave text] _ st s1 eq_refl).
    rewrite (Hrun _ _ s1 s2 E2).
    rewrite (Hrun [StopSave; NewSave text] _ s2 s4);
      [exact E5 | simpl; now rewrite E3]. }
  split; [exact N5 | ]. split; [now rewrite F5, <- app_assoc | ].
  rewrite O5, F4 by exact Hfile'. exact F3.
Qed.

(** When [open] fails on the chosen name, [newSave] has already made it
    the save name, although no file has changed: from then on no row can
    be logged, every attempt raises. *)
Theorem failed_newSave_stops_logging
    (text : String.string) (st : SaveFile.State R) :
  openable text = false ->
  saveName (newSave text st) = text
  /\ (forall f, files (newSave text st) f = files st f)
  /\ forall r, writerow r (newSave text st) = None.
Proof.
  intros Hopen.
  assert (E : newSave text st = SaveFile.mkState R text (files st)).
  { unfold SaveFile.newSave, SaveFile.start_file. rewrite Hopen.
    now destruct (negb _ || _). }
  rewrite E. split; [reflexivity | split; [reflexivity | ]].
  intros r. unfold SaveFile.writerow. simpl. now rewrite Hopen.
Qed.

End SaveFileFacts.

Lemma newSave_keeps_existing_file_witness :
  let st := SaveFile.mkState nat "SaveLog.csv"%string sample_files in
  "run1.csv"%string <> "SaveLog.csv"%string
  /\ SaveFile.files nat st (sample_resolve "run1.csv"%string)
     = Some [SaveFile.Header nat; SaveFile.Row nat 7%nat]
  /\ SaveFile.saveName nat
       (SaveFile.newSave nat sample_openable sample_resolve
          "run1.csv"%string st)
     = "run1.csv"%string
  /\ forall f,
       SaveFile.files nat
         (SaveFile.newSave nat sample_openable sample_resolve
            "run1.csv"%string st) f
       = SaveFile.files nat st f.
Proof.
  intros st. split; [discriminate | split; [reflexivity | ]].
  apply (newSave_keeps_existing_file nat sample_openable sample_resolve
           "run1.csv"%string st
           [SaveFile.Header nat; SaveFile.Row nat 7%nat]);
    [discriminate | reflexivity].
Defined.

Lemma default_file_is_always_restarted_witness :
  let st := SaveFile.mkState nat "SaveLog.csv"%string sample_files in
  sample_openable "SaveLog.csv"%string = true
  /\ (exists st',
        SaveFile.stopSave nat sample_openable sample_resolve st = Some st'
        /\ SaveFile.saveName nat st' = "SaveLog.csv"%string
        /\ SaveFile.files nat st' (sample_resolve "SaveLog.csv"%string)
           = Some [SaveFile.Header nat]
        /\ forall f, f <> sample_resolve "SaveLog.csv"%string ->
                     SaveFile.files nat st' f = SaveFile.files nat st f)
  /\ SaveFile.files nat
       (SaveFile.newSave nat sample_openable sample_resolve
          "SaveLog.csv"%string st)
       (sample_resolve "SaveLog.csv"%string)
     = Some [SaveFile.Header nat]
  /\ (SaveFile.saveName nat st = "SaveLog.csv"%string ->
      exists st',
        SaveFile.setupSave nat sample_openable sample_resolve st = Some st'
        /\ SaveFile.files nat st' (sample_resolve "SaveLog.csv"%string)
           = Some [SaveFile.Header nat]).
Proof.
  intros st. split; [reflexivity | ].
  apply (default_file_is_always_restarted nat sample_openable sample_resolve
           st).
  reflexivity.
Defined.

Lemma resumed_recording_continues_its_file_witness :
  let st := SaveFile.mkState nat "SaveLog.csv"%string sample_files in
  sample_resolve "run1.csv"%string <> sample_resolve "SaveLog.csv"%string
  /\ sample_openable "run1.csv"%string = true
  /\ sample_openable "SaveLog.csv"%string = true
  /\ SaveFile.files nat st (sample_resolve "run1.csv"%string)
     = Some [SaveFile.Header nat; SaveFile.Row nat 7%nat]
  /\ exists st',
       SaveFile.execs nat sample_openable sample_resolve
         (SaveFile.NewSave nat "run1.csv"%string
            :: map (SaveFile.Log nat) [8%nat; 9%nat]
            ++ SaveFile.StopSave nat
            :: SaveFile.NewSave nat "run1.csv"%string
            :: map (SaveFile.Log nat) [10%nat]) st
       = Some st'
       /\ SaveFile.saveName nat st' = "run1.csv"%string
       /\ SaveFile.files nat st' (sample_resolve "run1.csv"%string)
          = Some (match
                    SaveFile.files nat st (sample_resolve "run1.csv"%string)
                  with
                  | Some ls => ls
                  | None => [SaveFile.Header nat]
                  end ++ map (SaveFile.Row nat) [8%nat; 9%nat]
                      ++ map (SaveFile.Row nat) [10%nat])
       /\ SaveFile.files nat st' (sample_resolve "SaveLog.csv"%string)
          = Some [SaveFile.Header nat].
Proof.
  intros st. split; [discriminate | split; [reflexivity | ]].
  split; [reflexivity | split; [reflexivity | ]].
  apply (resumed_recording_continues_its_file nat sample_openable
           sample_resolve "run1.csv"%string [8%nat; 9%nat] [10%nat] st);
    [discriminate | reflexivity | reflexivity].
Defined.

Lemma failed_newSave_stops_logging_witness :
  let st := SaveFile.mkState nat "SaveLog.csv"%string sample_files in
  let text := "no/such/dir/run.csv"%string in
  sample_openable text = false
  /\ SaveFile.saveName nat
       (SaveFile.newSave nat sample_openable sample_resolve text st)
     = text
  /\ (forall f,
        SaveFile.files nat
          (SaveFile.newSave nat sample_openable sample_resolve text st) f
        = SaveFile.files nat st f)
  /\ forall r,
       SaveFile.writerow nat sample_openable sample_resolve r
         (SaveFile.newSave nat sample_openable sample_resolve text st)
       = None.
Proof.
  intros st text. split; [reflexivity | ].
  apply (failed_newSave_stops_logging nat sample_openable sample_resolve text
           st).
  reflexivity.
Defined.

(** A second name of the default file is no name to record under: the
    file is taken over as it is, and stopping the recording, which
    restarts the default file, leaves of the rows logged nothing. *)
Lemma alias_of_default_file_loses_recording :
  let st := SaveFile.mkState nat "SaveLog.csv"%string sample_files in
  "./SaveLog.csv"%string <> "SaveLog.csv"%string
  /\ sample_resolve "./SaveLog.csv"%string
     = sample_resolve "SaveLog.csv"%string
  /\ exists st',
       SaveFile.execs nat sample_openable sample_resolve
         (SaveFile.NewSave nat "./SaveLog.csv"%string
            :: map (SaveFile.Log nat) [8%nat; 9%nat]
            ++ [SaveFile.StopSave nat]) st
       = Some st'
       /\ SaveFile.files nat st' (sample_resolve "./SaveLog.csv"%string)
          = Some [SaveFile.Header nat].
Proof.
  intros st. split; [discriminate | split; [reflexivity | ]].
  eexists. split; reflexivity.
Qed.

(** * The plot deques *)

Lemma veVco2_sized_500 : veVco2_sized 500 = veVco2.
Proof. reflexivity. Qed.

(** With the constructor's [maxlen], the pipeline side of
    [dataUpdate_plots] is [dataUpdate]. *)
Lemma dataUpdate_plots_pipeline (index xTime now : Z) (n : Q)
    (s : MainUI) (p : Plots) :
  dataPts p = 500%nat ->
  fst (fst (dataUpdate_plots index xTime now n (s, p)))
  = fst (dataUpdate index now n s)
  /\ snd (dataUpdate_plots index xTime now n (s, p))
     = snd (dataUpdate index now n s).
Proof.
  intros Hm. unfold dataUpdate_plots, dataUpdate. rewrite Hm.
  rewrite veVco2_sized_500. cbv beta iota delta [bind ret].
  destruct (index =? 0)%Z.
  - destruct (volBreath now n s) as [s1 [[] | e]]; [ | now split].
    destruct (index =? 1)%Z; [ | now split].
    destruct (veVco2 now n s1) as [s2 [[] | e]]; now split.
  - destruct (index =? 1)%Z; [ | now split].
    destruct (veVco2 now n s) as [s2 [[] | e]]; now split.
Qed.

(** When [veVco2] returns, it has appended exactly one value to the plot
    deque. *)
Lemma veVco2_sized_appends (m : nat) (now : Z) (n : Q) (s : MainUI) :
  snd (veVco2_sized m now n s) = Ok tt ->
  exists r,
    veVco2Val (fst (veVco2_sized m now n s))
    = deque_append m (veVco2Val s) r.
Proof.
  unfold veVco2_sized. crunch; intros H; try discriminate; eauto.
Qed.

Lemma act_keeps_aligned (a : WindowAction) (w : Window) :
  curves_aligned w -> snd (act a w) = Ok tt ->
  curves_aligned (fst (act a w)).
Proof.
  destruct w as [s p]. intros (H1 & H2 & H3 & H4) Hok.
  simpl in H1, H2, H3, H4.
  destruct a as [index xTime now n | | newVal xTime]; simpl act in *.
  - unfold dataUpdate_plots in *. cbv beta iota delta [bind ret co2Max] in *.
    destruct (index =? 0)%Z eqn:E0.
    + assert (E1 : (index =? 1)%Z = false).
      { apply Z.eqb_eq in E0. subst index. reflexivity. }
      pose proof (volBreath_frame now n s) as (_ & _ & _ & _ & _ & F & _).
      unfold after in F. rewrite E1 in *.
      destruct (volBreath now n s) as [s1 [[] | e]]; [ | discriminate].
      simpl in F. unfold curves_aligned. simpl.
      rewrite !deque_append_length, F. repeat split; congruence.
    + destruct (index =? 1)%Z eqn:E1.
      * pose proof (veVco2_sized_appends (dataPts p) now n s) as Happ.
        destruct (veVco2_sized (dataPts p) now n s) as [s2 [[] | e]];
          [ | discriminate].
        destruct (Happ eq_refl) as [r Hr]. simpl in Hr.
        unfold curves_aligned. simpl.
        rewrite Hr, !deque_append_length. repeat split; congruence.
      * unfold curves_aligned. simpl. now repeat split.
  - unfold curves_aligned. simpl. now repeat split.
  - unfold setDataPts. destruct ((newVal <? 0)%Z || (maxsize <? newVal)%Z).
    + unfold curves_aligned. simpl. now repeat split.
    + unfold curves_aligned, deque_of. simpl fst. simpl snd.
      cbn [flowX flowY coX coY integX integY veVco2Val set_veVco2Val].
      rewrite !lastn_length. now repeat split.
Qed.

(** As long as nothing raises, the two arrays handed to each curve have
    the same length: after any readings, resets and changes of the
    number of data points since construction, [flowX] and [flowY],
    [integX] and [integY], [coX] and [coY], and [coX] and [veVco2Val]
    are as long as each other. *)
Theorem curves_stay_aligned (l : list WindowAction) (t xTime : Z) :
  snd (acts l (init t, init_plots xTime)) = Ok tt ->
  curves_aligned (fst (acts l (init t, init_plots xTime))).
Proof.
  assert (H0 : curves_aligned (init t, init_plots xTime)).
  { unfold curves_aligned. simpl. now repeat split. }
  revert H0. generalize (init t, init_plots xTime) as w.
  induction l as [ | a l IH]; intros w Hw Hok; [exact Hw | ].
  simpl in *. pose proof (act_keeps_aligned a w Hw) as Hstep.
  destruct (act a w) as [w1 [[] | e]]; [ | discriminate].
  apply IH; [now apply Hstep | exact Hok].
Qed.

Lemma curves_stay_aligned_witness :
  let l :=
    [Deliver 0 10000 10001 12; Deliver 1 20000 20001 30000;
     PressReset; DataPts 2 30000; Deliver 1 40000 40001 100;
     Deliver 1 50000 50001 25000; Deliver 1 60000 60001 26000;
     Deliver 0 70000 70001 0] in
  snd (acts l (init 0, init_plots 0)) = Ok tt
  /\ curves_aligned (fst (acts l (init 0, init_plots 0))).
Proof.
  intros l. split; [reflexivity | ].
  apply (curves_stay_aligned l 0 0). reflexivity.
Defined.
